(** * Backup retention and single-user authentication: a shallow embedding

    The development follows two source files of the application:
    the backup module (createBackup, createManualBackup,
    cleanupOldBackups, ...) and the authentication module (createUser,
    login, validateSession, changePassword, ...), together with the
    schema of [migrations.ts] and the values of [app.config.ts].

    JavaScript time values are modelled by [Z] (milliseconds since the
    epoch), the file system by an explicit record that is passed through
    every operation, together with what the environment makes throw, and
    the SQLite database by row lists on which the constraints of the
    schema are checked at every INSERT.  [JsString] gives the string
    functions on strings of code units below 256; the authentication
    module takes the engine's string functions, the local time zone and
    bcrypt as a parameter. *)

From Stdlib Require Import ZArith Lia Bool List Ascii String Permutation.
From Stdlib Require DecimalString.
Import ListNotations.

Open Scope string_scope.
Open Scope Z_scope.

(* ================================================================== *)
(** ** JavaScript string primitives used by the two modules *)

Module JsString.

(** [String.prototype.toLowerCase] on a string of code units below 256:
    the letters A..Z and the capital letters U+00C0..U+00DE (all but the
    multiplication sign U+00D7) move up by 32, every other unit stays. *)
Definition lowerChar (c : ascii) : ascii :=
  let n := nat_of_ascii c in
  if (((65 <=? n) && (n <=? 90)) ||
      ((192 <=? n) && (n <=? 222) && negb (n =? 215)))%nat
  then ascii_of_nat (n + 32) else c.

Fixpoint toLowerCase (s : string) : string :=
  match s with
  | EmptyString => EmptyString
  | String c r => String (lowerChar c) (toLowerCase r)
  end.

(** White space and line terminators removed by [String.prototype.trim],
    among the code units below 256: TAB, LF, VT, FF, CR, the space and the
    no-break space U+00A0. *)
Definition isSpace (c : ascii) : bool :=
  let n := nat_of_ascii c in
  (((9 <=? n) && (n <=? 13)) || (n =? 32) || (n =? 160))%nat.

Fixpoint trimStart (s : string) : string :=
  match s with
  | EmptyString => EmptyString
  | String c r => if isSpace c then trimStart r else s
  end.

Fixpoint trimEnd (s : string) : string :=
  match s with
  | EmptyString => EmptyString
  | String c r =>
      match trimEnd r with
      | EmptyString => if isSpace c then EmptyString else String c EmptyString
      | r' => String c r'
      end
  end.

Definition trim (s : string) : string := trimEnd (trimStart s).

(** [s.startsWith(p)] and [s.endsWith(p)]. *)
Definition startsWith (s p : string) : bool := String.prefix p s.

Definition endsWith (s p : string) : bool :=
  let n := String.length s in
  let m := String.length p in
  ((m <=? n)%nat && String.eqb (substring (n - m) m s) p).

(** [s.replace(/[:.]/g, '-')]. *)
Definition dashChar (c : ascii) : ascii :=
  if (Ascii.eqb c ":" || Ascii.eqb c ".")%char then "-"%char else c.

Fixpoint replaceColonDot (s : string) : string :=
  match s with
  | EmptyString => EmptyString
  | String c r => String (dashChar c) (replaceColonDot r)
  end.

(** [s.split(sep)] for a one-character separator; the result is never
    empty. *)
Fixpoint split (sep : ascii) (s : string) : list string :=
  match s with
  | EmptyString => [EmptyString]
  | String c r =>
      if Ascii.eqb c sep then EmptyString :: split sep r
      else match split sep r with
           | [] => [String c EmptyString]
           | h :: t => String c h :: t
           end
  end.

(** Whether a character occurs in a string. *)
Fixpoint occurs (c : ascii) (s : string) : bool :=
  match s with
  | EmptyString => false
  | String d r => Ascii.eqb d c || occurs c r
  end.

(** Every character of [s] satisfies [P]. *)
Fixpoint allChars (P : ascii -> bool) (s : string) : bool :=
  match s with
  | EmptyString => true
  | String c r => P c && allChars P r
  end.

(** Character classes of the ISO rendering. *)
Definition isDigit (c : ascii) : bool :=
  let n := nat_of_ascii c in ((48 <=? n) && (n <=? 57))%nat.

Definition dateChar (c : ascii) : bool :=
  isDigit c || Ascii.eqb c "-" || Ascii.eqb c "+".

Definition clockChar (c : ascii) : bool :=
  isDigit c || Ascii.eqb c ":" || Ascii.eqb c "." || Ascii.eqb c "Z".

End JsString.

(* ================================================================== *)
(** ** Time values and their renderings *)

Module JsDate.

Definition msPerSecond : Z := 1000.
Definition msPerMinute : Z := 60000.
Definition msPerHour : Z := 3600000.
Definition msPerDay : Z := 86400000.

(** The day number of a time value and the clock fields, as in the
    language specification (floor division on [Z]). *)
Definition Day (t : Z) : Z := t / msPerDay.
Definition HourFromTime (t : Z) : Z := (t / msPerHour) mod 24.
Definition MinFromTime (t : Z) : Z := (t / msPerMinute) mod 60.
Definition SecFromTime (t : Z) : Z := (t / msPerSecond) mod 60.
Definition msFromTime (t : Z) : Z := t mod msPerSecond.

(** Proleptic Gregorian date of a day number: (year, month 1..12,
    day of month 1..31). *)
Definition civilFromDays (days : Z) : Z * Z * Z :=
  let z := days + 719468 in
  let era := z / 146097 in
  let doe := z mod 146097 in
  let yoe := (doe - doe / 1460 + doe / 36524 - doe / 146096) / 365 in
  let doy := doe - (365 * yoe + yoe / 4 - yoe / 100) in
  let mp := (5 * doy + 2) / 153 in
  let d := doy - (153 * mp + 2) / 5 + 1 in
  let m := if mp <? 10 then mp + 3 else mp - 9 in
  let y := yoe + era * 400 + (if m <=? 2 then 1 else 0) in
  (y, m, d).

Definition YearFromTime (t : Z) : Z := fst (fst (civilFromDays (Day t))).
Definition MonthFromTime (t : Z) : Z := snd (fst (civilFromDays (Day t))).
Definition DateFromTime (t : Z) : Z := snd (civilFromDays (Day t)).

Definition digit (n : Z) : ascii := ascii_of_nat (48 + Z.to_nat (n mod 10)).

(** [pad w n]: the last [w] decimal digits of [n], zero padded. *)
Fixpoint pad (w : nat) (n : Z) : string :=
  match w with
  | O => EmptyString
  | S w' => pad w' (n / 10) ++ String (digit n) EmptyString
  end.

(** Four digits for the years 0..9999, a sign and six digits
    otherwise. *)
Definition isoYear (y : Z) : string :=
  if (0 <=? y) && (y <=? 9999) then pad 4 y
  else (if y <? 0 then "-" else "+") ++ pad 6 (Z.abs y).

Definition isoDate (y m d : Z) : string :=
  isoYear y ++ "-" ++ pad 2 m ++ "-" ++ pad 2 d.

Definition isoClock (t : Z) : string :=
  pad 2 (HourFromTime t) ++ ":" ++ pad 2 (MinFromTime t) ++ ":" ++
  pad 2 (SecFromTime t) ++ "." ++ pad 3 (msFromTime t) ++ "Z".

(** [new Date(t).toISOString()]. *)
Definition toISOString (t : Z) : string :=
  isoDate (YearFromTime t) (MonthFromTime t) (DateFromTime t) ++ "T" ++
  isoClock t.

(** SQLite's [datetime('now')] at time [t]: "YYYY-MM-DD HH:MM:SS". *)
Definition sqlDatetime (t : Z) : string :=
  pad 4 (YearFromTime t) ++ "-" ++ pad 2 (MonthFromTime t) ++ "-" ++
  pad 2 (DateFromTime t) ++ " " ++ pad 2 (HourFromTime t) ++ ":" ++
  pad 2 (MinFromTime t) ++ ":" ++ pad 2 (SecFromTime t).

(** [TimeWithinDay] and [MakeDate] of the language specification. *)
Definition TimeWithinDay (t : Z) : Z := t mod msPerDay.
Definition MakeDate (day time : Z) : Z := day * msPerDay + time.

(** Two time values lie in the same UTC calendar date and clock hour. *)
Definition sameUtcHour (a b : Z) : Prop :=
  YearFromTime a = YearFromTime b /\ MonthFromTime a = MonthFromTime b /\
  DateFromTime a = DateFromTime b /\ HourFromTime a = HourFromTime b.

(** Two time values lie in the same clock second. *)
Definition sameUtcSecond (a b : Z) : Prop := a / msPerSecond = b / msPerSecond.

End JsDate.

Import JsString JsDate.

(* ================================================================== *)
(** ** Configuration ([app.config.ts]) *)

Record AppConfigT : Type := {
  databaseName : string;
  backupPrefix : string;
  maxBackups : Z;
  periodicIntervalHours : Z;
  startupThresholdHours : Z;
  sessionExpiryDays : Z;
  rememberMeEnabled : bool
  }.

Definition AppConfig : AppConfigT := {|
  databaseName := "app-data.db";
  backupPrefix := "app-backup";
  maxBackups := 7;
  periodicIntervalHours := 6;
  startupThresholdHours := 24;
  sessionExpiryDays := 30;
  rememberMeEnabled := true
  |}.

(** The [{ success, message }] shape shared by the operations. *)
Record ApiResult : Type := { success : bool; message : string }.

(* ================================================================== *)
(** ** The backup module *)

Module Backup.

(** A regular file: its bytes and its modification time (ms). *)
Record File : Type := { content : string; mtime : Z }.

(** A directory: its entries in the order [readdirSync] reports them.
    A name occurs at most once in a directory of a real file system
    ([uniqueNames]). *)
Definition Dir : Type := list (string * File).

Definition uniqueNames (d : Dir) : Prop := NoDup (map fst d).

(** The part of the file system the module reads and writes: the
    database file at DB_PATH, the directory BACKUP_DIR (absent until it
    is created) and, under their paths, the files elsewhere. *)
Record FS : Type := {
  dbFile : option File;
  backupDir : option Dir;
  otherFiles : Dir
  }.

Record BackupResult : Type := {
  b_success : bool;
  b_message : string;
  b_filePath : option string
  }.

(** One element of the array built in [cleanupOldBackups]. *)
Record BackupStat : Type := { s_name : string; s_path : string; s_time : Z }.


(** What the save dialog resolves to. *)
Record SaveDialogResult : Type := { canceled : bool; dlgFilePath : option string }.

Definition pathJoin (a b : string) : string := a ++ "/" ++ b.

(** Where a path leads among the places of [FS].  Paths are compared as
    texts: the save dialog returns an absolute path. *)
Inductive Place : Type :=
| AtDbPath
| InBackupDir (name : string)
| Elsewhere.

(** The name under which [p] is an entry of the directory [dir], if it
    is one. *)
Definition childOf (dir p : string) : option string :=
  let stem := dir ++ "/" in
  if String.prefix stem p then
    let rest := substring (String.length stem)
                          (String.length p - String.length stem) p in
    if String.eqb rest "" || occurs "/" rest then None else Some rest
  else None.

(** The entries of the backup directory, none when it is absent. *)
Definition dirOf (fs : FS) : Dir :=
  match backupDir fs with
  | Some d => d
  | None => []
  end.

(** [fs.copyFileSync]'s effect on a directory: the destination is
    replaced when it exists and created otherwise. *)
Fixpoint writeEntry (name : string) (f : File) (d : Dir) : Dir :=
  match d with
  | [] => [(name, f)]
  | (n, g) :: r =>
      if String.eqb n name then (name, f) :: r
      else (n, g) :: writeEntry name f r
  end.

(** The file a directory holds under a name, if any. *)
Definition lookupEntry (name : string) (d : Dir) : option File :=
  option_map snd (find (fun e => String.eqb (fst e) name) d).

(** [fs.unlinkSync] on an entry of a directory. *)
Definition unlinkEntry (name : string) (d : Dir) : Dir :=
  filter (fun e => negb (String.eqb (fst e) name)) d.

(** [files.sort((a, b) => b.time - a.time)]: newest first, and stable
    (entries of equal time keep their order). *)
Fixpoint insertByTime (x : BackupStat) (l : list BackupStat) : list BackupStat :=
  match l with
  | [] => [x]
  | y :: r => if s_time x <? s_time y then y :: insertByTime x r
              else x :: y :: r
  end.

Fixpoint sortNewestFirst (l : list BackupStat) : list BackupStat :=
  match l with
  | [] => []
  | x :: r => insertByTime x (sortNewestFirst r)
  end.

(** Newest first: no entry is older than one that follows it. *)
Fixpoint newestFirst (l : list BackupStat) : Prop :=
  match l with
  | [] => True
  | x :: r => Forall (fun y => s_time y <= s_time x) r /\ newestFirst r
  end.

(** Each number exceeds the one before it, the first exceeds [lo]. *)
Fixpoint risingAfter (lo : Z) (ms : list Z) : Prop :=
  match ms with
  | [] => True
  | m :: r => lo < m /\ risingAfter m r
  end.

(** Whether a name is the name of one of the entries. *)
Definition named (n : string) (l : list BackupStat) : bool :=
  existsb (fun f => String.eqb n (s_name f)) l.

(** [arr.slice(start)], negative [start] counting from the end. *)
Definition slice {A : Type} (start : Z) (l : list A) : list A :=
  let len := Z.of_nat (List.length l) in
  let k := if start <? 0 then Z.max (len + start) 0 else Z.min start len in
  skipn (Z.to_nat k) l.

(** The two string computations of [createBackup]; the second one
    throws a TypeError when the ISO string has no 'T'. *)
Definition timestampOf (now : Z) : string :=
  hd "undefined" (split "T" (replaceColonDot (toISOString now))).

Definition timeStrOf (now : Z) : option string :=
  match nth_error (split "T" (replaceColonDot (toISOString now))) 1 with
  | Some clock => Some (hd "undefined" (split "-" clock))
  | None => None
  end.

Definition typeErrorSplit : string :=
  "Cannot read properties of undefined (reading 'split')".

(** What the environment makes throw during one call of [createBackup],
    if anything: [mkdirSync] (it is called only when the directory is
    missing); [copyFileSync], which removes a destination it had already
    opened for writing; and, inside [cleanupOldBackups], [statSync] on a
    listed snapshot, or the [unlinkSync] that follows [k] successful
    ones. *)
Inductive Throw : Type :=
| MkdirThrows (err : string)
| CopyThrows (err : string) (destinationRemoved : bool)
| StatThrows
| UnlinkThrows (k : nat).

Section WithConfig.

Variable cfg : AppConfigT.
(** [app.getPath('userData')]. *)
Variable userData : string.

Definition BACKUP_DIR : string := pathJoin userData "backups".
Definition DB_PATH : string := pathJoin userData (databaseName cfg).
Definition MAX_BACKUPS : Z := maxBackups cfg.
Definition BACKUP_PREFIX : string := backupPrefix cfg.
Definition BACKUP_INTERVAL : Z := periodicIntervalHours cfg * 60 * 60 * 1000.
Definition BACKUP_THRESHOLD : Z := startupThresholdHours cfg * 60 * 60 * 1000.

Definition ensureBackupDir (fs : FS) : FS :=
  match backupDir fs with
  | Some _ => fs
  | None => {| dbFile := dbFile fs; backupDir := Some [];
               otherFiles := otherFiles fs |}
  end.

(** The filter of [cleanupOldBackups], [getLastBackupTime] and
    [getBackupInfo]. *)
Definition isBackupFile (file : string) : bool :=
  startsWith file BACKUP_PREFIX && endsWith file ".db".

Definition backupFileName (timestamp timeStr : string) : string :=
  BACKUP_PREFIX ++ "_" ++ timestamp ++ "_" ++ timeStr ++ ".db".

(** The sorted array [files] of [cleanupOldBackups]. *)
Definition backupStats (d : Dir) : list BackupStat :=
  sortNewestFirst
    (map (fun e => {| s_name := fst e;
                      s_path := pathJoin BACKUP_DIR (fst e);
                      s_time := mtime (snd e) |})
         (filter (fun e => isBackupFile (fst e)) d)).

(** Whether an entry is a snapshot file, and its element of [files]. *)
Definition matches (e : string * File) : bool := isBackupFile (fst e).

Definition statOf (e : string * File) : BackupStat :=
  {| s_name := fst e;
     s_path := pathJoin BACKUP_DIR (fst e);
     s_time := mtime (snd e) |}.

(** The entries [cleanupOldBackups] passes to [unlinkSync]. *)
Definition doomed (d : Dir) : list BackupStat :=
  let files := backupStats d in
  if Z.of_nat (List.length files) >? MAX_BACKUPS
  then slice (MAX_BACKUPS) files else [].

(** The body of [cleanupOldBackups] on the directory when nothing in it
    throws. *)
Definition cleanupDir (d : Dir) : Dir :=
  let files := backupStats d in
  if Z.of_nat (List.length files) >? MAX_BACKUPS then
    fold_left (fun acc file => unlinkEntry (s_name file) acc)
              (slice MAX_BACKUPS files) d
  else d.

(** The same when the [unlinkSync] after [k] successful ones throws: the
    [forEach] ends there and the remaining files stay. *)
Definition cleanupDirUpTo (k : nat) (d : Dir) : Dir :=
  let files := backupStats d in
  if Z.of_nat (List.length files) >? MAX_BACKUPS then
    fold_left (fun acc file => unlinkEntry (s_name file) acc)
              (firstn k (slice MAX_BACKUPS files)) d
  else d.

(** The entries [cleanupOldBackups] removes under a fault. *)
Definition unlinked (fault : option Throw) (d : Dir) : list BackupStat :=
  match fault with
  | Some StatThrows => []
  | Some (UnlinkThrows k) => firstn k (doomed d)
  | _ => doomed d
  end.

(** The body of [cleanupOldBackups] under a fault: a throwing
    [statSync] ends it before anything is removed, a throwing
    [unlinkSync] ends it with the files removed so far. *)
Definition cleanupDirWhen (fault : option Throw) (d : Dir) : Dir :=
  match fault with
  | Some StatThrows => d
  | Some (UnlinkThrows k) => cleanupDirUpTo k d
  | _ => cleanupDir d
  end.

(** [cleanupOldBackups].  Whatever throws inside is caught and logged;
    a missing directory makes [readdirSync] throw. *)
Definition cleanupOldBackups (fault : option Throw) (fs : FS) : FS :=
  match backupDir fs with
  | None => fs
  | Some d => {| dbFile := dbFile fs;
                 backupDir := Some (cleanupDirWhen fault d);
                 otherFiles := otherFiles fs |}
  end.

(** The error of [mkdirSync] in [ensureBackupDir], when it is called and
    throws, and the error of [copyFileSync]. *)
Definition mkdirError (fault : option Throw) (fs : FS) : option string :=
  match backupDir fs, fault with
  | None, Some (MkdirThrows err) => Some err
  | _, _ => None
  end.

Definition copyError (fault : option Throw) : option (string * bool) :=
  match fault with
  | Some (CopyThrows err destinationRemoved) => Some (err, destinationRemoved)
  | _ => None
  end.

(** Whether the pruning of the call runs to its end. *)
Definition pruneCompletes (fault : option Throw) : bool :=
  match fault with
  | Some StatThrows | Some (UnlinkThrows _) => false
  | _ => true
  end.

Definition failed (msg : string) : BackupResult :=
  {| b_success := false; b_message := msg; b_filePath := None |}.

(** [createBackup].  [now1] and [now2] are the two readings of
    [new Date()], [mt] the modification time the copy receives, and
    [fault] what throws during the call, if anything does.  The whole
    body is inside one [try]: an error of [mkdirSync] or [copyFileSync]
    becomes the result "Backup failed: ...", while the errors inside
    [cleanupOldBackups] are caught there and the call still reports
    success. *)
Definition createBackup (now1 now2 mt : Z) (fault : option Throw)
    (fs : FS) : BackupResult * FS :=
  match mkdirError fault fs with
  | Some err => (failed ("Backup failed: " ++ err), fs)
  | None =>
  let fs1 := ensureBackupDir fs in
  match dbFile fs1 with
  | None => (failed "Database file not found", fs1)
  | Some db =>
      let timestamp := timestampOf now1 in
      match timeStrOf now2 with
      | None => (failed ("Backup failed: " ++ typeErrorSplit), fs1)
      | Some timeStr =>
          let name := backupFileName timestamp timeStr in
          let backupPath := pathJoin BACKUP_DIR name in
          let d := match backupDir fs1 with Some d => d | None => [] end in
          match copyError fault with
          | Some (err, destinationRemoved) =>
              (failed ("Backup failed: " ++ err),
               if destinationRemoved
               then {| dbFile := dbFile fs1;
                       backupDir := Some (unlinkEntry name d);
                       otherFiles := otherFiles fs1 |}
               else fs1)
          | None =>
              let fs2 := {| dbFile := dbFile fs1;
                            backupDir := Some (writeEntry name
                              {| content := content db; mtime := mt |} d);
                            otherFiles := otherFiles fs1 |} in
              let fs3 := cleanupOldBackups fault fs2 in
              ({| b_success := true;
                  b_message := "Backup created successfully";
                  b_filePath := Some backupPath |}, fs3)
          end
      end
  end
  end.

Definition placeOf (p : string) : Place :=
  if String.eqb p DB_PATH then AtDbPath
  else match childOf BACKUP_DIR p with
       | Some name => InBackupDir name
       | None => Elsewhere
       end.

(** [fs.copyFileSync(DB_PATH, p)] when nothing else makes it throw: the
    copy goes where the path leads.  Copying the database file onto
    itself leaves it as it is; a path into the backup directory needs
    the directory to exist. *)
Definition copyDbTo (p : string) (copy : File) (fs : FS) : string + FS :=
  match placeOf p with
  | AtDbPath => inr fs
  | InBackupDir name =>
      match backupDir fs with
      | Some d => inr {| dbFile := dbFile fs;
                         backupDir := Some (writeEntry name copy d);
                         otherFiles := otherFiles fs |}
      | None => inl ("ENOENT: no such file or directory, copyfile '" ++
                     DB_PATH ++ "' -> '" ++ p ++ "'")
      end
  | Elsewhere => inr {| dbFile := dbFile fs; backupDir := backupDir fs;
                        otherFiles := writeEntry p copy (otherFiles fs) |}
  end.

(** [createManualBackup]; [dlg] is what the save dialog resolves
    to, [fault] the error of a copy that throws for a reason of the
    environment. *)
Definition createManualBackup (now1 now2 mt : Z) (dlg : SaveDialogResult)
    (fault : option string) (fs : FS) : ApiResult * FS :=
  match dbFile fs with
  | None => ({| success := false; message := "Database file not found" |}, fs)
  | Some db =>
      match timeStrOf now2 with
      | None => ({| success := false;
                    message := "Backup failed: " ++ typeErrorSplit |}, fs)
      | Some _ =>
          match canceled dlg, dlgFilePath dlg with
          | true, _ | false, None | false, Some EmptyString =>
              ({| success := false; message := "Backup cancelled" |}, fs)
          | false, Some p =>
              match fault with
              | Some err =>
                  ({| success := false;
                      message := "Backup failed: " ++ err |}, fs)
              | None =>
                  match copyDbTo p {| content := content db; mtime := mt |}
                                 fs with
                  | inl err => ({| success := false;
                                   message := "Backup failed: " ++ err |}, fs)
                  | inr fs' => ({| success := true;
                                   message := "Backup saved to " ++ p |}, fs')
                  end
              end
          end
      end
  end.

(** [getLastBackupTime]. *)
Definition getLastBackupTime (fs : FS) : option Z * FS :=
  let fs1 := ensureBackupDir fs in
  match backupDir fs1 with
  | None => (None, fs1)
  | Some d =>
      match backupStats d with
      | [] => (None, fs1)
      | f :: _ => (Some (s_time f), fs1)
      end
  end.

(** [checkAndCreateBackupOnStartup]; [dateNow] is [Date.now()].  A
    last backup time of 0 is falsy, as in the source.  An error of
    [mkdirSync] inside [getLastBackupTime] is caught there and gives
    null. *)
Definition checkAndCreateBackupOnStartup (dateNow now1 now2 mt : Z)
    (fault : option Throw) (fs : FS) : BackupResult * FS :=
  let '(lastBackupTime, fs1) :=
    match mkdirError fault fs with
    | Some _ => (None, fs)
    | None => getLastBackupTime fs
    end in
  match lastBackupTime with
  | None => createBackup now1 now2 mt fault fs1
  | Some last =>
      if last =? 0 then createBackup now1 now2 mt fault fs1
      else if dateNow - last >? BACKUP_THRESHOLD
           then createBackup now1 now2 mt fault fs1
           else ({| b_success := true;
                    b_message := "Recent backup exists, skipping";
                    b_filePath := None |}, fs1)
  end.

(** [createBackupOnClose]. *)
Definition createBackupOnClose := createBackup.

(** The number [getBackupInfo] reports as [backupCount]. *)
Definition backupCount (fs : FS) : nat :=
  match backupDir fs with
  | None => 0%nat
  | Some d => List.length (filter (fun e => isBackupFile (fst e)) d)
  end.

(** The names of the snapshot files of the backup directory. *)
Definition backupNames (fs : FS) : list string :=
  match backupDir fs with
  | None => []
  | Some d => filter isBackupFile (map fst d)
  end.


(** The file name [createBackup] derives from its two clock
    readings. *)
Definition derivedFileName (now1 now2 : Z) : option string :=
  option_map (backupFileName (timestampOf now1)) (timeStrOf now2).

(** A run of [createBackup] calls, each given by its two clock readings
and the modification time of its copy. *)
Definition createBackups (calls : list (Z * Z * Z)) (fs : FS) : FS :=
  fold_left (fun acc c => snd (createBackup (fst (fst c)) (snd (fst c)) (snd c)
                                       None acc)) calls fs.

(** The names the calls of a run derive. *)
Definition derivedNames (calls : list (Z * Z * Z)) : list (option string) :=
  map (fun c => derivedFileName (fst (fst c)) (snd (fst c))) calls.

(** [handleManualBackup] of the settings page: which toast, if any,
    a result of [createManualBackup] produces. *)
Inductive Toast : Type :=
  | ToastSuccess (msg : string)
  | ToastError (msg : string)
  | NoToast.

Definition handleManualBackup (result : ApiResult) : Toast :=
  if success result then ToastSuccess (message result)
  else if negb (String.eqb (message result) "Backup cancelled")
       then ToastError (message result)
       else NoToast.

End WithConfig.

(** *** The periodic timer.  The process has a set of active interval
    timers, each with a handle and a callback; the module keeps the handle
    of its own timer in [periodicBackupTimer]. *)
Inductive IntervalTask : Type :=
| PeriodicBackupTick
| OtherTick (label : string).

Record Timers : Type := {
  periodicBackupTimer : option nat;
  activeIntervals : list (nat * IntervalTask);
  nextHandle : nat
}.

(** The state when the module is loaded. *)
Definition noTimers : Timers :=
  {| periodicBackupTimer := None; activeIntervals := []; nextHandle := 0 |}.

(** [setInterval(task, ...)] by any code of the process. *)
Definition setInterval (task : IntervalTask) (tm : Timers) : nat * Timers :=
  (nextHandle tm,
   {| periodicBackupTimer := periodicBackupTimer tm;
      activeIntervals := activeIntervals tm ++ [(nextHandle tm, task)];
      nextHandle := S (nextHandle tm) |}).

(** [clearInterval(h)]. *)
Definition clearInterval (h : nat) (tm : Timers) : Timers :=
  {| periodicBackupTimer := periodicBackupTimer tm;
     activeIntervals :=
       filter (fun t => negb (Nat.eqb (fst t) h)) (activeIntervals tm);
     nextHandle := nextHandle tm |}.

Definition startPeriodicBackup (tm : Timers) : Timers :=
  let tm1 := match periodicBackupTimer tm with
             | Some h => clearInterval h tm
             | None => tm
             end in
  let '(h, tm2) := setInterval PeriodicBackupTick tm1 in
  {| periodicBackupTimer := Some h;
     activeIntervals := activeIntervals tm2;
     nextHandle := nextHandle tm2 |}.

Definition stopPeriodicBackup (tm : Timers) : Timers :=
  match periodicBackupTimer tm with
  | Some h =>
      let tm1 := clearInterval h tm in
      {| periodicBackupTimer := None;
         activeIntervals := activeIntervals tm1;
         nextHandle := nextHandle tm1 |}
  | None => tm
  end.

(** What can happen to the timers: the two exported functions, and an
    interval set elsewhere in the process (the hourly session sweep of
    [main.ts], for one). *)
Inductive TimerStep : Type :=
| StartPeriodic
| StopPeriodic
| SetOther (label : string).

Definition timerStep (tm : Timers) (st : TimerStep) : Timers :=
  match st with
  | StartPeriodic => startPeriodicBackup tm
  | StopPeriodic => stopPeriodicBackup tm
  | SetOther label => snd (setInterval (OtherTick label) tm)
  end.

Definition runTimers (steps : list TimerStep) (tm : Timers) : Timers :=
  fold_left timerStep steps tm.

Definition isPeriodicTick (t : nat * IntervalTask) : bool :=
  match snd t with
  | PeriodicBackupTick => true
  | OtherTick _ => false
  end.

(** What every sequence of timer operations keeps: handles are fresh and
    distinct, and the module's own timer, if it has one, is the only active
    periodic backup timer. *)
Definition timersOk (tm : Timers) : Prop :=
  Forall (fun t => (fst t < nextHandle tm)%nat) (activeIntervals tm) /\
  NoDup (map fst (activeIntervals tm)) /\
  filter isPeriodicTick (activeIntervals tm)
  = match periodicBackupTimer tm with
    | Some h => [(h, PeriodicBackupTick)]
    | None => []
    end.

End Backup.


(* ================================================================== *)
(** ** The authentication module *)

Module Auth.

(** What the module takes from outside.  Of the bcrypt library, the two
    functions it calls: [hash password rounds salt] (the salt is the
    library's random choice) and [compare password hash].  Of the
    JavaScript engine: [s.length], [s.toLowerCase()] and [s.trim()] on
    the engine's strings, which a [string] stands for one to one, and the
    offset of the local time zone, [LocalTZA(t, isUTC)] of the language
    specification. *)
Record Runtime : Type := {
  bcryptHash : string -> Z -> string -> string;
  bcryptCompare : string -> string -> bool;
  jsLength : string -> nat;
  jsToLowerCase : string -> string;
  jsTrim : string -> string;
  localTZA : Z -> bool -> Z
  }.

(** A password verifies against every hash made from it. *)
Definition BcryptAccepts (B : Runtime) : Prop :=
  forall password rounds salt,
    bcryptCompare B password (bcryptHash B password rounds salt) = true.

(** The case mapping leaves a lower-cased, trimmed string as it is. *)
Definition LowerCaseStable (B : Runtime) : Prop :=
  forall s,
    jsToLowerCase B (jsTrim B (jsToLowerCase B s))
    = jsTrim B (jsToLowerCase B s).

(** The engine's strings are strings of code units below 256, with the
    functions of [JsString]. *)
Definition Latin1Strings (B : Runtime) : Prop :=
  forall s,
    jsLength B s = String.length s /\
    jsToLowerCase B s = toLowerCase s /\
    jsTrim B s = trim s.

(** [LocalTime] and [UTC] of the language specification. *)
Definition LocalTime (B : Runtime) (t : Z) : Z := t + localTZA B t true.
Definition UTC (B : Runtime) (t : Z) : Z := t - localTZA B t false.

(** [d.setDate(d.getDate() + n)] on the time value [t]: the date is
    set in local time.  [MakeDay] of the year, the month and the day of
    the month plus [n] is the day number of the local time plus [n]. *)
Definition setDateAfter (B : Runtime) (n t : Z) : Z :=
  UTC B (MakeDate (Day (LocalTime B t) + n) (TimeWithinDay (LocalTime B t))).

Definition SALT_ROUNDS : Z := 12.

(** Rows of [auth_user] and [auth_sessions].  [expires_at] holds the
    time value whose ISO rendering is the stored text. *)
Record UserRow : Type := {
  u_id : Z;
  u_username : string;
  u_password_hash : string;
  u_created_at : string;
  u_last_login : option string
  }.

Record SessionRow : Type := {
  s_id : string;
  s_user_id : Z;
  s_created_at : string;
  s_expires_at : Z
  }.

Record DB : Type := {
  auth_user : list UserRow;
  auth_sessions : list SessionRow
  }.

Record AuthUser : Type := {
  id : Z;
  username : string;
  created_at : string;
  last_login : option string
  }.

Record SetupData : Type := { setupUsername : string; setupPassword : string }.

Record LoginData : Type := {
  loginUsername : string;
  loginPassword : string;
  rememberMe : bool
  }.

Record LoginResult : Type := {
  l_success : bool;
  l_message : string;
  sessionToken : option string;
  user : option AuthUser
  }.

Record ChangePasswordData : Type := {
  currentPassword : string;
  newPassword : string
  }.

Record SessionCheck : Type := { valid : bool; sessionUser : option AuthUser }.

(** The tables right after their creation. *)
Definition emptyDB : DB := {| auth_user := []; auth_sessions := [] |}.

(** [initDatabase]: CREATE TABLE IF NOT EXISTS keeps what exists. *)
Definition initDatabase (stored : option DB) : DB :=
  match stored with
  | Some db => db
  | None => emptyDB
  end.

(** *** The SQL statements.  A text bound to a statement is read back as
    it was written. *)

(** SELECT ... FROM auth_user WHERE id = 1 *)
Definition selectUser1 (db : DB) : option UserRow :=
  find (fun u => u_id u =? 1) (auth_user db).

(** INSERT INTO auth_user, under CHECK (id = 1), the primary key and
    UNIQUE (username); a violated constraint throws. *)
Definition insertUser (row : UserRow) (db : DB) : string + DB :=
  if negb (u_id row =? 1) then inl "CHECK constraint failed: id = 1"
  else if existsb (fun u => u_id u =? u_id row) (auth_user db)
  then inl "UNIQUE constraint failed: auth_user.id"
  else if existsb (fun u => String.eqb (u_username u) (u_username row))
                  (auth_user db)
  then inl "UNIQUE constraint failed: auth_user.username"
  else inr {| auth_user := auth_user db ++ [row];
              auth_sessions := auth_sessions db |}.

(** UPDATE auth_user SET last_login = datetime('now') WHERE id = 1 *)
Definition updateLastLogin (now : Z) (db : DB) : DB :=
  {| auth_user :=
       map (fun u => if u_id u =? 1
                     then {| u_id := u_id u; u_username := u_username u;
                             u_password_hash := u_password_hash u;
                             u_created_at := u_created_at u;
                             u_last_login := Some (sqlDatetime now) |}
                     else u) (auth_user db);
     auth_sessions := auth_sessions db |}.

(** UPDATE auth_user SET password_hash = ? WHERE id = 1 *)
Definition updatePasswordHash (h : string) (db : DB) : DB :=
  {| auth_user :=
       map (fun u => if u_id u =? 1
                     then {| u_id := u_id u; u_username := u_username u;
                             u_password_hash := h;
                             u_created_at := u_created_at u;
                             u_last_login := u_last_login u |}
                     else u) (auth_user db);
     auth_sessions := auth_sessions db |}.

(** DELETE FROM auth_sessions WHERE user_id = 1 *)
Definition deleteSessionsOfUser1 (db : DB) : DB :=
  {| auth_user := auth_user db;
     auth_sessions := filter (fun s => negb (s_user_id s =? 1))
                             (auth_sessions db) |}.

(** DELETE FROM auth_sessions WHERE id = ? *)
Definition deleteSession (token : string) (db : DB) : DB :=
  {| auth_user := auth_user db;
     auth_sessions := filter (fun s => negb (String.eqb (s_id s) token))
                             (auth_sessions db) |}.

(** INSERT INTO auth_sessions, under the primary key and the foreign
    key on [user_id] (the connection sets foreign_keys = ON). *)
Definition insertSession (row : SessionRow) (db : DB) : string + DB :=
  if existsb (fun s => String.eqb (s_id s) (s_id row)) (auth_sessions db)
  then inl "UNIQUE constraint failed: auth_sessions.id"
  else if negb (existsb (fun u => u_id u =? s_user_id row) (auth_user db))
  then inl "FOREIGN KEY constraint failed"
  else inr {| auth_user := auth_user db;
              auth_sessions := auth_sessions db ++ [row] |}.

(** SELECT ... FROM auth_sessions s JOIN auth_user u
    ON s.user_id = u.id WHERE s.id = ?, first row. *)
Definition selectSession (token : string) (db : DB)
    : option (SessionRow * UserRow) :=
  hd_error
    (flat_map
       (fun s =>
          if String.eqb (s_id s) token
          then map (fun u => (s, u))
                   (filter (fun u => u_id u =? s_user_id s) (auth_user db))
          else [])
       (auth_sessions db)).

(** DELETE FROM auth_sessions WHERE expires_at < datetime('now'): a
    comparison of the two stored texts. *)
Definition deleteExpiredSessions (now : Z) (db : DB) : DB :=
  {| auth_user := auth_user db;
     auth_sessions :=
       filter (fun s => negb (String.ltb (toISOString (s_expires_at s))
                                         (sqlDatetime now)))
              (auth_sessions db) |}.

(** The user row after an accepted login at [now], and the identity
    returned for a row. *)
Definition loggedInRow (now : Z) (usr : UserRow) : UserRow :=
  {| u_id := u_id usr; u_username := u_username usr;
     u_password_hash := u_password_hash usr;
     u_created_at := u_created_at usr;
     u_last_login := Some (sqlDatetime now) |}.

Definition identityOf (usr : UserRow) : AuthUser :=
  {| id := u_id usr; username := u_username usr;
     created_at := u_created_at usr; last_login := u_last_login usr |}.

(** The schema's constraints as a property of a database state. *)
Definition db_wf (db : DB) : Prop :=
  (List.length (auth_user db) <= 1)%nat /\
  Forall (fun u => u_id u = 1) (auth_user db) /\
  NoDup (map s_id (auth_sessions db)) /\
  Forall (fun s => existsb (fun u => u_id u =? s_user_id s) (auth_user db)
                   = true) (auth_sessions db).

Section WithEnvironment.

Variable B : Runtime.
Variable cfg : AppConfigT.

(** *** The exported functions.  [now] is the clock during the call,
    [salt] and [uuid] the random choices of bcrypt and uuidv4. *)

Definition isSetupComplete (db : DB) : bool :=
  match selectUser1 db with
  | Some _ => true
  | None => false
  end.

(** [createUser] up to [await bcrypt.hash]: the rejections. *)
Definition createUserChecks (data : SetupData) (db : DB) : option ApiResult :=
  if isSetupComplete db
  then Some {| success := false; message := "User already exists" |}
  else if (jsLength B (setupUsername data) <? 3)%nat
  then Some {| success := false;
               message := "Username must be at least 3 characters" |}
  else if (jsLength B (setupPassword data) <? 6)%nat
  then Some {| success := false;
               message := "Password must be at least 6 characters" |}
  else None.

(** [createUser] from the resolved hash on: the INSERT. *)
Definition createUserInsert (now : Z) (salt : string) (data : SetupData)
    (db : DB) : ApiResult * DB :=
  let passwordHash := bcryptHash B (setupPassword data) SALT_ROUNDS salt in
  match insertUser {| u_id := 1;
                      u_username :=
                        jsTrim B (jsToLowerCase B (setupUsername data));
                      u_password_hash := passwordHash;
                      u_created_at := sqlDatetime now;
                      u_last_login := None |} db with
  | inl err => ({| success := false;
                   message := "Failed to create account: " ++ err |}, db)
  | inr db' => ({| success := true;
                   message := "Account created successfully" |}, db')
  end.

Definition createUser (now : Z) (salt : string) (data : SetupData)
    (db : DB) : ApiResult * DB :=
  match createUserChecks data db with
  | Some r => (r, db)
  | None => createUserInsert now salt data db
  end.

Definition loginFailure (msg : string) : LoginResult :=
  {| l_success := false; l_message := msg;
     sessionToken := None; user := None |}.

(** [login] from the resolved [bcrypt.compare] on; [usr] is the row
    read before the await. *)
Definition loginAfterCompare (now : Z) (uuid : string) (data : LoginData)
    (usr : UserRow) (isValidPassword : bool) (db : DB) : LoginResult * DB :=
  if negb isValidPassword then (loginFailure "Invalid password", db)
  else if negb (String.eqb
                  (jsToLowerCase B (u_username usr))
                  (jsTrim B (jsToLowerCase B (loginUsername data))))
  then (loginFailure "Invalid username", db)
  else
    let db1 := updateLastLogin now db in
    let identity := {| id := u_id usr; username := u_username usr;
                       created_at := u_created_at usr;
                       last_login := u_last_login usr |} in
    if rememberMe data && rememberMeEnabled cfg then
      let expiresAt := setDateAfter B (sessionExpiryDays cfg) now in
      let db2 := deleteSessionsOfUser1 db1 in
      match insertSession {| s_id := uuid; s_user_id := 1;
                             s_created_at := sqlDatetime now;
                             s_expires_at := expiresAt |} db2 with
      | inl err => (loginFailure ("Login failed: " ++ err), db2)
      | inr db3 => ({| l_success := true; l_message := "Login successful";
                       sessionToken := Some uuid;
                       user := Some identity |}, db3)
      end
    else ({| l_success := true; l_message := "Login successful";
             sessionToken := None; user := Some identity |}, db1).

Definition login (now : Z) (uuid : string) (data : LoginData) (db : DB)
    : LoginResult * DB :=
  match selectUser1 db with
  | None => (loginFailure
               "No account exists. Please set up your account first.", db)
  | Some usr =>
      loginAfterCompare now uuid data usr
        (bcryptCompare B (loginPassword data) (u_password_hash usr)) db
  end.

(** [logout]; an absent or empty token is falsy. *)
Definition logout (token : option string) (db : DB) : ApiResult * DB :=
  ({| success := true; message := "Logged out successfully" |},
   match token with
   | None | Some EmptyString => db
   | Some t => deleteSession t db
   end).

Definition validateSession (now : Z) (token : string) (db : DB)
    : SessionCheck * DB :=
  match selectSession token db with
  | None => ({| valid := false; sessionUser := None |}, db)
  | Some (s, u) =>
      if s_expires_at s <? now
      then ({| valid := false; sessionUser := None |},
            deleteSession token db)
      else ({| valid := true;
               sessionUser := Some {| id := u_id u;
                                      username := u_username u;
                                      created_at := u_created_at u;
                                      last_login := u_last_login u |} |},
            db)
  end.

(** [changePassword] from the resolved [bcrypt.hash] on. *)
Definition changePasswordApply (salt : string) (data : ChangePasswordData)
    (db : DB) : ApiResult * DB :=
  let newPasswordHash := bcryptHash B (newPassword data) SALT_ROUNDS salt in
  ({| success := true; message := "Password changed successfully" |},
   deleteSessionsOfUser1 (updatePasswordHash newPasswordHash db)).

Definition changePassword (salt : string) (data : ChangePasswordData)
    (db : DB) : ApiResult * DB :=
  match selectUser1 db with
  | None => ({| success := false; message := "No account exists" |}, db)
  | Some usr =>
      if negb (bcryptCompare B (currentPassword data) (u_password_hash usr))
      then ({| success := false;
               message := "Current password is incorrect" |}, db)
      else if (jsLength B (newPassword data) <? 6)%nat
      then ({| success := false;
               message := "New password must be at least 6 characters" |},
            db)
      else changePasswordApply salt data db
  end.

Definition cleanupExpiredSessions (now : Z) (db : DB) : DB :=
  deleteExpiredSessions now db.

(** *** Sequences of operations.  A call runs without interruption
    except at its awaits; the [Resume] steps are the parts of the
    asynchronous functions that run after an await, with whatever
    the call had read before it. *)
Inductive Step : Type :=
  | CallCreateUser (now : Z) (salt : string) (data : SetupData)
  | ResumeCreateUser (now : Z) (salt : string) (data : SetupData)
  | CallLogin (now : Z) (uuid : string) (data : LoginData)
  | ResumeLogin (now : Z) (uuid : string) (data : LoginData)
              (usr : UserRow) (isValidPassword : bool)
  | CallLogout (token : option string)
  | CallValidateSession (now : Z) (token : string)
  | CallChangePassword (salt : string) (data : ChangePasswordData)
  | ResumeChangePassword (salt : string) (data : ChangePasswordData)
  | CallCleanupExpiredSessions (now : Z).

Definition step (db : DB) (st : Step) : DB :=
  match st with
  | CallCreateUser now salt data => snd (createUser now salt data db)
  | ResumeCreateUser now salt data => snd (createUserInsert now salt data db)
  | CallLogin now uuid data => snd (login now uuid data db)
  | ResumeLogin now uuid data usr ok =>
      snd (loginAfterCompare now uuid data usr ok db)
  | CallLogout token => snd (logout token db)
  | CallValidateSession now token => snd (validateSession now token db)
  | CallChangePassword salt data => snd (changePassword salt data db)
  | ResumeChangePassword salt data => snd (changePasswordApply salt data db)
  | CallCleanupExpiredSessions now => cleanupExpiredSessions now db
  end.

Definition run (steps : list Step) (db : DB) : DB := fold_left step steps db.

End WithEnvironment.

(** A runtime for closed examples, in the time zone [tza]: the hash
    records the password, the cost and the salt, and the strings are
    strings of code units below 256. *)
Definition runtimeIn (tza : Z -> bool -> Z) : Runtime := {|
  bcryptHash := fun password rounds salt =>
    password ++ "$2a$" ++ pad 2 rounds ++ "$" ++ salt;
  bcryptCompare := fun password h => String.prefix (password ++ "$") h;
  jsLength := String.length;
  jsToLowerCase := toLowerCase;
  jsTrim := trim;
  localTZA := tza
  |}.

(** The same in the time zone UTC. *)
Definition exampleRuntime : Runtime := runtimeIn (fun _ _ => 0).

End Auth.

(* ================================================================== *)
(** ** The items module and the database handle *)

Module Items.

(** Rows of [items] and [categories].  Quantities are whole numbers. *)
Record ItemRow : Type := {
  i_id : string;
  i_name : string;
  i_description : option string;
  i_category_id : option string;
  i_quantity : Z;
  i_status : string;
  i_created_at : string;
  i_updated_at : string
}.

Record CategoryRow : Type := {
  c_id : string;
  c_name : string;
  c_created_at : string
}.

Record Store : Type := {
  items : list ItemRow;
  categories : list CategoryRow
}.

(** An item as the queries return it: the row and the joined
    [category_name]. *)
Record Item : Type := { row : ItemRow; category_name : option string }.

(** [CreateItemData] and [UpdateItemData]; [None] is an absent field. *)
Record CreateItemData : Type := {
  new_name : string;
  new_description : option string;
  new_category_id : option string;
  new_quantity : option Z;
  new_status : option string
}.

Record UpdateItemData : Type := {
  upd_id : string;
  upd_name : option string;
  upd_description : option string;
  upd_category_id : option string;
  upd_quantity : option Z;
  upd_status : option string
}.

Record ItemResult : Type := {
  ir_success : bool;
  ir_message : string;
  ir_item : option Item
}.

Record CategoryResult : Type := {
  cr_success : bool;
  cr_message : string;
  cr_category : option CategoryRow
}.

Record DashboardStats : Type := {
  totalItems : nat;
  activeItems : nat;
  inactiveItems : nat;
  totalCategories : nat
}.

(** [x || null] and [x || 'active'] on an optional string, [x || 0] on an
    optional number: absent, empty and zero are falsy. *)
Definition orNull (x : option string) : option string :=
  match x with
  | Some EmptyString | None => None
  | Some s => Some s
  end.

Definition orDefault (x : option string) (d : string) : string :=
  match x with
  | Some EmptyString | None => d
  | Some s => s
  end.

Definition orZero (x : option Z) : Z :=
  match x with
  | Some q => q
  | None => 0
  end.

(** [s.includes(sub)]. *)
Fixpoint includes (s sub : string) : bool :=
  String.prefix sub s ||
  match s with
  | EmptyString => false
  | String _ r => includes r sub
  end.

(** The decimal text of a count in a template literal. *)
Definition countText (n : nat) : string :=
  DecimalString.NilEmpty.string_of_uint (Nat.to_uint n).

(** *** The constraints of the two tables *)

Definition statusOk (s : string) : bool :=
  String.eqb s "active" || String.eqb s "inactive".

Definition categoryExists (st : Store) (c : option string) : bool :=
  match c with
  | None => true
  | Some cid => existsb (fun k => String.eqb (c_id k) cid) (categories st)
  end.

(** The error a row raises against CHECK and the foreign key, if any. *)
Definition rowViolation (st : Store) (r : ItemRow) : option string :=
  if negb (statusOk (i_status r))
  then Some "CHECK constraint failed: status IN ('active', 'inactive')"
  else if negb (categoryExists st (i_category_id r))
  then Some "FOREIGN KEY constraint failed"
  else None.

(** INSERT INTO items *)
Definition insertItem (r : ItemRow) (st : Store) : string + Store :=
  if negb (statusOk (i_status r))
  then inl "CHECK constraint failed: status IN ('active', 'inactive')"
  else if existsb (fun x => String.eqb (i_id x) (i_id r)) (items st)
  then inl "UNIQUE constraint failed: items.id"
  else if negb (categoryExists st (i_category_id r))
  then inl "FOREIGN KEY constraint failed"
  else inr {| items := items st ++ [r]; categories := categories st |}.

(** INSERT INTO categories *)
Definition insertCategory (c : CategoryRow) (st : Store) : string + Store :=
  if existsb (fun k => String.eqb (c_id k) (c_id c)) (categories st)
  then inl "UNIQUE constraint failed: categories.id"
  else if existsb (fun k => String.eqb (c_name k) (c_name c)) (categories st)
  then inl "UNIQUE constraint failed: categories.name"
  else inr {| items := items st; categories := categories st ++ [c] |}.

(** What the schema guarantees of a stored state. *)
Definition storeOk (st : Store) : Prop :=
  NoDup (map i_id (items st)) /\
  NoDup (map c_id (categories st)) /\
  NoDup (map c_name (categories st)) /\
  Forall (fun r => statusOk (i_status r) = true /\
                   categoryExists st (i_category_id r) = true) (items st).

(** The same as a test that can be run. *)
Fixpoint distinct (l : list string) : bool :=
  match l with
  | [] => true
  | x :: r => negb (existsb (String.eqb x) r) && distinct r
  end.

Definition storeOkb (st : Store) : bool :=
  distinct (map i_id (items st)) &&
  distinct (map c_id (categories st)) &&
  distinct (map c_name (categories st)) &&
  forallb (fun r => statusOk (i_status r) &&
                    categoryExists st (i_category_id r)) (items st).

(** The categories [initDatabase] inserts into an empty table. *)
Definition defaultCategories (now : Z) : list CategoryRow :=
  [ {| c_id := "cat-1"; c_name := "General"; c_created_at := sqlDatetime now |};
    {| c_id := "cat-2"; c_name := "Electronics";
       c_created_at := sqlDatetime now |};
    {| c_id := "cat-3"; c_name := "Office Supplies";
       c_created_at := sqlDatetime now |} ].

(** [initDatabase] on the two tables: they are created when absent, and
    the default categories are inserted whenever [categories] is empty. *)
Definition initDatabase (now : Z) (stored : option Store) : Store :=
  let st := match stored with
            | Some st => st
            | None => {| items := []; categories := [] |}
            end in
  match categories st with
  | [] => {| items := items st; categories := defaultCategories now |}
  | _ :: _ => st
  end.

(** *** The handlers.  [now] is the clock during the call, [uuid] the
    value of [uuidv4()]. *)

Definition getItemById (id : string) (st : Store) : option Item :=
  match find (fun r => String.eqb (i_id r) id) (items st) with
  | None => None
  | Some r =>
      Some {| row := r;
              category_name :=
                match i_category_id r with
                | None => None
                | Some cid =>
                    option_map c_name
                      (find (fun k => String.eqb (c_id k) cid) (categories st))
                end |}
  end.

Definition createItem (now : Z) (uuid : string) (data : CreateItemData)
    (st : Store) : ItemResult * Store :=
  match insertItem {| i_id := uuid;
                      i_name := new_name data;
                      i_description := orNull (new_description data);
                      i_category_id := orNull (new_category_id data);
                      i_quantity := orZero (new_quantity data);
                      i_status := orDefault (new_status data) "active";
                      i_created_at := sqlDatetime now;
                      i_updated_at := sqlDatetime now |} st with
  | inl err => ({| ir_success := false;
                   ir_message := "Failed to create item: " ++ err;
                   ir_item := None |}, st)
  | inr st' => ({| ir_success := true;
                   ir_message := "Item created successfully";
                   ir_item := getItemById uuid st' |}, st')
  end.

(** Whether [updateItem] was given a field to set. *)
Definition hasUpdates (data : UpdateItemData) : bool :=
  match upd_name data, upd_description data, upd_category_id data,
        upd_quantity data, upd_status data with
  | None, None, None, None, None => false
  | _, _, _, _, _ => true
  end.

(** The row after the UPDATE built from the given fields. *)
Definition updatedRow (now : Z) (data : UpdateItemData) (r : ItemRow)
    : ItemRow :=
  {| i_id := i_id r;
     i_name := match upd_name data with Some n => n | None => i_name r end;
     i_description := match upd_description data with
                      | Some d => Some d
                      | None => i_description r
                      end;
     i_category_id := match upd_category_id data with
                      | Some c => orNull (Some c)
                      | None => i_category_id r
                      end;
     i_quantity := match upd_quantity data with
                   | Some q => q
                   | None => i_quantity r
                   end;
     i_status := match upd_status data with
                 | Some s => s
                 | None => i_status r
                 end;
     i_created_at := i_created_at r;
     i_updated_at := sqlDatetime now |}.

Definition updateItem (now : Z) (data : UpdateItemData) (st : Store)
    : ItemResult * Store :=
  if negb (hasUpdates data)
  then ({| ir_success := false; ir_message := "No fields to update";
           ir_item := None |}, st)
  else
    let hit := filter (fun r => String.eqb (i_id r) (upd_id data)) (items st) in
    match find (fun r => match rowViolation st (updatedRow now data r) with
                         | Some _ => true
                         | None => false
                         end) hit with
    | Some bad =>
        ({| ir_success := false;
            ir_message :=
              "Failed to update item: " ++
              match rowViolation st (updatedRow now data bad) with
              | Some err => err
              | None => "Unknown error"
              end;
            ir_item := None |}, st)
    | None =>
        match hit with
        | [] => ({| ir_success := false; ir_message := "Item not found";
                    ir_item := None |}, st)
        | _ :: _ =>
            let st' := {| items := map (fun r =>
                                          if String.eqb (i_id r) (upd_id data)
                                          then updatedRow now data r else r)
                                       (items st);
                          categories := categories st |} in
            ({| ir_success := true; ir_message := "Item updated successfully";
                ir_item := getItemById (upd_id data) st' |}, st')
        end
    end.

Definition deleteItem (id : string) (st : Store) : ApiResult * Store :=
  match filter (fun r => String.eqb (i_id r) id) (items st) with
  | [] => ({| success := false; message := "Item not found" |}, st)
  | _ :: _ =>
      ({| success := true; message := "Item deleted successfully" |},
       {| items := filter (fun r => negb (String.eqb (i_id r) id)) (items st);
          categories := categories st |})
  end.

Definition createCategory (now : Z) (uuid : string) (name : string)
    (st : Store) : CategoryResult * Store :=
  match insertCategory {| c_id := uuid; c_name := trim name;
                          c_created_at := sqlDatetime now |} st with
  | inl err =>
      ({| cr_success := false;
          cr_message := if includes err "UNIQUE"
                        then "Category already exists"
                        else "Failed to create category: " ++ err;
          cr_category := None |}, st)
  | inr st' =>
      ({| cr_success := true; cr_message := "Category created successfully";
          cr_category := find (fun k => String.eqb (c_id k) uuid)
                              (categories st') |}, st')
  end.

Definition deleteCategory (id : string) (st : Store) : ApiResult * Store :=
  let itemCount :=
    List.length (filter (fun r => match i_category_id r with
                                  | Some c => String.eqb c id
                                  | None => false
                                  end) (items st)) in
  if (0 <? itemCount)%nat
  then ({| success := false;
           message := "Cannot delete category. " ++ countText itemCount ++
                      " items are using this category." |}, st)
  else
    match filter (fun k => String.eqb (c_id k) id) (categories st) with
    | [] => ({| success := false; message := "Category not found" |}, st)
    | _ :: _ =>
        ({| success := true; message := "Category deleted successfully" |},
         {| items := items st;
            categories := filter (fun k => negb (String.eqb (c_id k) id))
                                 (categories st) |})
    end.

Definition getDashboardStats (st : Store) : DashboardStats :=
  {| totalItems := List.length (items st);
     activeItems :=
       List.length (filter (fun r => String.eqb (i_status r) "active")
                           (items st));
     inactiveItems :=
       List.length (filter (fun r => String.eqb (i_status r) "inactive")
                           (items st));
     totalCategories := List.length (categories st) |}.

(** Sequences of calls of the handlers that write. *)
Inductive Call : Type :=
| CreateItem (now : Z) (uuid : string) (data : CreateItemData)
| UpdateItem (now : Z) (data : UpdateItemData)
| DeleteItem (id : string)
| CreateCategory (now : Z) (uuid : string) (name : string)
| DeleteCategory (id : string)
| Restart (now : Z).

Definition call (st : Store) (c : Call) : Store :=
  match c with
  | CreateItem now uuid data => snd (createItem now uuid data st)
  | UpdateItem now data => snd (updateItem now data st)
  | DeleteItem id => snd (deleteItem id st)
  | CreateCategory now uuid name => snd (createCategory now uuid name st)
  | DeleteCategory id => snd (deleteCategory id st)
  | Restart now => initDatabase now (Some st)
  end.

Definition runCalls (calls : list Call) (st : Store) : Store :=
  fold_left call calls st.

End Items.

(** *** The database handle ([db.ts]): the module keeps one connection and
    opens it on first use. *)
Module Db.

Record Handles : Type := {
  db : option nat;
  openConnections : list nat;
  nextConnection : nat
}.

Definition unloaded : Handles :=
  {| db := None; openConnections := []; nextConnection := 0 |}.

(** [getDatabase]: the connection, opened if there is none. *)
Definition getDatabase (h : Handles) : nat * Handles :=
  match db h with
  | Some c => (c, h)
  | None =>
      (nextConnection h,
       {| db := Some (nextConnection h);
          openConnections := openConnections h ++ [nextConnection h];
          nextConnection := S (nextConnection h) |})
  end.

(** [closeDatabase]. *)
Definition closeDatabase (h : Handles) : Handles :=
  match db h with
  | Some c =>
      {| db := None;
         openConnections := filter (fun x => negb (Nat.eqb x c))
                                   (openConnections h);
         nextConnection := nextConnection h |}
  | None => h
  end.

Inductive Use : Type := Get | Close.

Definition use (h : Handles) (u : Use) : Handles :=
  match u with
  | Get => snd (getDatabase h)
  | Close => closeDatabase h
  end.

Definition runUses (us : list Use) (h : Handles) : Handles := fold_left use us h.

End Db.

(* ================================================================== *)
(** ** Concrete states for the closed examples *)

Module Examples.

Definition userData : string := "/home/user/.config/my-business-app".

Definition store : Backup.File :=
  {| Backup.content := "SQLite format 3"; Backup.mtime := 1705300000000 |}.

(** A first launch: the database exists, the backup directory does
    not. *)
Definition freshFS : Backup.FS :=
  {| Backup.dbFile := Some store; Backup.backupDir := None;
     Backup.otherFiles := [] |}.

(** The database file after the application has written to it. *)
Definition laterStore : Backup.File :=
  {| Backup.content := "SQLite format 3, one row more";
     Backup.mtime := 1705314645500 |}.

(** The shipped configuration with [maxBackups] set to [k]. *)
Definition keeping (k : Z) : AppConfigT :=
  {| databaseName := databaseName AppConfig;
     backupPrefix := backupPrefix AppConfig;
     maxBackups := k;
     periodicIntervalHours := periodicIntervalHours AppConfig;
     startupThresholdHours := startupThresholdHours AppConfig;
     sessionExpiryDays := sessionExpiryDays AppConfig;
     rememberMeEnabled := rememberMeEnabled AppConfig |}.

(** 2024-01-15T10:30:45.123Z *)
Definition t0 : Z := 1705314645123.

(** The file system after a [createBackup] whose clock reads [t]
    throughout. *)
Definition backupAt (cfg : AppConfigT) (t : Z) (fs : Backup.FS) : Backup.FS :=
  snd (Backup.createBackup cfg userData t t t None fs).

(** A backup directory with two snapshots and two other files. *)
Definition mixedFS : Backup.FS :=
  {| Backup.dbFile := Some store;
     Backup.backupDir := Some
       [ ("notes.txt", {| Backup.content := "n"; Backup.mtime := 5 |});
         ("app-backup_2024-01-14_09.db",
          {| Backup.content := "a"; Backup.mtime := 10 |});
         ("app-backup_old.db.bak",
          {| Backup.content := "b"; Backup.mtime := 1 |});
         ("app-backup_2024-01-15_10.db",
          {| Backup.content := "c"; Backup.mtime := 20 |}) ];
     Backup.otherFiles := [] |}.

(** The zone America/New_York in 2024: five hours behind UTC, and four
    from 10 March 07:00 UTC to 3 November 06:00 UTC.  A local time that
    occurs twice or not at all is read with the offset before the
    change. *)
Definition newYork (t : Z) (isUTC : bool) : Z :=
  if isUTC
  then if (1710054000000 <=? t) && (t <? 1730613600000)
       then -4 * msPerHour else -5 * msPerHour
  else if (1710039600000 <=? t) && (t <? 1730599200000)
       then -4 * msPerHour else -5 * msPerHour.

Definition newYorkRuntime : Auth.Runtime := Auth.runtimeIn newYork.

(** 2024-03-01T12:00:00.000Z *)
Definition march1 : Z := 1709294400000.

(** A provisioned database, and the same after a remember-me login. *)
Definition aliceSetup : Auth.SetupData :=
  {| Auth.setupUsername := "alice"; Auth.setupPassword := "secret1" |}.

Definition provisionedDB : Auth.DB :=
  snd (Auth.createUser Auth.exampleRuntime t0 "c2FsdA" aliceSetup Auth.emptyDB).

Definition rememberedDB : Auth.DB :=
  snd (Auth.login Auth.exampleRuntime AppConfig (t0 + 5000) "token-1"
         {| Auth.loginUsername := "ALICE "; Auth.loginPassword := "secret1";
            Auth.rememberMe := true |} provisionedDB).

(** The store of a first launch, and the same with one item. *)
Definition shop : Items.Store := Items.initDatabase t0 None.

Definition lampData : Items.CreateItemData :=
  {| Items.new_name := "Desk lamp"; Items.new_description := Some "";
     Items.new_category_id := Some "cat-2"; Items.new_quantity := None;
     Items.new_status := None |}.

Definition stockedShop : Items.Store :=
  snd (Items.createItem (t0 + 1000) "item-1" lampData shop).

(** The expiry of the session of [rememberedDB]. *)
Definition expiry : Z := t0 + 5000 + 30 * msPerDay.

End Examples.

(* ================================================================== *)
(** ** Facts about the string primitives and the ISO rendering *)

Example toISOString_epoch : toISOString 0 = "1970-01-01T00:00:00.000Z".
Proof. reflexivity. Qed.

Example toISOString_2024 :
  toISOString 1705314645123 = "2024-01-15T10:30:45.123Z".
Proof. vm_compute. reflexivity. Qed.

Example toISOString_leap :
  toISOString 1709251199999 = "2024-02-29T23:59:59.999Z".
Proof. vm_compute. reflexivity. Qed.

Example toISOString_before_epoch :
  toISOString (-1) = "1969-12-31T23:59:59.999Z".
Proof. vm_compute. reflexivity. Qed.

Example sqlDatetime_2024 : sqlDatetime 1705314645123 = "2024-01-15 10:30:45".
Proof. vm_compute. reflexivity. Qed.

Example split_clock :
  split "-" (replaceColonDot "10:30:45.123Z") = ["10"; "30"; "45"; "123Z"].
Proof. reflexivity. Qed.

(** U+00C0 is lower-cased to U+00E0, the multiplication sign U+00D7 stays,
    and the no-break space U+00A0 is trimmed. *)
Example toLowerCase_above_127 :
  toLowerCase (String (ascii_of_nat 192) (String (ascii_of_nat 215) "LICE"))
  = String (ascii_of_nat 224) (String (ascii_of_nat 215) "lice") /\
  trim (String (ascii_of_nat 160) ("alice" ++ String (ascii_of_nat 160) " "))
  = "alice".
Proof. vm_compute. split; reflexivity. Qed.

Example trim_lower : trim (toLowerCase "  ALice ") = "alice".
Proof. reflexivity. Qed.

Section StringFacts.

Lemma allChars_app P a b :
  allChars P (a ++ b) = allChars P a && allChars P b.
Proof.
  induction a as [|c a IH]; simpl; [reflexivity|].
  rewrite IH. now rewrite andb_assoc.
Qed.

Lemma allChars_weaken (P Q : ascii -> bool) s :
  (forall c, P c = true -> Q c = true) ->
  allChars P s = true -> allChars Q s = true.
Proof.
  intros HPQ. induction s as [|c s IH]; simpl; [reflexivity|].
  intros H. apply andb_true_iff in H as [H1 H2].
  rewrite (HPQ _ H1), (IH H2). reflexivity.
Qed.

Lemma replaceColonDot_app a b :
  replaceColonDot (a ++ b) = replaceColonDot a ++ replaceColonDot b.
Proof. induction a as [|c a IH]; simpl; [reflexivity|]. now rewrite IH. Qed.

Lemma replaceColonDot_fixed s :
  allChars (fun c => Ascii.eqb (dashChar c) c) s = true ->
  replaceColonDot s = s.
Proof.
  induction s as [|c s IH]; simpl; [reflexivity|].
  intros H. apply andb_true_iff in H as [H1 H2].
  apply Ascii.eqb_eq in H1. now rewrite H1, (IH H2).
Qed.

Lemma occurs_none sep s :
  allChars (fun c => negb (Ascii.eqb c sep)) s = true -> occurs sep s = false.
Proof.
  induction s as [|c s IH]; simpl; [reflexivity|].
  intros H. apply andb_true_iff in H as [H1 H2].
  apply negb_true_iff in H1. now rewrite H1, (IH H2).
Qed.

Lemma split_nonempty sep s : split sep s <> [].
Proof.
  destruct s as [|c s]; simpl; [discriminate|].
  destruct (Ascii.eqb c sep); [discriminate|].
  destruct (split sep s); discriminate.
Qed.

Lemma split_no_sep sep s : occurs sep s = false -> split sep s = [s].
Proof.
  induction s as [|c s IH]; simpl; [reflexivity|].
  intros H. apply orb_false_iff in H as [H1 H2].
  rewrite H1, (IH H2). reflexivity.
Qed.

Lemma split_at_first sep a b :
  occurs sep a = false ->
  split sep (a ++ String sep b) = a :: split sep b.
Proof.
  induction a as [|c a IH]; simpl.
  - intros _. now rewrite Ascii.eqb_refl.
  - intros H. apply orb_false_iff in H as [H1 H2].
    rewrite H1, (IH H2). reflexivity.
Qed.

Lemma append_assoc (a b c : string) : (a ++ b) ++ c = a ++ (b ++ c).
Proof. induction a as [|x a IH]; simpl; [reflexivity|]. now rewrite IH. Qed.

Lemma prefix_append p s : String.prefix p (p ++ s) = true.
Proof.
  induction p as [|c p IH]; simpl.
  - now destruct s.
  - destruct (ascii_dec c c) as [_|n]; [exact IH | now elim n].
Qed.

Lemma length_append (a b : string) :
  String.length (a ++ b) = (String.length a + String.length b)%nat.
Proof. induction a as [|c a IH]; simpl; [reflexivity|]. now rewrite IH. Qed.

Lemma substring_drop a b :
  substring (String.length a) (String.length b) (a ++ b) = b.
Proof.
  induction a as [|c a IH]; simpl.
  - induction b as [|d b IHb]; simpl; [reflexivity|]. now rewrite IHb.
  - exact IH.
Qed.

Lemma endsWith_append a b : endsWith (a ++ b) b = true.
Proof.
  unfold endsWith. rewrite length_append.
  replace (String.length a + String.length b - String.length b)%nat
    with (String.length a) by lia.
  rewrite substring_drop, String.eqb_refl.
  apply andb_true_iff. split; [apply Nat.leb_le; lia | reflexivity].
Qed.

(** *** Digits *)

Lemma digit_isDigit n : isDigit (digit n) = true.
Proof.
  unfold digit.
  assert (H : 0 <= n mod 10 < 10) by (apply Z.mod_pos_bound; lia).
  assert (E : exists k, (k < 10)%nat /\ Z.to_nat (n mod 10) = k)
    by (exists (Z.to_nat (n mod 10)); split; [lia | reflexivity]).
  destruct E as [k [Hk ->]].
  do 10 (destruct k as [|k]; [reflexivity|]). lia.
Qed.

Lemma pad_digits w n : allChars isDigit (pad w n) = true.
Proof.
  revert n. induction w as [|w IH]; intros n; simpl; [reflexivity|].
  rewrite allChars_app, IH. cbn [allChars andb].
  now rewrite digit_isDigit.
Qed.

Lemma isDigit_cases c :
  isDigit c = true ->
  dashChar c = c /\ Ascii.eqb c "T" = false /\ Ascii.eqb c "-" = false.
Proof.
  destruct c as [[] [] [] [] [] [] [] []]; intros H;
    solve [ discriminate H | repeat split ].
Qed.

End StringFacts.

Section IsoFacts.

Lemma dateChar_cases c :
  dateChar c = true -> dashChar c = c /\ Ascii.eqb c "T" = false.
Proof.
  destruct c as [[] [] [] [] [] [] [] []]; intros H;
    solve [ discriminate H | split; reflexivity ].
Qed.

Lemma clockChar_cases c :
  clockChar c = true -> Ascii.eqb (dashChar c) "T" = false.
Proof.
  destruct c as [[] [] [] [] [] [] [] []]; intros H;
    solve [ discriminate H | reflexivity ].
Qed.

Lemma pad_dateChars w n : allChars dateChar (pad w n) = true.
Proof.
  apply allChars_weaken with (P := isDigit); [|apply pad_digits].
  intros c H. unfold dateChar. now rewrite H.
Qed.

Lemma pad_clockChars w n : allChars clockChar (pad w n) = true.
Proof.
  apply allChars_weaken with (P := isDigit); [|apply pad_digits].
  intros c H. unfold clockChar. now rewrite H.
Qed.

Lemma isoYear_dateChars y : allChars dateChar (isoYear y) = true.
Proof.
  unfold isoYear. destruct ((0 <=? y) && (y <=? 9999)).
  - apply pad_dateChars.
  - rewrite allChars_app, pad_dateChars. now destruct (y <? 0).
Qed.

Lemma isoDate_dateChars y m d : allChars dateChar (isoDate y m d) = true.
Proof.
  unfold isoDate.
  rewrite !allChars_app, isoYear_dateChars, !pad_dateChars. reflexivity.
Qed.

Lemma isoClock_clockChars t : allChars clockChar (isoClock t) = true.
Proof.
  unfold isoClock. rewrite !allChars_app, !pad_clockChars. reflexivity.
Qed.

Lemma replaceColonDot_date y m d :
  replaceColonDot (isoDate y m d) = isoDate y m d.
Proof.
  apply replaceColonDot_fixed.
  apply allChars_weaken with (P := dateChar); [|apply isoDate_dateChars].
  intros c H. destruct (dateChar_cases c H) as [-> _]. apply Ascii.eqb_refl.
Qed.

Lemma isoDate_no_T y m d : occurs "T" (isoDate y m d) = false.
Proof.
  apply occurs_none.
  apply allChars_weaken with (P := dateChar); [|apply isoDate_dateChars].
  intros c H. destruct (dateChar_cases c H) as [_ ->]. reflexivity.
Qed.

Lemma replaced_clock_no_T s :
  allChars clockChar s = true -> occurs "T" (replaceColonDot s) = false.
Proof.
  induction s as [|c s IH]; [reflexivity|].
  cbn [allChars replaceColonDot occurs]. intros H.
  apply andb_true_iff in H as [H1 H2].
  now rewrite (clockChar_cases c H1), (IH H2).
Qed.

Lemma replaceColonDot_pad w n : replaceColonDot (pad w n) = pad w n.
Proof.
  apply replaceColonDot_fixed.
  apply allChars_weaken with (P := isDigit); [|apply pad_digits].
  intros c H. destruct (isDigit_cases c H) as [-> _]. apply Ascii.eqb_refl.
Qed.

Lemma pad_no_dash w n : occurs "-" (pad w n) = false.
Proof.
  apply occurs_none.
  apply allChars_weaken with (P := isDigit); [|apply pad_digits].
  intros c H. destruct (isDigit_cases c H) as [_ [_ ->]]. reflexivity.
Qed.

(** The ISO string splits at its 'T' into the date and the clock. *)
Lemma split_T_toISOString now :
  split "T" (replaceColonDot (toISOString now)) =
  [ isoDate (YearFromTime now) (MonthFromTime now) (DateFromTime now);
    replaceColonDot (isoClock now) ].
Proof.
  unfold toISOString.
  rewrite replaceColonDot_app, replaceColonDot_date.
  change (replaceColonDot ("T" ++ isoClock now))
    with (String "T" (replaceColonDot (isoClock now))).
  rewrite split_at_first by apply isoDate_no_T.
  rewrite split_no_sep; [reflexivity|].
  apply replaced_clock_no_T, isoClock_clockChars.
Qed.

(** [timestamp] is the calendar date. *)
Lemma timestampOf_date now :
  Backup.timestampOf now =
  isoDate (YearFromTime now) (MonthFromTime now) (DateFromTime now).
Proof. unfold Backup.timestampOf. now rewrite split_T_toISOString. Qed.

(** [timeStr] is the two digits of the hour, and nothing more. *)
Lemma timeStrOf_hour now :
  Backup.timeStrOf now = Some (pad 2 (HourFromTime now)).
Proof.
  unfold Backup.timeStrOf. rewrite split_T_toISOString.
  cbn [nth_error]. unfold isoClock.
  rewrite replaceColonDot_app, replaceColonDot_pad.
  match goal with
  | |- context [replaceColonDot (":" ++ ?r)] =>
      change (replaceColonDot (":" ++ r))
        with (String "-" (replaceColonDot r))
  end.
  rewrite split_at_first by apply pad_no_dash. reflexivity.
Qed.

End IsoFacts.

(* ================================================================== *)
(** ** Facts about the directory operations *)

Section ListFacts.

Context {A : Type}.

Lemma filter_filter (p q : A -> bool) l :
  filter p (filter q l) = filter (fun x => q x && p x) l.
Proof.
  induction l as [|x l IH]; simpl; [reflexivity|].
  destruct (q x); simpl; [destruct (p x)|]; now rewrite IH.
Qed.

Lemma filter_all (p : A -> bool) l :
  (forall x, In x l -> p x = true) -> filter p l = l.
Proof.
  induction l as [|x l IH]; simpl; intros H; [reflexivity|].
  rewrite (H x (or_introl eq_refl)), IH; [reflexivity|].
  intros y Hy. apply H. now right.
Qed.

Lemma filter_none (p : A -> bool) l :
  (forall x, In x l -> p x = false) -> filter p l = [].
Proof.
  induction l as [|x l IH]; simpl; intros H; [reflexivity|].
  rewrite (H x (or_introl eq_refl)). apply IH.
  intros y Hy. apply H. now right.
Qed.

Lemma filter_perm (p : A -> bool) l l' :
  Permutation l l' -> Permutation (filter p l) (filter p l').
Proof.
  induction 1 as [|x l l' _ IH|x y l|l l' l'' _ IH1 _ IH2]; simpl.
  - constructor.
  - destruct (p x); [now constructor | exact IH].
  - destruct (p x), (p y); try reflexivity. apply perm_swap.
  - now transitivity (filter p l').
Qed.

Lemma filter_length_le (p : A -> bool) l :
  (List.length (filter p l) <= List.length l)%nat.
Proof.
  induction l as [|x l IH]; simpl; [lia|]. destruct (p x); simpl; lia.
Qed.

Lemma find_filter (p q : A -> bool) l :
  (forall x, p x = true -> q x = true) ->
  find p (filter q l) = find p l.
Proof.
  intros H. induction l as [|x l IH]; simpl; [reflexivity|].
  destruct (q x) eqn:Eq; simpl.
  - destruct (p x); [reflexivity | exact IH].
  - destruct (p x) eqn:Ep; [|exact IH].
    rewrite (H x Ep) in Eq. discriminate.
Qed.

Lemma distinct_NoDup l : Items.distinct l = true -> NoDup l.
Proof.
  induction l as [|x l IH]; [constructor|].
  cbn [Items.distinct]. intros H. apply andb_true_iff in H as [Hx Hl].
  constructor; [|now apply IH].
  intros Hin. apply negb_true_iff in Hx.
  assert (existsb (String.eqb x) l = true); [|congruence].
  apply existsb_exists. exists x. split; [exact Hin | apply String.eqb_refl].
Qed.

End ListFacts.

Section SortFacts.

Import Backup.

Lemma insertByTime_perm x l : Permutation (insertByTime x l) (x :: l).
Proof.
  induction l as [|y l IH]; simpl; [reflexivity|].
  destruct (s_time x <? s_time y); [|reflexivity].
  rewrite IH. apply perm_swap.
Qed.

Lemma sortNewestFirst_perm l : Permutation (sortNewestFirst l) l.
Proof.
  induction l as [|x l IH]; simpl; [reflexivity|].
  rewrite insertByTime_perm. now constructor.
Qed.

Lemma sortNewestFirst_length l :
  List.length (sortNewestFirst l) = List.length l.
Proof. apply Permutation_length, sortNewestFirst_perm. Qed.

Lemma insertByTime_newestFirst x l :
  newestFirst l -> newestFirst (insertByTime x l).
Proof.
  induction l as [|y l IH]; simpl; intros H.
  - split; [constructor | exact I].
  - destruct H as [Hy Hl].
    destruct (s_time x <? s_time y) eqn:E.
    + apply Z.ltb_lt in E. simpl. split; [|now apply IH].
      eapply Permutation_Forall;
        [symmetry; apply insertByTime_perm|].
      constructor; [lia | exact Hy].
    + apply Z.ltb_ge in E. simpl. repeat split; try assumption.
      constructor; [exact E|].
      eapply Forall_impl; [|exact Hy]. simpl. intros; lia.
Qed.

Lemma sortNewestFirst_sorted l : newestFirst (sortNewestFirst l).
Proof.
  induction l as [|x l IH]; simpl; [exact I|].
  now apply insertByTime_newestFirst.
Qed.

Lemma slice_nonneg {A : Type} (k : Z) (l : list A) :
  0 <= k -> slice k l = skipn (Z.to_nat k) l.
Proof.
  intros Hk. unfold slice.
  destruct (k <? 0) eqn:E; [apply Z.ltb_lt in E; lia|].
  destruct (Z.le_gt_cases k (Z.of_nat (List.length l))) as [H|H].
  - now rewrite Z.min_l.
  - rewrite Z.min_r by lia. rewrite Nat2Z.id.
    rewrite skipn_all. symmetry. apply skipn_all2. lia.
Qed.

End SortFacts.

Section CleanupFacts.

Import Backup.

Variable cfg : AppConfigT.
Variable userData : string.

Lemma backupStats_eq d :
  backupStats cfg userData d =
  sortNewestFirst (map (statOf userData) (filter (matches cfg) d)).
Proof. reflexivity. Qed.

Lemma fold_unlink l d :
  fold_left (fun acc file => unlinkEntry (s_name file) acc) l d =
  filter (fun e => negb (named (fst e) l)) d.
Proof.
  revert d. induction l as [|x l IH]; intros d; simpl.
  - symmetry. now apply filter_all.
  - rewrite IH. unfold unlinkEntry. rewrite filter_filter.
    apply filter_ext. intros e.
    now rewrite negb_orb.
Qed.

Lemma cleanupDir_filter d :
  cleanupDir cfg userData d =
  filter (fun e => negb (named (fst e) (doomed cfg userData d))) d.
Proof.
  unfold cleanupDir, doomed.
  destruct (Z.of_nat (List.length (backupStats cfg userData d))
            >? MAX_BACKUPS cfg).
  - apply fold_unlink.
  - symmetry. now apply filter_all.
Qed.

Lemma In_named n l : named n l = true <-> In n (map s_name l).
Proof.
  unfold named. rewrite existsb_exists, in_map_iff. split.
  - intros [f [Hf E]]. apply String.eqb_eq in E. now exists f.
  - intros [f [E Hf]]. exists f. split; [exact Hf|].
    now apply String.eqb_eq.
Qed.

Lemma backupStats_In f d :
  In f (backupStats cfg userData d) ->
  exists e, In e d /\ matches cfg e = true /\ f = statOf userData e.
Proof.
  rewrite backupStats_eq. intros H.
  apply (Permutation_in _ (sortNewestFirst_perm _)) in H.
  apply in_map_iff in H as [e [E He]].
  apply filter_In in He as [He Hm]. now exists e.
Qed.

Lemma doomed_incl f d :
  In f (doomed cfg userData d) -> In f (backupStats cfg userData d).
Proof.
  unfold doomed.
  destruct (_ >? _); [|intros []].
  unfold slice. intros H.
  match type of H with
  | In _ (skipn ?k ?l) => rewrite <- (firstn_skipn k l)
  end.
  apply in_or_app. now right.
Qed.

Lemma doomed_matches f d :
  In f (doomed cfg userData d) -> isBackupFile cfg (s_name f) = true.
Proof.
  intros H. apply doomed_incl, backupStats_In in H as [e [_ [Hm ->]]].
  exact Hm.
Qed.

Lemma kept_unrelated e d :
  matches cfg e = false -> named (fst e) (doomed cfg userData d) = false.
Proof.
  intros Hm. destruct (named (fst e) (doomed cfg userData d)) eqn:E; [|reflexivity].
  apply In_named, in_map_iff in E as [f [Ef Hf]].
  apply doomed_matches in Hf. unfold matches in Hm. congruence.
Qed.

(** Pruning keeps every entry that is not a snapshot, adds none and
    changes none. *)
Lemma cleanupDir_keeps e d :
  matches cfg e = false -> In e d -> In e (cleanupDir cfg userData d).
Proof.
  intros Hm Hin. rewrite cleanupDir_filter. apply filter_In.
  split; [exact Hin|]. now rewrite kept_unrelated.
Qed.

Lemma cleanupDir_incl e d : In e (cleanupDir cfg userData d) -> In e d.
Proof. rewrite cleanupDir_filter. intros H. now apply filter_In in H. Qed.

Lemma cleanupDir_lookup n d :
  isBackupFile cfg n = false ->
  lookupEntry n (cleanupDir cfg userData d) = lookupEntry n d.
Proof.
  intros Hn. unfold lookupEntry. rewrite cleanupDir_filter.
  rewrite find_filter; [reflexivity|].
  intros e He. apply String.eqb_eq in He.
  rewrite kept_unrelated; [reflexivity|]. unfold matches. now rewrite He.
Qed.

(** *** Pruning under a fault *)

Lemma cleanupDirWhen_filter fault d :
  cleanupDirWhen cfg userData fault d =
  filter (fun e => negb (named (fst e) (unlinked cfg userData fault d))) d.
Proof.
  destruct fault as [[err|err gone| |k]|]; unfold cleanupDirWhen, unlinked;
    try apply cleanupDir_filter.
  - symmetry. now apply filter_all.
  - unfold cleanupDirUpTo, doomed.
    destruct (Z.of_nat (List.length (backupStats cfg userData d))
              >? MAX_BACKUPS cfg).
    + apply fold_unlink.
    + rewrite firstn_nil. symmetry. now apply filter_all.
Qed.

Lemma unlinked_doomed fault d f :
  In f (unlinked cfg userData fault d) -> In f (doomed cfg userData d).
Proof.
  destruct fault as [[err|err gone| |k]|]; unfold unlinked;
    try (intros H; exact H).
  - intros [].
  - intros H. rewrite <- (firstn_skipn k (doomed cfg userData d)).
    apply in_or_app. now left.
Qed.

Lemma kept_unrelated_when fault e d :
  matches cfg e = false ->
  named (fst e) (unlinked cfg userData fault d) = false.
Proof.
  intros Hm.
  destruct (named (fst e) (unlinked cfg userData fault d)) eqn:E;
    [|reflexivity].
  apply In_named, in_map_iff in E as [f [Ef Hf]].
  apply unlinked_doomed, doomed_matches in Hf. unfold matches in Hm.
  congruence.
Qed.

Lemma cleanupDirWhen_keeps fault e d :
  matches cfg e = false -> In e d ->
  In e (cleanupDirWhen cfg userData fault d).
Proof.
  intros Hm Hin. rewrite cleanupDirWhen_filter. apply filter_In.
  split; [exact Hin|]. now rewrite kept_unrelated_when.
Qed.

Lemma cleanupDirWhen_incl fault e d :
  In e (cleanupDirWhen cfg userData fault d) -> In e d.
Proof. rewrite cleanupDirWhen_filter. intros H. now apply filter_In in H. Qed.

Lemma cleanupDirWhen_lookup fault n d :
  isBackupFile cfg n = false ->
  lookupEntry n (cleanupDirWhen cfg userData fault d) = lookupEntry n d.
Proof.
  intros Hn. unfold lookupEntry. rewrite cleanupDirWhen_filter.
  rewrite find_filter; [reflexivity|].
  intros e He. apply String.eqb_eq in He.
  rewrite kept_unrelated_when; [reflexivity|]. unfold matches. now rewrite He.
Qed.

Lemma cleanupDir_unrelated_part d :
  filter (fun e => negb (matches cfg e)) (cleanupDir cfg userData d) =
  filter (fun e => negb (matches cfg e)) d.
Proof.
  rewrite cleanupDir_filter, filter_filter.
  apply filter_ext_in. intros e _.
  destruct (matches cfg e) eqn:Em; [apply andb_false_r|].
  now rewrite kept_unrelated.
Qed.

Lemma cleanupDir_uniqueNames d :
  uniqueNames d -> uniqueNames (cleanupDir cfg userData d).
Proof.
  unfold uniqueNames. rewrite cleanupDir_filter.
  generalize (fun e : string * File => negb (named (fst e) (doomed cfg userData d))).
  intros p. induction d as [|e d IH]; simpl; intros H; [constructor|].
  apply NoDup_cons_iff in H as [H1 H2].
  destruct (p e); simpl; [|now apply IH].
  constructor; [|now apply IH].
  intros Hin. apply H1. apply in_map_iff in Hin as [x [Ex Hx]].
  apply filter_In in Hx as [Hx _]. apply in_map_iff. now exists x.
Qed.

(** *** Counting the snapshots that remain *)

Lemma length_filter_map {X Y : Type} (f : X -> Y) (p : Y -> bool) l :
  List.length (filter p (map f l)) =
  List.length (filter (fun x => p (f x)) l).
Proof.
  induction l as [|x l IH]; simpl; [reflexivity|].
  destruct (p (f x)); simpl; now rewrite IH.
Qed.

Lemma kept_count d :
  List.length (filter (matches cfg) (cleanupDir cfg userData d)) =
  List.length (filter (fun f => negb (named (s_name f) (doomed cfg userData d)))
                      (backupStats cfg userData d)).
Proof.
  rewrite cleanupDir_filter, filter_filter.
  rewrite (filter_ext _ (fun e => matches cfg e
                                  && negb (named (fst e) (doomed cfg userData d))))
    by (intros; apply andb_comm).
  rewrite <- filter_filter, backupStats_eq.
  rewrite (Permutation_length
             (filter_perm _ _ _ (sortNewestFirst_perm _))).
  now rewrite length_filter_map.
Qed.

Lemma backupStats_length d :
  List.length (backupStats cfg userData d) = List.length (filter (matches cfg) d).
Proof. now rewrite backupStats_eq, sortNewestFirst_length, length_map. Qed.

Lemma doomed_own_name l f : In f l -> negb (named (s_name f) l) = false.
Proof.
  intros H. apply negb_false_iff, In_named. now apply in_map.
Qed.

(** After pruning at most MAX_BACKUPS snapshots are left. *)
Lemma cleanupDir_count_le d :
  0 <= MAX_BACKUPS cfg ->
  Z.of_nat (List.length (filter (matches cfg) (cleanupDir cfg userData d)))
  <= MAX_BACKUPS cfg.
Proof.
  intros HK. rewrite kept_count. unfold doomed.
  set (files := backupStats cfg userData d).
  destruct (Z.of_nat (List.length files) >? MAX_BACKUPS cfg) eqn:E.
  - rewrite slice_nonneg by exact HK.
    set (k := Z.to_nat (MAX_BACKUPS cfg)).
    set (keep := fun f => negb (named (s_name f) (skipn k files))).
    rewrite <- (firstn_skipn k files) at 1.
    rewrite filter_app, length_app.
    rewrite (filter_none keep (skipn k files))
      by (intros f Hf; now apply doomed_own_name).
    pose proof (filter_length_le keep (firstn k files)) as H1.
    pose proof (firstn_le_length k files) as H2.
    simpl. lia.
  - rewrite filter_all by reflexivity.
    destruct (Z.gtb_spec (Z.of_nat (List.length files)) (MAX_BACKUPS cfg));
      [discriminate | lia].
Qed.

Lemma NoDup_app_disjoint {X : Type} (l1 l2 : list X) a :
  NoDup (l1 ++ l2) -> In a l1 -> In a l2 -> False.
Proof.
  induction l1 as [|x l1 IH]; simpl; intros H H1 H2; [exact H1|].
  apply NoDup_cons_iff in H as [Hx H].
  destruct H1 as [->|H1]; [|now apply IH].
  apply Hx, in_or_app. now right.
Qed.

Lemma NoDup_map_filter {X Y : Type} (f : X -> Y) (p : X -> bool) l :
  NoDup (map f l) -> NoDup (map f (filter p l)).
Proof.
  induction l as [|x l IH]; simpl; intros H; [constructor|].
  apply NoDup_cons_iff in H as [H1 H2].
  destruct (p x); simpl; [|now apply IH].
  constructor; [|now apply IH].
  intros Hin. apply H1. apply in_map_iff in Hin as [y [Ey Hy]].
  apply filter_In in Hy as [Hy _]. apply in_map_iff. now exists y.
Qed.

Lemma backupStats_names_NoDup d :
  uniqueNames d -> NoDup (map s_name (backupStats cfg userData d)).
Proof.
  intros H. rewrite backupStats_eq.
  eapply Permutation_NoDup.
  - apply Permutation_map. symmetry. apply sortNewestFirst_perm.
  - rewrite map_map. simpl. now apply NoDup_map_filter.
Qed.

(** With distinct names exactly the MAX_BACKUPS newest are left. *)
Lemma cleanupDir_count d :
  uniqueNames d -> 0 <= MAX_BACKUPS cfg ->
  List.length (filter (matches cfg) (cleanupDir cfg userData d)) =
  Nat.min (Z.to_nat (MAX_BACKUPS cfg)) (List.length (filter (matches cfg) d)).
Proof.
  intros Hu HK. rewrite kept_count, <- backupStats_length. unfold doomed.
  pose proof (backupStats_names_NoDup d Hu) as Hnd.
  set (files := backupStats cfg userData d) in *.
  destruct (Z.of_nat (List.length files) >? MAX_BACKUPS cfg) eqn:E.
  - rewrite slice_nonneg by exact HK.
    set (k := Z.to_nat (MAX_BACKUPS cfg)).
    set (keep := fun f => negb (named (s_name f) (skipn k files))).
    rewrite <- (firstn_skipn k files) at 1.
    rewrite filter_app, length_app.
    rewrite (filter_none keep (skipn k files))
      by (intros f Hf; now apply doomed_own_name).
    rewrite filter_all; [simpl; rewrite length_firstn; lia|].
    intros f Hf. unfold keep. apply negb_true_iff.
    destruct (named (s_name f) (skipn k files)) eqn:En; [|reflexivity].
    apply In_named in En. exfalso.
    rewrite <- (firstn_skipn k files), map_app in Hnd.
    eapply NoDup_app_disjoint; [exact Hnd | | exact En].
    now apply in_map.
  - rewrite filter_all by reflexivity.
    destruct (Z.gtb_spec (Z.of_nat (List.length files)) (MAX_BACKUPS cfg));
      [discriminate | lia].
Qed.

End CleanupFacts.

Section CreateBackupFacts.

Import Backup.

Variable cfg : AppConfigT.
Variable userData : string.

(** The derived name carries the date and the hour only. *)
Lemma derivedFileName_hour now1 now2 :
  derivedFileName cfg now1 now2 =
  Some (backupPrefix cfg ++ "_" ++
        isoDate (YearFromTime now1) (MonthFromTime now1) (DateFromTime now1)
        ++ "_" ++ pad 2 (HourFromTime now2) ++ ".db").
Proof.
  unfold derivedFileName. now rewrite timestampOf_date, timeStrOf_hour.
Qed.

Lemma derivedFileName_same_hour a1 a2 b1 b2 :
  sameUtcHour a1 a2 -> sameUtcHour a1 b1 -> sameUtcHour a1 b2 ->
  derivedFileName cfg a1 a2 = derivedFileName cfg b1 b2.
Proof.
  intros (_ & _ & _ & H2) (Y1 & M1 & D1 & _) (_ & _ & _ & H3).
  rewrite !derivedFileName_hour. now rewrite Y1, M1, D1, <- H3, H2.
Qed.

Lemma derivedFileName_matches now1 now2 name :
  derivedFileName cfg now1 now2 = Some name ->
  isBackupFile cfg name = true.
Proof.
  rewrite derivedFileName_hour. intros H.
  match type of H with
  | Some ?e = _ => assert (E : name = e) by congruence
  end.
  rewrite E. clear H E.
  unfold isBackupFile, startsWith, BACKUP_PREFIX.
  rewrite prefix_append. cbn [andb].
  rewrite <- !append_assoc. apply endsWith_append.
Qed.

(** What a call does when the database file exists and the copy does
    not throw. *)
Lemma createBackup_ok now1 now2 mt fs db name :
  dbFile fs = Some db ->
  derivedFileName cfg now1 now2 = Some name ->
  createBackup cfg userData now1 now2 mt None fs =
  ({| b_success := true; b_message := "Backup created successfully";
      b_filePath := Some (pathJoin (BACKUP_DIR userData) name) |},
   {| dbFile := Some db;
      backupDir := Some (cleanupDir cfg userData
                           (writeEntry name {| content := content db;
                                               mtime := mt |} (dirOf fs)));
      otherFiles := otherFiles fs |}).
Proof.
  unfold derivedFileName, createBackup, mkdirError, copyError,
    cleanupOldBackups, cleanupDirWhen, ensureBackupDir, dirOf.
  intros Hdb Hn.
  destruct (timeStrOf now2) as [ts|]; [|discriminate].
  injection Hn as <-.
  destruct (backupDir fs) as [d|] eqn:Ed; cbn -[cleanupDir backupFileName];
    rewrite Hdb, ?Ed; reflexivity.
Qed.

(** What a call does when the database file exists and neither
    [mkdirSync] nor [copyFileSync] throws. *)
Lemma createBackup_done now1 now2 mt fault fs db name :
  dbFile fs = Some db ->
  derivedFileName cfg now1 now2 = Some name ->
  mkdirError fault fs = None -> copyError fault = None ->
  createBackup cfg userData now1 now2 mt fault fs =
  ({| b_success := true; b_message := "Backup created successfully";
      b_filePath := Some (pathJoin (BACKUP_DIR userData) name) |},
   {| dbFile := Some db;
      backupDir := Some (cleanupDirWhen cfg userData fault
                           (writeEntry name {| content := content db;
                                               mtime := mt |} (dirOf fs)));
      otherFiles := otherFiles fs |}).
Proof.
  unfold derivedFileName, createBackup, cleanupOldBackups, ensureBackupDir,
    dirOf.
  intros Hdb Hn -> ->.
  destruct (timeStrOf now2) as [ts|]; [|discriminate].
  injection Hn as <-.
  destruct (backupDir fs) as [d|] eqn:Ed;
    cbn -[cleanupDirWhen backupFileName]; rewrite Hdb, ?Ed; reflexivity.
Qed.

(** A successful call had a database file to copy, and neither
    [mkdirSync] nor [copyFileSync] threw. *)
Lemma createBackup_success_inv now1 now2 mt fault fs :
  b_success (fst (createBackup cfg userData now1 now2 mt fault fs)) = true ->
  mkdirError fault fs = None /\ copyError fault = None /\
  exists db, dbFile fs = Some db.
Proof.
  unfold createBackup, ensureBackupDir.
  destruct (mkdirError fault fs); [discriminate|].
  assert (E : dbFile match backupDir fs with
                     | Some _ => fs
                     | None => {| dbFile := dbFile fs; backupDir := Some [];
                                  otherFiles := otherFiles fs |}
                     end = dbFile fs) by now destruct (backupDir fs).
  rewrite E. destruct (dbFile fs) as [db|]; [|discriminate].
  rewrite timeStrOf_hour.
  destruct (copyError fault) as [[err gone]|]; [discriminate|]. intros _.
  split; [reflexivity|]. split; [reflexivity|]. now exists db.
Qed.

(** After every successful call at most MAX_BACKUPS snapshots are in
    the backup directory. *)
Lemma cleanupDirWhen_completes fault d :
  pruneCompletes fault = true ->
  cleanupDirWhen cfg userData fault d = cleanupDir cfg userData d.
Proof. destruct fault as [[]|]; (discriminate || reflexivity). Qed.

Lemma createBackup_count_le now1 now2 mt fault fs :
  0 <= maxBackups cfg ->
  pruneCompletes fault = true ->
  b_success (fst (createBackup cfg userData now1 now2 mt fault fs)) = true ->
  Z.of_nat (backupCount cfg
              (snd (createBackup cfg userData now1 now2 mt fault fs)))
  <= maxBackups cfg.
Proof.
  intros HK Hp Hs.
  destruct (createBackup_success_inv _ _ _ _ _ Hs) as (Hm & Hc & db & Hdb).
  destruct (derivedFileName cfg now1 now2) as [name|] eqn:En;
    [|rewrite derivedFileName_hour in En; discriminate].
  rewrite (createBackup_done _ _ _ _ _ _ _ Hdb En Hm Hc).
  unfold backupCount. cbn [snd backupDir].
  rewrite cleanupDirWhen_completes by exact Hp.
  now apply cleanupDir_count_le.
Qed.

(** *** Writing an entry *)

Lemma writeEntry_in name f d :
  In name (map fst d) -> map fst (writeEntry name f d) = map fst d.
Proof.
  induction d as [|[n g] d IH]; simpl; intros H; [contradiction|].
  destruct (String.eqb_spec n name) as [->|Hne]; [reflexivity|].
  simpl. f_equal. apply IH. destruct H as [H|H]; [contradiction | exact H].
Qed.

Lemma writeEntry_out name f d :
  ~ In name (map fst d) -> writeEntry name f d = (d ++ [(name, f)])%list.
Proof.
  induction d as [|[n g] d IH]; simpl; intros H; [reflexivity|].
  destruct (String.eqb_spec n name) as [->|Hne].
  - exfalso. apply H. now left.
  - f_equal. apply IH. intros Hin. apply H. now right.
Qed.

Lemma writeEntry_uniqueNames name f d :
  uniqueNames d -> uniqueNames (writeEntry name f d).
Proof.
  intros Hu. unfold uniqueNames in *.
  destruct (in_dec string_dec name (map fst d)) as [Hin|Hout].
  - now rewrite writeEntry_in.
  - rewrite writeEntry_out by exact Hout.
    rewrite map_app. simpl. apply NoDup_app; [exact Hu | | ].
    + constructor; [intros [] | constructor].
    + intros a Ha [<-|[]]. contradiction.
Qed.

Lemma writeEntry_has name f d : In name (map fst (writeEntry name f d)).
Proof.
  induction d as [|[n g] d IH]; simpl; [now left|].
  destruct (String.eqb_spec n name) as [->|Hne]; simpl; [now left|].
  now right.
Qed.

Lemma writeEntry_lookup name f d :
  lookupEntry name (writeEntry name f d) = Some f.
Proof.
  unfold lookupEntry.
  induction d as [|[n g] d IH]; simpl.
  - now rewrite String.eqb_refl.
  - destruct (String.eqb_spec n name) as [->|Hne]; simpl.
    + now rewrite String.eqb_refl.
    + destruct (String.eqb_spec n name); [contradiction | exact IH].
Qed.

Lemma count_by_names d :
  List.length (filter (matches cfg) d) =
  List.length (filter (isBackupFile cfg) (map fst d)).
Proof. symmetry. apply (length_filter_map fst (isBackupFile cfg)). Qed.

End CreateBackupFacts.

Section RetentionFacts.

Import Backup.

Variable cfg : AppConfigT.
Variable userData : string.

Lemma insertByTime_front x l :
  Forall (fun y => s_time y <= s_time x) l -> insertByTime x l = x :: l.
Proof.
  destruct l as [|y l]; [reflexivity|]. intros H. apply Forall_inv in H.
  cbn [insertByTime]. destruct (Z.ltb_spec (s_time x) (s_time y)); [lia|].
  reflexivity.
Qed.

Lemma insertByTime_filter_out p x l :
  p x = false -> filter p (insertByTime x l) = filter p l.
Proof.
  intros Hp. induction l as [|y l IH]; cbn [insertByTime filter].
  - now rewrite Hp.
  - destruct (s_time x <? s_time y); cbn [filter].
  + now rewrite IH.
  + now rewrite Hp.
Qed.

Lemma insertByTime_filter_in p x l :
  newestFirst l -> p x = true ->
  filter p (insertByTime x l) = insertByTime x (filter p l).
Proof.
  intros Hs Hp. induction l as [|y l IH]; cbn [insertByTime filter].
  - now rewrite Hp.
  - destruct Hs as [Hy Hl].
  destruct (Z.ltb_spec (s_time x) (s_time y)) as [Hlt|Hge]; cbn [filter].
  + rewrite (IH Hl). destruct (p y); [|reflexivity].
    cbn [insertByTime].
    destruct (Z.ltb_spec (s_time x) (s_time y)); [reflexivity | lia].
  + rewrite Hp. destruct (p y).
    * cbn [insertByTime].
      destruct (Z.ltb_spec (s_time x) (s_time y)); [lia | reflexivity].
    * symmetry. apply insertByTime_front.
      apply Forall_forall. intros z Hz. apply filter_In in Hz as [Hz _].
      rewrite Forall_forall in Hy. specialize (Hy z Hz). lia.
Qed.

(** The stable sort commutes with filtering. *)
Lemma sortNewestFirst_filter p l :
  sortNewestFirst (filter p l) = filter p (sortNewestFirst l).
Proof.
  induction l as [|x l IH]; [reflexivity|].
  cbn [filter sortNewestFirst]. destruct (p x) eqn:Hp.
  - cbn [sortNewestFirst]. rewrite IH. symmetry.
  apply insertByTime_filter_in; [apply sortNewestFirst_sorted | exact Hp].
  - rewrite IH. symmetry. now apply insertByTime_filter_out.
Qed.

(** A copy newer than every listed snapshot sorts to the front. *)
Lemma sortNewestFirst_newest l x :
  Forall (fun y => s_time y < s_time x) l ->
  sortNewestFirst (l ++ [x]) = x :: sortNewestFirst l.
Proof.
  induction l as [|y l IH]; intros H; [reflexivity|].
  apply Forall_cons_iff in H as [Hy Hl].
  cbn [app sortNewestFirst]. rewrite (IH Hl). cbn [insertByTime].
  destruct (Z.ltb_spec (s_time y) (s_time x)); [reflexivity | lia].
Qed.

(** Pruning leaves the first MAX_BACKUPS entries of the sorted listing, in
their order. *)
Lemma backupStats_cleanupDir d :
  uniqueNames d -> 0 <= MAX_BACKUPS cfg ->
  backupStats cfg userData (cleanupDir cfg userData d) =
  firstn (Z.to_nat (MAX_BACKUPS cfg)) (backupStats cfg userData d).
Proof.
  intros Hu HK.
  pose proof (backupStats_names_NoDup cfg userData d Hu) as Hnd.
  rewrite (backupStats_eq cfg userData (cleanupDir cfg userData d)).
  rewrite cleanupDir_filter, filter_filter.
  rewrite (filter_ext _ (fun e => matches cfg e
                 && negb (named (fst e) (doomed cfg userData d))))
  by (intros; apply andb_comm).
  rewrite <- filter_filter.
  rewrite <- (filter_map_swap
              (fun f => negb (named (s_name f) (doomed cfg userData d)))
              (statOf userData)).
  rewrite sortNewestFirst_filter, <- backupStats_eq.
  unfold doomed.
  set (files := backupStats cfg userData d) in *.
  destruct (Z.of_nat (List.length files) >? MAX_BACKUPS cfg) eqn:E.
  - rewrite slice_nonneg by exact HK.
  set (k := Z.to_nat (MAX_BACKUPS cfg)).
  set (keep := fun f => negb (named (s_name f) (skipn k files))).
  rewrite <- (firstn_skipn k files) at 1.
  rewrite filter_app.
  rewrite (filter_none keep (skipn k files))
    by (intros f Hf; now apply doomed_own_name).
  rewrite app_nil_r. apply filter_all.
  intros f Hf. unfold keep. apply negb_true_iff.
  destruct (named (s_name f) (skipn k files)) eqn:En; [|reflexivity].
  apply In_named in En. exfalso.
  rewrite <- (firstn_skipn k files), map_app in Hnd.
  eapply NoDup_app_disjoint; [exact Hnd | | exact En].
  now apply in_map.
  - rewrite filter_all by reflexivity. symmetry. apply firstn_all2.
  destruct (Z.gtb_spec (Z.of_nat (List.length files)) (MAX_BACKUPS cfg));
    [discriminate | lia].
Qed.

End RetentionFacts.

Section RetentionRun.

Import Backup.

Variable cfg : AppConfigT.
Variable userData : string.

Lemma In_firstn {X : Type} k (l : list X) x : In x (firstn k l) -> In x l.
Proof.
  intros H. rewrite <- (firstn_skipn k l). apply in_or_app. now left.
Qed.

Lemma firstn_cons_firstn {X : Type} k (a : X) l :
  firstn k (a :: firstn k l) = firstn k (a :: l).
Proof.
  destruct k as [|j]; [reflexivity|]. rewrite !firstn_cons. f_equal.
  rewrite firstn_firstn. f_equal. lia.
Qed.

Lemma backupStats_has e d :
  In e d -> matches cfg e = true ->
  In (statOf userData e) (backupStats cfg userData d).
Proof.
  intros He Hm. rewrite backupStats_eq.
  apply (Permutation_in _ (Permutation_sym (sortNewestFirst_perm _))).
  apply in_map. apply filter_In. now split.
Qed.

Lemma backupStats_names d :
  Permutation (map s_name (backupStats cfg userData d))
            (filter (isBackupFile cfg) (map fst d)).
Proof.
  rewrite backupStats_eq.
  rewrite (Permutation_map s_name (sortNewestFirst_perm _)).
  rewrite map_map. cbn [statOf s_name].
  now rewrite (filter_map_swap (isBackupFile cfg) fst).
Qed.

(** One more snapshot under a new name, newer than all the listed ones. *)
Lemma createBackup_keeps_newest fs db done n a1 a2 m :
  0 <= maxBackups cfg ->
  dbFile fs = Some db ->
  uniqueNames (dirOf fs) ->
  map s_name (backupStats cfg userData (dirOf fs))
  = firstn (Z.to_nat (maxBackups cfg)) (rev done) ->
  Forall (fun s => s_time s < m) (backupStats cfg userData (dirOf fs)) ->
  derivedFileName cfg a1 a2 = Some n ->
  ~ In n done ->
  let fs' := snd (createBackup cfg userData a1 a2 m None fs) in
  dbFile fs' = Some db /\
  uniqueNames (dirOf fs') /\
  map s_name (backupStats cfg userData (dirOf fs'))
  = firstn (Z.to_nat (maxBackups cfg)) (rev (done ++ [n])) /\
  Forall (fun s => s_time s <= m) (backupStats cfg userData (dirOf fs')).
Proof.
  intros HK Hdb Hu Hnames Hold Hn Hnew. cbv zeta.
  rewrite (createBackup_ok cfg userData a1 a2 m fs db n Hdb Hn).
  cbn [snd dbFile]. unfold dirOf at 1 3 5. cbn [backupDir].
  set (d := dirOf fs) in *.
  set (f := {| content := content db; mtime := m |}).
  assert (Hout : ~ In n (map fst d)).
  { intros Hin. apply in_map_iff in Hin as [e [Ee He]].
  apply Hnew. apply in_rev. apply (In_firstn (Z.to_nat (maxBackups cfg))).
  rewrite <- Hnames.
  change n with (s_name (statOf userData (n, f))).
  apply in_map_iff. exists (statOf userData e).
  split; [cbn; exact Ee|].
  apply backupStats_has; [exact He|].
  unfold matches. rewrite Ee.
  exact (derivedFileName_matches cfg a1 a2 n Hn). }
  rewrite (writeEntry_out n f d Hout).
  assert (Hu' : uniqueNames (d ++ [(n, f)])%list)
  by (rewrite <- (writeEntry_out n f d Hout); now apply writeEntry_uniqueNames).
  assert (Estats : backupStats cfg userData (d ++ [(n, f)])%list
                 = statOf userData (n, f) :: backupStats cfg userData d).
  { rewrite !backupStats_eq, filter_app, map_app. cbn [filter].
  unfold matches at 2. cbn [fst].
  rewrite (derivedFileName_matches cfg a1 a2 n Hn). cbn [map].
  apply sortNewestFirst_newest.
  eapply Permutation_Forall; [apply sortNewestFirst_perm|].
  rewrite <- backupStats_eq. exact Hold. }
  split; [reflexivity|].
  split; [now apply cleanupDir_uniqueNames|].
  rewrite (backupStats_cleanupDir cfg userData _ Hu' HK), Estats.
  unfold MAX_BACKUPS. split.
  - rewrite <- firstn_map. cbn [map statOf s_name fst].
  rewrite Hnames, firstn_cons_firstn, rev_app_distr. reflexivity.
  - apply Forall_forall. intros x Hx. apply In_firstn in Hx.
  destruct Hx as [<-|Hx]; [cbn; lia|].
  rewrite Forall_forall in Hold. specialize (Hold x Hx). lia.
Qed.

Lemma createBackups_invariant db calls :
  forall fs done lo names,
  0 <= maxBackups cfg ->
  dbFile fs = Some db ->
  uniqueNames (dirOf fs) ->
  map s_name (backupStats cfg userData (dirOf fs))
    = firstn (Z.to_nat (maxBackups cfg)) (rev done) ->
  Forall (fun s => s_time s <= lo) (backupStats cfg userData (dirOf fs)) ->
  derivedNames cfg calls = map Some names ->
  NoDup (done ++ names) ->
  risingAfter lo (map snd calls) ->
  let fs' := createBackups cfg userData calls fs in
  dbFile fs' = Some db /\
  uniqueNames (dirOf fs') /\
  map s_name (backupStats cfg userData (dirOf fs'))
    = firstn (Z.to_nat (maxBackups cfg)) (rev (done ++ names)).
Proof.
  induction calls as [|[[a1 a2] m] calls IH];
  intros fs done lo names HK Hdb Hu Hnames Hlo Hder Hnd Hrise.
  - destruct names; [|discriminate]. rewrite app_nil_r. now repeat split.
  - destruct names as [|n names]; [discriminate|].
  cbn [derivedNames map fst snd] in Hder. injection Hder as Hn Hder.
  cbn [map snd risingAfter] in Hrise. destruct Hrise as [Hm Hrise].
  assert (Hnew : ~ In n done).
  { intros Hin. apply NoDup_remove_2 in Hnd. apply Hnd.
    apply in_or_app. now left. }
  assert (Hold : Forall (fun s => s_time s < m)
                        (backupStats cfg userData (dirOf fs)))
    by (eapply Forall_impl; [|exact Hlo]; cbn beta; intros; lia).
  destruct (createBackup_keeps_newest fs db done n a1 a2 m
              HK Hdb Hu Hnames Hold Hn Hnew) as (Hdb' & Hu' & Hn' & Hlo').
  cbv zeta. cbn [createBackups fold_left fst snd].
  rewrite (app_assoc done [n] names : (done ++ n :: names = (done ++ [n]) ++ names)%list).
  apply (IH _ (done ++ [n])%list m names HK Hdb' Hu' Hn' Hlo' Hder);
    [|exact Hrise].
  now rewrite <- app_assoc.
Qed.

(** From a backup directory without snapshots, a run of successful calls
that derive pairwise distinct names and whose copies have rising
modification times leaves the snapshots of the last MAX_BACKUPS calls, and
no others. *)
Lemma createBackups_keep_newest calls names fs db lo :
  0 <= maxBackups cfg ->
  dbFile fs = Some db ->
  uniqueNames (dirOf fs) ->
  backupCount cfg fs = 0%nat ->
  derivedNames cfg calls = map Some names ->
  NoDup names ->
  risingAfter lo (map snd calls) ->
  let fs' := createBackups cfg userData calls fs in
  Permutation (backupNames cfg fs')
            (firstn (Z.to_nat (maxBackups cfg)) (rev names)) /\
  backupCount cfg fs'
  = Nat.min (Z.to_nat (maxBackups cfg)) (List.length calls).
Proof.
  intros HK Hdb Hu H0 Hder Hnd Hrise.
  assert (Hempty : backupStats cfg userData (dirOf fs) = []).
  { apply length_zero_iff_nil. rewrite backupStats_length.
  revert H0. unfold backupCount, dirOf.
  destruct (backupDir fs); [tauto | reflexivity]. }
  destruct (createBackups_invariant db calls fs [] lo names HK Hdb Hu)
  as (_ & _ & Hn); try assumption.
  - rewrite Hempty. cbn. now rewrite firstn_nil.
  - rewrite Hempty. constructor.
  - cbn [app] in Hn. cbv zeta.
  set (fs' := createBackups cfg userData calls fs) in *.
  assert (Hperm : Permutation (backupNames cfg fs')
                    (map s_name (backupStats cfg userData (dirOf fs')))).
  { symmetry. rewrite backupStats_names. unfold backupNames, dirOf.
    destruct (backupDir fs'); reflexivity. }
  split; [now rewrite Hperm, Hn|].
  transitivity (List.length (backupStats cfg userData (dirOf fs'))).
  + rewrite backupStats_length. unfold backupCount, dirOf.
    destruct (backupDir fs'); reflexivity.
  + rewrite <- (length_map s_name), Hn, length_firstn, length_rev.
    f_equal. rewrite <- (length_map Some names), <- Hder.
    unfold derivedNames. apply length_map.
Qed.

End RetentionRun.

(* ================================================================== *)
(** ** The backup module: file names, retention and the frame of pruning *)

Section BackupClaims.

Import Backup.

Lemma cleanupDir_id cfg userData d :
  Z.of_nat (List.length (filter (matches cfg) d)) <= maxBackups cfg ->
  cleanupDir cfg userData d = d.
Proof.
  intros H. unfold cleanupDir. rewrite backupStats_length.
  destruct (Z.gtb_spec (Z.of_nat (List.length (filter (matches cfg) d)))
                       (MAX_BACKUPS cfg)) as [H1|H1];
    [unfold MAX_BACKUPS in H1; lia | reflexivity].
Qed.

End BackupClaims.

(** C1.  The claim is that the name of a snapshot carries the time down to
    the second, so that calls in different clock seconds derive different
    names.  The code keeps the hour only: a call at 10:30:45 and a call at
    10:31:46 of the same day both create "app-backup_2024-01-15_10.db". *)
Theorem createBackup_name_stops_at_the_hour :
  Backup.b_filePath
    (fst (Backup.createBackup AppConfig Examples.userData
            Examples.t0 Examples.t0 Examples.t0 None Examples.freshFS))
  = Some "/home/user/.config/my-business-app/backups/app-backup_2024-01-15_10.db"
  /\
  Backup.b_filePath
    (fst (Backup.createBackup AppConfig Examples.userData
            (Examples.t0 + 61000) (Examples.t0 + 61000) (Examples.t0 + 61000)
            None Examples.freshFS))
  = Some "/home/user/.config/my-business-app/backups/app-backup_2024-01-15_10.db"
  /\ toISOString Examples.t0 = "2024-01-15T10:30:45.123Z"
  /\ toISOString (Examples.t0 + 61000) = "2024-01-15T10:31:46.123Z"
  /\ ~ sameUtcSecond Examples.t0 (Examples.t0 + 61000).
Proof.
  repeat split; try (vm_compute; reflexivity).
  vm_compute. discriminate.
Qed.

(** C2.  The claim is that N > K consecutive snapshots at distinct times
    leave exactly the K newest.  With K = 2, three successful calls one
    second apart leave a single snapshot file, because all three derive
    the same name (see C1). *)
Theorem three_backups_within_an_hour_leave_one :
  let cfg := Examples.keeping 2 in
  let fs1 := Examples.backupAt cfg Examples.t0 Examples.freshFS in
  let fs2 := Examples.backupAt cfg (Examples.t0 + 1000) fs1 in
  let fs3 := Examples.backupAt cfg (Examples.t0 + 2000) fs2 in
  Backup.b_success
    (fst (Backup.createBackup cfg Examples.userData Examples.t0 Examples.t0
            Examples.t0 None Examples.freshFS)) = true /\
  Backup.b_success
    (fst (Backup.createBackup cfg Examples.userData (Examples.t0 + 1000)
            (Examples.t0 + 1000) (Examples.t0 + 1000) None fs1)) = true /\
  Backup.b_success
    (fst (Backup.createBackup cfg Examples.userData (Examples.t0 + 2000)
            (Examples.t0 + 2000) (Examples.t0 + 2000) None fs2)) = true /\
  maxBackups cfg = 2 /\
  Backup.backupNames cfg fs3 = ["app-backup_2024-01-15_10.db"] /\
  Backup.backupCount cfg fs3 = 1%nat.
Proof. vm_compute. repeat split; reflexivity. Qed.

(** C8.  Retention pruning leaves every file of the backup directory whose
    name does not both start with the prefix and end with ".db" in place and
    unmodified; whatever it removes is a file it enumerated as a snapshot, and
    it touches nothing outside the directory.  This holds whatever throws
    inside the pruning. *)
Theorem cleanupOldBackups_keeps_unrelated_files :
  forall cfg userData fault fs d name file,
    Backup.backupDir fs = Some d ->
    In (name, file) d ->
    startsWith name (backupPrefix cfg) && endsWith name ".db" = false ->
    exists d',
      Backup.backupDir (Backup.cleanupOldBackups cfg userData fault fs)
        = Some d' /\
      In (name, file) d' /\
      Backup.lookupEntry name d' = Backup.lookupEntry name d /\
      (forall e, In e d' -> In e d) /\
      (forall e, In e d -> ~ In e d' ->
                 Backup.isBackupFile cfg (fst e) = true) /\
      Backup.dbFile (Backup.cleanupOldBackups cfg userData fault fs)
        = Backup.dbFile fs /\
      Backup.otherFiles (Backup.cleanupOldBackups cfg userData fault fs)
        = Backup.otherFiles fs.
Proof.
  intros cfg userData fault fs d name file Hd Hin Hname.
  exists (Backup.cleanupDirWhen cfg userData fault d).
  unfold Backup.cleanupOldBackups. rewrite Hd.
  cbn [Backup.backupDir Backup.dbFile Backup.otherFiles].
  split; [reflexivity|]. split; [now apply cleanupDirWhen_keeps|].
  split; [now apply cleanupDirWhen_lookup|].
  split; [intros e; apply cleanupDirWhen_incl|].
  split; [|split; reflexivity].
  intros e He Hgone.
  destruct (Backup.isBackupFile cfg (fst e)) eqn:Em; [reflexivity|].
  exfalso. apply Hgone. now apply cleanupDirWhen_keeps.
Qed.

Lemma cleanupOldBackups_keeps_unrelated_files_witness :
  exists d',
    Backup.backupDir
      (Backup.cleanupOldBackups (Examples.keeping 1) Examples.userData
         None Examples.mixedFS) = Some d' /\
    In ("notes.txt", {| Backup.content := "n"; Backup.mtime := 5 |}) d'.
Proof.
  destruct (cleanupOldBackups_keeps_unrelated_files
              (Examples.keeping 1) Examples.userData None Examples.mixedFS
              (Backup.dirOf Examples.mixedFS) "notes.txt"
              {| Backup.content := "n"; Backup.mtime := 5 |}
              eq_refl (or_introl eq_refl) eq_refl)
    as [d' [H1 [H2 _]]].
  exists d'. split; [exact H1 | exact H2].
Defined.

(* ================================================================== *)
(** ** The manual backup: cancellation *)

(** C9, as stated, at a concrete call: the outcome of a cancelled dialog is
    a failure record ([success] is false), as is the outcome of a copy that
    throws; the two share the shape [{ success: false, message }]. *)
Lemma createManualBackup_cancel_is_failure_shaped :
  let cancelled :=
    fst (Backup.createManualBackup AppConfig Examples.userData
           Examples.t0 Examples.t0 Examples.t0
           {| Backup.canceled := true; Backup.dlgFilePath := None |}
           None Examples.freshFS) in
  let ioFailed :=
    fst (Backup.createManualBackup AppConfig Examples.userData
           Examples.t0 Examples.t0 Examples.t0
           {| Backup.canceled := false;
              Backup.dlgFilePath := Some "/media/usb/copy.db" |}
           (Some "ENOSPC: no space left on device") Examples.freshFS) in
  success cancelled = false /\ success ioFailed = false /\
  ~ (success cancelled <> success ioFailed).
Proof.
  vm_compute. repeat split. intros H. now apply H.
Qed.

(** C9, amended.  A cancelled destination prompt (cancelled, or no path
    chosen) makes [createManualBackup] return the failure record with the
    message "Backup cancelled" and write nothing.  A missing database or a
    failing copy also return a failure record, with another message; this
    message is what the settings page tells them apart by: no toast for the
    cancellation, an error toast for the others. *)
Theorem createManualBackup_cancel_told_apart_by_message :
  forall cfg userData now1 now2 mt dlg fault fs db,
    Backup.dbFile fs = Some db ->
    (Backup.canceled dlg = true \/ Backup.dlgFilePath dlg = None \/
     Backup.dlgFilePath dlg = Some "") ->
    Backup.createManualBackup cfg userData now1 now2 mt dlg fault fs
      = ({| success := false; message := "Backup cancelled" |}, fs) /\
    Backup.handleManualBackup
      {| success := false; message := "Backup cancelled" |} = Backup.NoToast /\
    (forall n1 n2 m c p err fs',
        let r := fst (Backup.createManualBackup cfg userData n1 n2 m
                        {| Backup.canceled := false;
                           Backup.dlgFilePath := Some (String c p) |}
                        (Some err) fs') in
        success r = false /\ message r <> "Backup cancelled" /\
        snd (Backup.createManualBackup cfg userData n1 n2 m
               {| Backup.canceled := false;
                  Backup.dlgFilePath := Some (String c p) |}
               (Some err) fs') = fs' /\
        Backup.handleManualBackup r = Backup.ToastError (message r)).
Proof.
  intros cfg userData now1 now2 mt dlg fault fs db Hdb Hc.
  split; [|split; [reflexivity|]].
  - unfold Backup.createManualBackup. rewrite Hdb, timeStrOf_hour.
    destruct dlg as [c p]. cbn in Hc |- *.
    destruct Hc as [ -> | [ -> | -> ] ]; [reflexivity | | ]; now destruct c.
  - intros n1 n2 m c p err fs'. cbv zeta.
    unfold Backup.createManualBackup. rewrite timeStrOf_hour.
    destruct (Backup.dbFile fs') as [db'|];
      cbn [fst snd success message Backup.canceled Backup.dlgFilePath];
      (split; [reflexivity|]); (split; [discriminate|]);
      (split; reflexivity).
Qed.

Lemma createManualBackup_cancel_told_apart_by_message_witness :
  Backup.createManualBackup AppConfig Examples.userData
    Examples.t0 Examples.t0 Examples.t0
    {| Backup.canceled := true; Backup.dlgFilePath := None |} None
    Examples.freshFS
  = ({| success := false; message := "Backup cancelled" |}, Examples.freshFS).
Proof.
  exact (proj1 (createManualBackup_cancel_told_apart_by_message
                  AppConfig Examples.userData
                  Examples.t0 Examples.t0 Examples.t0
                  {| Backup.canceled := true; Backup.dlgFilePath := None |}
                  None Examples.freshFS Examples.store eq_refl
                  (or_introl eq_refl))).
Defined.

(* ================================================================== *)
(** ** The authentication module: the schema's constraints are kept *)

Section AuthFacts.

Import Auth.

Lemma lowerChar_idem c : lowerChar (lowerChar c) = lowerChar c.
Proof. destruct c as [[] [] [] [] [] [] [] []]; reflexivity. Qed.

Lemma isSpace_lowerChar c : isSpace (lowerChar c) = isSpace c.
Proof. destruct c as [[] [] [] [] [] [] [] []]; reflexivity. Qed.

Lemma toLowerCase_idem s : toLowerCase (toLowerCase s) = toLowerCase s.
Proof.
  induction s as [|c s IH]; cbn [toLowerCase]; [reflexivity|].
  now rewrite lowerChar_idem, IH.
Qed.

Lemma toLowerCase_trimStart s :
  toLowerCase (trimStart s) = trimStart (toLowerCase s).
Proof.
  induction s as [|c s IH]; cbn [toLowerCase trimStart]; [reflexivity|].
  rewrite isSpace_lowerChar. destruct (isSpace c); [exact IH | reflexivity].
Qed.

Lemma toLowerCase_trimEnd s :
  toLowerCase (trimEnd s) = trimEnd (toLowerCase s).
Proof.
  induction s as [|c s IH]; cbn [toLowerCase trimEnd]; [reflexivity|].
  rewrite <- IH, isSpace_lowerChar.
  destruct (trimEnd s) as [|d r]; cbn [toLowerCase]; [|reflexivity].
  now destruct (isSpace c).
Qed.

Lemma toLowerCase_trim s : toLowerCase (trim s) = trim (toLowerCase s).
Proof. unfold trim. now rewrite toLowerCase_trimEnd, toLowerCase_trimStart. Qed.

(** The stored user name is its own lower-case form. *)
Lemma stored_username_lower s :
  toLowerCase (trim (toLowerCase s)) = trim (toLowerCase s).
Proof. now rewrite toLowerCase_trim, toLowerCase_idem. Qed.

(** The engine of the examples satisfies the two assumptions on the
    strings, in every time zone. *)
Lemma runtimeIn_LowerCaseStable tza : Auth.LowerCaseStable (Auth.runtimeIn tza).
Proof. intros s. apply stored_username_lower. Qed.

Lemma runtimeIn_Latin1Strings tza : Auth.Latin1Strings (Auth.runtimeIn tza).
Proof. intros s. repeat split. Qed.

(** *** Well-formed databases *)

Lemma emptyDB_wf : db_wf emptyDB.
Proof. repeat split; simpl; repeat constructor. Qed.

Lemma wf_sessions_filter p db :
  db_wf db ->
  db_wf {| auth_user := auth_user db;
           auth_sessions := filter p (auth_sessions db) |}.
Proof.
  intros (H1 & H2 & H3 & H4). repeat split; cbn [auth_user auth_sessions].
  - exact H1.
  - exact H2.
  - now apply NoDup_map_filter.
  - apply Forall_forall. intros s Hs. apply filter_In in Hs as [Hs _].
    rewrite Forall_forall in H4. now apply H4.
Qed.

Lemma existsb_map_id (f : UserRow -> UserRow) k l :
  (forall u, u_id (f u) = u_id u) ->
  existsb (fun u => u_id u =? k) (map f l) = existsb (fun u => u_id u =? k) l.
Proof.
  intros Hf. induction l as [|u l IH]; simpl; [reflexivity|].
  now rewrite Hf, IH.
Qed.

Lemma wf_users_map f db :
  (forall u, u_id (f u) = u_id u) ->
  db_wf db ->
  db_wf {| auth_user := map f (auth_user db);
           auth_sessions := auth_sessions db |}.
Proof.
  intros Hf (H1 & H2 & H3 & H4). repeat split; cbn [auth_user auth_sessions].
  - now rewrite length_map.
  - apply Forall_forall. intros u Hu. apply in_map_iff in Hu as [v [<- Hv]].
    rewrite Hf. rewrite Forall_forall in H2. now apply H2.
  - exact H3.
  - eapply Forall_impl; [|exact H4]. cbn beta. intros s Hs.
    now rewrite existsb_map_id.
Qed.

Lemma updateLastLogin_wf now db : db_wf db -> db_wf (updateLastLogin now db).
Proof.
  apply wf_users_map. intros u. now destruct (u_id u =? 1).
Qed.

Lemma updatePasswordHash_wf h db :
  db_wf db -> db_wf (updatePasswordHash h db).
Proof.
  apply wf_users_map. intros u. now destruct (u_id u =? 1).
Qed.

(** Without a row of id 1 a well-formed database has no rows at all. *)
Lemma wf_no_user db :
  db_wf db -> selectUser1 db = None ->
  auth_user db = [] /\ auth_sessions db = [].
Proof.
  intros (H1 & H2 & H3 & H4) Hn. unfold selectUser1 in Hn.
  assert (E : auth_user db = []).
  { destruct (auth_user db) as [|u l]; [reflexivity|].
    apply Forall_inv in H2. simpl in Hn. rewrite H2 in Hn. discriminate. }
  split; [exact E|].
  rewrite E in H4. destruct (auth_sessions db) as [|s l]; [reflexivity|].
  apply Forall_inv in H4. discriminate.
Qed.

Lemma existsb_id_none k (l : list UserRow) :
  Forall (fun u => u_id u = k) l ->
  existsb (fun u => u_id u =? k) l = false -> l = [].
Proof.
  intros H E. destruct l as [|u l]; [reflexivity|].
  apply Forall_inv in H. simpl in E. rewrite H, Z.eqb_refl in E. discriminate.
Qed.

Lemma insertUser_wf row db db' :
  db_wf db -> insertUser row db = inr db' -> db_wf db'.
Proof.
  intros (H1 & H2 & H3 & H4). unfold insertUser.
  destruct (u_id row =? 1) eqn:Eid; [|discriminate]. cbn [negb].
  apply Z.eqb_eq in Eid. rewrite Eid.
  destruct (existsb (fun u => u_id u =? 1) (auth_user db)) eqn:Ex;
    [discriminate|].
  destruct (existsb (fun u => String.eqb _ _) (auth_user db));
    [discriminate|].
  intros [= <-]. rewrite (existsb_id_none 1 _ H2 Ex) in *.
  repeat split; cbn [auth_user auth_sessions app List.length].
  - lia.
  - now constructor.
  - exact H3.
  - eapply Forall_impl; [|exact H4]. cbn beta. intros s Hs. discriminate.
Qed.

Lemma insertSession_wf row db db' :
  db_wf db -> insertSession row db = inr db' -> db_wf db'.
Proof.
  intros (H1 & H2 & H3 & H4). unfold insertSession.
  destruct (existsb _ (auth_sessions db)) eqn:Ex; [discriminate|].
  destruct (existsb _ (auth_user db)) eqn:Eu; [|discriminate]. cbn [negb].
  intros [= <-]. repeat split; cbn [auth_user auth_sessions].
  - exact H1.
  - exact H2.
  - rewrite map_app. apply NoDup_app; [exact H3 | | ].
    + simpl. constructor; [intros [] | constructor].
    + intros a Ha [<-|[]].
      apply in_map_iff in Ha as [s [Es Hs]].
      assert (Hex : existsb (fun s0 => (s_id s0 =? s_id row)%string)
                            (auth_sessions db) = true).
      { apply existsb_exists. exists s. split; [exact Hs|].
        now apply String.eqb_eq. }
      congruence.
  - apply Forall_app. split; [exact H4|]. now constructor.
Qed.

(** *** Every operation keeps a database well formed *)

Variable B : Runtime.
Variable cfg : AppConfigT.

Lemma createUserInsert_wf now salt data db :
  db_wf db -> db_wf (snd (createUserInsert B now salt data db)).
Proof.
  intros H. unfold createUserInsert.
  destruct (insertUser _ db) as [err|db'] eqn:E; cbn [snd]; [exact H|].
  eapply insertUser_wf; eassumption.
Qed.

Lemma createUser_wf now salt data db :
  db_wf db -> db_wf (snd (createUser B now salt data db)).
Proof.
  intros H. unfold createUser.
  destruct (createUserChecks B data db); [exact H|].
  now apply createUserInsert_wf.
Qed.

Lemma deleteSessionsOfUser1_wf db : db_wf db -> db_wf (deleteSessionsOfUser1 db).
Proof. apply wf_sessions_filter. Qed.

Lemma deleteSession_wf token db : db_wf db -> db_wf (deleteSession token db).
Proof. apply wf_sessions_filter. Qed.

Lemma loginAfterCompare_wf now uuid data usr ok db :
  db_wf db -> db_wf (snd (loginAfterCompare B cfg now uuid data usr ok db)).
Proof.
  intros H. unfold loginAfterCompare.
  destruct ok; cbn [negb]; [|exact H].
  destruct (String.eqb _ _); cbn [negb]; [|exact H].
  destruct (rememberMe data && rememberMeEnabled cfg).
  - destruct (insertSession _ _) as [err|db3] eqn:E; cbn [snd].
    + now apply deleteSessionsOfUser1_wf, updateLastLogin_wf.
    + eapply insertSession_wf; [|exact E].
      now apply deleteSessionsOfUser1_wf, updateLastLogin_wf.
  - now apply updateLastLogin_wf.
Qed.

Lemma login_wf now uuid data db :
  db_wf db -> db_wf (snd (login B cfg now uuid data db)).
Proof.
  intros H. unfold login. destruct (selectUser1 db); [|exact H].
  now apply loginAfterCompare_wf.
Qed.

Lemma logout_wf token db : db_wf db -> db_wf (snd (logout token db)).
Proof.
  intros H. unfold logout. cbn [snd].
  destruct token as [[|c t]|]; try exact H. now apply deleteSession_wf.
Qed.

Lemma validateSession_wf now token db :
  db_wf db -> db_wf (snd (validateSession now token db)).
Proof.
  intros H. unfold validateSession.
  destruct (selectSession token db) as [[s u]|]; [|exact H].
  destruct (s_expires_at s <? now); [|exact H].
  now apply deleteSession_wf.
Qed.

Lemma changePasswordApply_wf salt data db :
  db_wf db -> db_wf (snd (changePasswordApply B salt data db)).
Proof.
  intros H. unfold changePasswordApply. cbn [snd].
  now apply deleteSessionsOfUser1_wf, updatePasswordHash_wf.
Qed.

Lemma changePassword_wf salt data db :
  db_wf db -> db_wf (snd (changePassword B salt data db)).
Proof.
  intros H. unfold changePassword. destruct (selectUser1 db); [|exact H].
  destruct (bcryptCompare B _ _); cbn [negb]; [|exact H].
  destruct (jsLength B (newPassword data) <? 6)%nat; [exact H|].
  now apply changePasswordApply_wf.
Qed.

Lemma step_wf db st : db_wf db -> db_wf (step B cfg db st).
Proof.
  intros H. destruct st; cbn [step].
  - now apply createUser_wf.
  - now apply createUserInsert_wf.
  - now apply login_wf.
  - now apply loginAfterCompare_wf.
  - now apply logout_wf.
  - now apply validateSession_wf.
  - now apply changePassword_wf.
  - now apply changePasswordApply_wf.
  - now apply wf_sessions_filter.
Qed.

Lemma run_wf steps db : db_wf db -> db_wf (run B cfg steps db).
Proof.
  revert db. induction steps as [|st steps IH]; intros db H; [exact H|].
  cbn [run fold_left]. apply IH. now apply step_wf.
Qed.

(** *** Looking a session up *)

Lemma selectSession_sound token db s u :
  selectSession token db = Some (s, u) ->
  In s (auth_sessions db) /\ s_id s = token /\
  In u (auth_user db) /\ u_id u = s_user_id s.
Proof.
  unfold selectSession. intros H.
  assert (Hin : In (s, u)
            (flat_map
               (fun s0 =>
                  if (s_id s0 =? token)%string
                  then map (fun u0 => (s0, u0))
                           (filter (fun u0 => u_id u0 =? s_user_id s0)
                                   (auth_user db))
                  else []) (auth_sessions db))).
  { destruct (flat_map _ _) as [|x l]; [discriminate|].
    injection H as ->. now left. }
  apply in_flat_map in Hin as [s0 [Hs0 Hin]].
  destruct (String.eqb_spec (s_id s0) token) as [E|E]; [|destruct Hin].
  apply in_map_iff in Hin as [u0 [[= <- <-] Hu0]].
  apply filter_In in Hu0 as [Hu0 Hid]. apply Z.eqb_eq in Hid.
  now repeat split.
Qed.

Lemma selectSession_absent token db :
  (forall s, In s (auth_sessions db) -> s_id s <> token) ->
  selectSession token db = None.
Proof.
  intros H. destruct (selectSession token db) as [[s u]|] eqn:E;
    [|reflexivity].
  apply selectSession_sound in E as (Hs & Hid & _). now apply H in Hs.
Qed.

Lemma selectSession_found token db s :
  db_wf db -> In s (auth_sessions db) -> s_id s = token ->
  exists u, selectSession token db = Some (s, u).
Proof.
  intros (_ & _ & Hnd & Hfk) Hs Hid. unfold selectSession.
  induction (auth_sessions db) as [|x l IH]; [destruct Hs|].
  cbn [map] in Hnd. apply NoDup_cons_iff in Hnd as [Hx Hnd].
  apply Forall_cons_iff in Hfk as [Hfx Hfk].
  cbn [flat_map].
  destruct (String.eqb_spec (s_id x) token) as [E|E].
  - assert (x = s) as ->.
    { destruct Hs as [Hs|Hs]; [exact Hs|]. exfalso. apply Hx.
      rewrite E, <- Hid. now apply in_map. }
    apply existsb_exists in Hfx as [u [Hu Eu]].
    assert (Hf : In u (filter (fun u0 => u_id u0 =? s_user_id s)
                              (auth_user db)))
      by (apply filter_In; now split).
    destruct (filter _ (auth_user db)) as [|u0 us]; [destruct Hf|].
    now exists u0.
  - destruct Hs as [Hs|Hs]; [subst x; contradiction|].
    cbn [app]. now apply IH.
Qed.

Lemma deleteSession_gone token db s :
  In s (auth_sessions (deleteSession token db)) -> s_id s <> token.
Proof.
  unfold deleteSession. cbn [auth_sessions]. intros H.
  apply filter_In in H as [_ H]. apply negb_true_iff in H.
  now apply String.eqb_neq in H.
Qed.

End AuthFacts.

(* ================================================================== *)
(** ** The authentication module: provisioning, login and sessions *)

(** C6.  From a well-formed database (the empty one of a first launch, for
    one) every sequence of operations, the asynchronous ones interleaved at
    their awaits or not, leaves at most one row in [auth_user]; and whenever
    a user row exists, [createUser] with any arguments fails with
    "User already exists" and leaves the database, hence its single user
    row, as it was. *)
Theorem single_user_row_invariant :
  forall B cfg steps db0,
    Auth.db_wf db0 ->
    let db := Auth.run B cfg steps db0 in
    (List.length (Auth.auth_user db) <= 1)%nat /\
    (Auth.isSetupComplete db = true ->
     List.length (Auth.auth_user db) = 1%nat /\
     forall now salt data,
       Auth.createUser B now salt data db
       = ({| success := false; message := "User already exists" |}, db) /\
       List.length (Auth.auth_user (snd (Auth.createUser B now salt data db)))
       = 1%nat).
Proof.
  intros B cfg steps db0 H0 db.
  pose proof (run_wf B cfg steps db0 H0) as Hwf. fold db in Hwf.
  destruct Hwf as (Hlen & Hrest). split; [exact Hlen|].
  intros Hset.
  assert (Hone : List.length (Auth.auth_user db) = 1%nat).
  { unfold Auth.isSetupComplete, Auth.selectUser1 in Hset.
    destruct (Auth.auth_user db) as [|u l]; [discriminate|].
    simpl in Hlen |- *. lia. }
  split; [exact Hone|].
  intros now salt data.
  assert (E : Auth.createUser B now salt data db
              = ({| success := false; message := "User already exists" |}, db))
    by (unfold Auth.createUser, Auth.createUserChecks; now rewrite Hset).
  rewrite E. split; [reflexivity | exact Hone].
Qed.

Lemma single_user_row_invariant_witness :
  Auth.createUser Auth.exampleRuntime (Examples.t0 + 9000) "b3RoZXI"
    {| Auth.setupUsername := "mallory"; Auth.setupPassword := "letmein" |}
    Examples.provisionedDB
  = ({| success := false; message := "User already exists" |},
     Examples.provisionedDB).
Proof.
  exact (proj1 (proj2 (proj2
    (single_user_row_invariant Auth.exampleRuntime AppConfig
       [Auth.CallCreateUser Examples.t0 "c2FsdA" Examples.aliceSetup]
       Auth.emptyDB emptyDB_wf) eq_refl)
    (Examples.t0 + 9000) "b3RoZXI"
    {| Auth.setupUsername := "mallory"; Auth.setupPassword := "letmein" |})).
Defined.

(** C7.  On a database without a user, a user name of at least three
    characters and a password of at least six are accepted by [createUser];
    a login right after it with the same password and a user name that is
    the same up to letter case and surrounding white space succeeds and
    returns the identity of the stored row: id 1, the lower-cased and trimmed
    user name, the creation time, and no earlier login.  This holds for
    every bcrypt in which the password verifies against the hash just made
    from it and for every engine whose case mapping leaves a lower-cased,
    trimmed string as it is. *)
Theorem login_after_createUser_succeeds :
  forall B cfg now salt data db now' uuid ldata,
    Auth.LowerCaseStable B ->
    Auth.db_wf db ->
    Auth.isSetupComplete db = false ->
    (3 <= Auth.jsLength B (Auth.setupUsername data))%nat ->
    (6 <= Auth.jsLength B (Auth.setupPassword data))%nat ->
    Auth.bcryptCompare B (Auth.setupPassword data)
      (Auth.bcryptHash B (Auth.setupPassword data) Auth.SALT_ROUNDS salt)
      = true ->
    Auth.loginPassword ldata = Auth.setupPassword data ->
    Auth.jsTrim B (Auth.jsToLowerCase B (Auth.loginUsername ldata))
      = Auth.jsTrim B (Auth.jsToLowerCase B (Auth.setupUsername data)) ->
    let created := Auth.createUser B now salt data db in
    let row := {| Auth.u_id := 1;
                  Auth.u_username :=
                    Auth.jsTrim B
                      (Auth.jsToLowerCase B (Auth.setupUsername data));
                  Auth.u_password_hash :=
                    Auth.bcryptHash B (Auth.setupPassword data)
                                    Auth.SALT_ROUNDS salt;
                  Auth.u_created_at := sqlDatetime now;
                  Auth.u_last_login := None |} in
    let r := fst (Auth.login B cfg now' uuid ldata (snd created)) in
    fst created = {| success := true;
                     message := "Account created successfully" |} /\
    Auth.auth_user (snd created) = [row] /\
    Auth.l_success r = true /\
    Auth.l_message r = "Login successful" /\
    Auth.user r = Some {| Auth.id := Auth.u_id row;
                          Auth.username := Auth.u_username row;
                          Auth.created_at := Auth.u_created_at row;
                          Auth.last_login := Auth.u_last_login row |} /\
    Auth.sessionToken r
      = (if Auth.rememberMe ldata && rememberMeEnabled cfg
         then Some uuid else None).
Proof.
  intros B cfg now salt data db now' uuid ldata Hlaw Hwf Hset Hu Hp Hb Hpw
         Hname.
  assert (Hnone : Auth.selectUser1 db = None)
    by (unfold Auth.isSetupComplete in Hset;
        now destruct (Auth.selectUser1 db)).
  destruct (wf_no_user db Hwf Hnone) as [Eu Es].
  destruct db as [users sessions]. cbn [Auth.auth_user Auth.auth_sessions] in *.
  subst users sessions. cbv zeta.
  assert (Ec : Auth.createUser B now salt data
                 {| Auth.auth_user := []; Auth.auth_sessions := [] |}
               = ({| success := true;
                     message := "Account created successfully" |},
                  {| Auth.auth_user :=
                       [{| Auth.u_id := 1;
                           Auth.u_username :=
                             Auth.jsTrim B
                               (Auth.jsToLowerCase B
                                  (Auth.setupUsername data));
                           Auth.u_password_hash :=
                             Auth.bcryptHash B (Auth.setupPassword data)
                                             Auth.SALT_ROUNDS salt;
                           Auth.u_created_at := sqlDatetime now;
                           Auth.u_last_login := None |}];
                     Auth.auth_sessions := [] |})).
  { unfold Auth.createUser, Auth.createUserChecks. rewrite Hset.
    destruct (Nat.ltb_spec (Auth.jsLength B (Auth.setupUsername data)) 3);
      [lia|].
    destruct (Nat.ltb_spec (Auth.jsLength B (Auth.setupPassword data)) 6);
      [lia|].
    reflexivity. }
  rewrite Ec. cbn [fst snd Auth.auth_user].
  split; [reflexivity|]. split; [reflexivity|].
  unfold Auth.login, Auth.selectUser1.
  cbn [Auth.auth_user find Auth.u_id Z.eqb Pos.eqb Auth.u_password_hash].
  rewrite Hpw, Hb. unfold Auth.loginAfterCompare.
  cbn [negb Auth.u_username]. rewrite (Hlaw (Auth.setupUsername data)), Hname.
  rewrite String.eqb_refl. cbn [negb].
  destruct (Auth.rememberMe ldata && rememberMeEnabled cfg);
    repeat split; reflexivity.
Qed.

Lemma login_after_createUser_succeeds_witness :
  Auth.l_success
    (fst (Auth.login Auth.exampleRuntime AppConfig (Examples.t0 + 5000)
            "token-1"
            {| Auth.loginUsername := "ALICE "; Auth.loginPassword := "secret1";
               Auth.rememberMe := true |} Examples.provisionedDB)) = true.
Proof.
  refine (proj1 (proj2 (proj2
    (login_after_createUser_succeeds Auth.exampleRuntime AppConfig
       Examples.t0 "c2FsdA" Examples.aliceSetup Auth.emptyDB
       (Examples.t0 + 5000) "token-1"
       {| Auth.loginUsername := "ALICE "; Auth.loginPassword := "secret1";
          Auth.rememberMe := true |}
       (runtimeIn_LowerCaseStable _)
       emptyDB_wf eq_refl _ _ eq_refl eq_refl eq_refl)))).
  - simpl. lia.
  - simpl. lia.
Defined.

(** C3, as stated, at a concrete database: with the user "alice" provisioned,
    a login with a wrong password and a login with the right password under
    another user name return different results; the caller tells them apart
    by the message. *)
Lemma login_failures_are_distinguishable :
  let wrongPassword :=
    fst (Auth.login Auth.exampleRuntime AppConfig (Examples.t0 + 5000) "token-1"
           {| Auth.loginUsername := "alice"; Auth.loginPassword := "wrongpass";
              Auth.rememberMe := false |} Examples.provisionedDB) in
  let wrongUsername :=
    fst (Auth.login Auth.exampleRuntime AppConfig (Examples.t0 + 5000) "token-1"
           {| Auth.loginUsername := "bob"; Auth.loginPassword := "secret1";
              Auth.rememberMe := false |} Examples.provisionedDB) in
  Auth.l_message wrongPassword = "Invalid password" /\
  Auth.l_message wrongUsername = "Invalid username" /\
  wrongPassword <> wrongUsername.
Proof.
  vm_compute. repeat split. discriminate.
Qed.

(** C3, amended.  For a provisioned user, a login whose hash comparison
    fails returns a failure with the message "Invalid password", and a login
    whose hash comparison succeeds but whose user name (lower-cased, trimmed)
    differs from the stored one returns a failure with the message
    "Invalid username".  Both leave the database as it was and both carry
    [success = false], no session token and no user; they differ in the
    message only. *)
Theorem login_failures_differ_in_message_only :
  forall B cfg now uuid data db usr,
    Auth.selectUser1 db = Some usr ->
    (Auth.bcryptCompare B (Auth.loginPassword data) (Auth.u_password_hash usr)
       = false ->
     Auth.login B cfg now uuid data db
       = ({| Auth.l_success := false; Auth.l_message := "Invalid password";
             Auth.sessionToken := None; Auth.user := None |}, db)) /\
    (Auth.bcryptCompare B (Auth.loginPassword data) (Auth.u_password_hash usr)
       = true ->
     Auth.jsToLowerCase B (Auth.u_username usr)
       <> Auth.jsTrim B (Auth.jsToLowerCase B (Auth.loginUsername data)) ->
     Auth.login B cfg now uuid data db
       = ({| Auth.l_success := false; Auth.l_message := "Invalid username";
             Auth.sessionToken := None; Auth.user := None |}, db)).
Proof.
  intros B cfg now uuid data db usr Hu.
  unfold Auth.login, Auth.loginAfterCompare. rewrite Hu. split.
  - intros ->. reflexivity.
  - intros -> Hne. apply String.eqb_neq in Hne. rewrite Hne. reflexivity.
Qed.

Lemma login_failures_differ_in_message_only_witness :
  Auth.login Auth.exampleRuntime AppConfig (Examples.t0 + 5000) "token-1"
    {| Auth.loginUsername := "alice"; Auth.loginPassword := "wrongpass";
       Auth.rememberMe := false |} Examples.provisionedDB
  = ({| Auth.l_success := false; Auth.l_message := "Invalid password";
        Auth.sessionToken := None; Auth.user := None |},
     Examples.provisionedDB).
Proof.
  exact (proj1
    (login_failures_differ_in_message_only Auth.exampleRuntime AppConfig
       (Examples.t0 + 5000) "token-1"
       {| Auth.loginUsername := "alice"; Auth.loginPassword := "wrongpass";
          Auth.rememberMe := false |} Examples.provisionedDB
       {| Auth.u_id := 1; Auth.u_username := "alice";
          Auth.u_password_hash := "secret1$2a$12$c2FsdA";
          Auth.u_created_at := "2024-01-15 10:30:45";
          Auth.u_last_login := None |} eq_refl) eq_refl).
Defined.

(** C4, as stated, at a concrete database: a [validateSession] made at the
    very instant [expires_at] (so that [expires_at <= now]) finds the session
    valid and leaves its row in place. *)
Lemma validateSession_at_expiry_is_valid :
  Auth.s_expires_at
    {| Auth.s_id := "token-1"; Auth.s_user_id := 1;
       Auth.s_created_at := "2024-01-15 10:30:50";
       Auth.s_expires_at := Examples.expiry |} <= Examples.expiry /\
  Auth.auth_sessions Examples.rememberedDB
    = [ {| Auth.s_id := "token-1"; Auth.s_user_id := 1;
           Auth.s_created_at := "2024-01-15 10:30:50";
           Auth.s_expires_at := Examples.expiry |} ] /\
  Auth.valid (fst (Auth.validateSession Examples.expiry "token-1"
                     Examples.rememberedDB)) = true /\
  snd (Auth.validateSession Examples.expiry "token-1" Examples.rememberedDB)
    = Examples.rememberedDB.
Proof.
  vm_compute. repeat split. discriminate.
Qed.

(** C4, amended.  For a stored session, a [validateSession] made when
    [expires_at < now] returns invalid and deletes the rows of that token, and
    a second call on the same token, at any time, returns invalid again and
    changes nothing.  A call made when [now <= expires_at], the instant of
    expiry included, returns valid and deletes nothing. *)
Theorem validateSession_expired_is_deleted :
  forall now now' token db s,
    Auth.db_wf db ->
    In s (Auth.auth_sessions db) ->
    Auth.s_id s = token ->
    (Auth.s_expires_at s < now ->
     let first := Auth.validateSession now token db in
     fst first = {| Auth.valid := false; Auth.sessionUser := None |} /\
     snd first = Auth.deleteSession token db /\
     (forall s', In s' (Auth.auth_sessions (snd first)) ->
                 Auth.s_id s' <> token) /\
     Auth.validateSession now' token (snd first)
       = ({| Auth.valid := false; Auth.sessionUser := None |}, snd first)) /\
    (now <= Auth.s_expires_at s ->
     Auth.valid (fst (Auth.validateSession now token db)) = true /\
     snd (Auth.validateSession now token db) = db).
Proof.
  intros now now' token db s Hwf Hs Hid.
  destruct (selectSession_found token db s Hwf Hs Hid) as [u Hsel].
  assert (Ev : Auth.validateSession now token db
               = if Auth.s_expires_at s <? now
                 then ({| Auth.valid := false; Auth.sessionUser := None |},
                       Auth.deleteSession token db)
                 else ({| Auth.valid := true;
                          Auth.sessionUser :=
                            Some {| Auth.id := Auth.u_id u;
                                    Auth.username := Auth.u_username u;
                                    Auth.created_at := Auth.u_created_at u;
                                    Auth.last_login := Auth.u_last_login u |}
                       |}, db))
    by (unfold Auth.validateSession; now rewrite Hsel).
  rewrite Ev. clear Ev. split.
  - intros Hlt. apply Z.ltb_lt in Hlt. rewrite Hlt. cbn [fst snd].
    split; [reflexivity|]. split; [reflexivity|].
    split; [intros s'; apply deleteSession_gone|].
    unfold Auth.validateSession.
    rewrite selectSession_absent; [reflexivity|].
    intros s'. apply deleteSession_gone.
  - intros Hle. apply Z.ltb_ge in Hle. rewrite Hle. now split.
Qed.

Lemma validateSession_expired_is_deleted_witness :
  fst (Auth.validateSession (Examples.expiry + 1) "token-1"
         Examples.rememberedDB)
  = {| Auth.valid := false; Auth.sessionUser := None |}.
Proof.
  refine (proj1 (proj1
    (validateSession_expired_is_deleted (Examples.expiry + 1)
       (Examples.expiry + 2) "token-1" Examples.rememberedDB
       {| Auth.s_id := "token-1"; Auth.s_user_id := 1;
          Auth.s_created_at := "2024-01-15 10:30:50";
          Auth.s_expires_at := Examples.expiry |}
       _ (or_introl eq_refl) eq_refl) _)).
  - apply (login_wf Auth.exampleRuntime AppConfig).
    apply (createUser_wf Auth.exampleRuntime). exact emptyDB_wf.
  - vm_compute. reflexivity.
Defined.

(** C5.  A successful [changePassword] deletes every session row of the
    user: no row with [user_id = 1] is left, the session table is empty, and
    [validateSession] returns invalid for every token at every time after it,
    in particular for each token that was valid just before the call. *)
Theorem changePassword_invalidates_every_session :
  forall B salt data db,
    Auth.db_wf db ->
    success (fst (Auth.changePassword B salt data db)) = true ->
    let db' := snd (Auth.changePassword B salt data db) in
    (forall s, In s (Auth.auth_sessions db') -> Auth.s_user_id s <> 1) /\
    Auth.auth_sessions db' = [] /\
    (forall now0 now token,
        Auth.valid (fst (Auth.validateSession now0 token db)) = true ->
        Auth.valid (fst (Auth.validateSession now token db')) = false) /\
    (forall now token,
        Auth.validateSession now token db'
        = ({| Auth.valid := false; Auth.sessionUser := None |}, db')).
Proof.
  intros B salt data db Hwf Hok.
  assert (E : snd (Auth.changePassword B salt data db)
              = snd (Auth.changePasswordApply B salt data db)).
  { revert Hok. unfold Auth.changePassword.
    destruct (Auth.selectUser1 db); [|discriminate].
    destruct (Auth.bcryptCompare B _ _); [|discriminate]. cbn [negb].
    destruct (Auth.jsLength B (Auth.newPassword data) <? 6)%nat;
      [discriminate | reflexivity]. }
  cbv zeta. rewrite E. unfold Auth.changePasswordApply. cbn [snd].
  assert (Hnone : Auth.auth_sessions
                    (Auth.deleteSessionsOfUser1
                       (Auth.updatePasswordHash
                          (Auth.bcryptHash B (Auth.newPassword data)
                                           Auth.SALT_ROUNDS salt) db)) = []).
  { unfold Auth.deleteSessionsOfUser1, Auth.updatePasswordHash.
    cbn [Auth.auth_sessions]. apply filter_none.
    intros s Hs. destruct Hwf as (_ & Hids & _ & Hfk).
    rewrite Forall_forall in Hfk. apply Hfk in Hs.
    apply existsb_exists in Hs as [u [Hu Eu]].
    rewrite Forall_forall in Hids. apply Hids in Hu.
    apply Z.eqb_eq in Eu. rewrite <- Eu, Hu. reflexivity. }
  assert (Hval : forall now token,
             Auth.validateSession now token
               (Auth.deleteSessionsOfUser1
                  (Auth.updatePasswordHash
                     (Auth.bcryptHash B (Auth.newPassword data)
                                      Auth.SALT_ROUNDS salt) db))
             = ({| Auth.valid := false; Auth.sessionUser := None |},
                Auth.deleteSessionsOfUser1
                  (Auth.updatePasswordHash
                     (Auth.bcryptHash B (Auth.newPassword data)
                                      Auth.SALT_ROUNDS salt) db))).
  { intros now token. unfold Auth.validateSession.
    rewrite selectSession_absent; [reflexivity|].
    rewrite Hnone. intros s []. }
  split; [rewrite Hnone; intros s []|].
  split; [exact Hnone|].
  split; [|exact Hval].
  intros now0 now token _. now rewrite Hval.
Qed.

Lemma changePassword_invalidates_every_session_witness :
  Auth.valid
    (fst (Auth.validateSession (Examples.t0 + 6000) "token-1"
            Examples.rememberedDB)) = true /\
  Auth.valid
    (fst (Auth.validateSession (Examples.t0 + 8000) "token-1"
            (snd (Auth.changePassword Auth.exampleRuntime "bmV3"
                    {| Auth.currentPassword := "secret1";
                       Auth.newPassword := "newpass1" |}
                    Examples.rememberedDB)))) = false.
Proof.
  split; [vm_compute; reflexivity|].
  refine (proj1 (proj2 (proj2
    (changePassword_invalidates_every_session Auth.exampleRuntime "bmV3"
       {| Auth.currentPassword := "secret1"; Auth.newPassword := "newpass1" |}
       Examples.rememberedDB _ eq_refl)))
    (Examples.t0 + 6000) (Examples.t0 + 8000) "token-1" _).
  - apply (login_wf Auth.exampleRuntime AppConfig).
    apply (createUser_wf Auth.exampleRuntime). exact emptyDB_wf.
  - vm_compute. reflexivity.
Defined.

(** The scenario of the specification: with [maxBackups = 3], five calls
an hour apart leave the snapshots of the third, fourth and fifth call. *)
Example createBackups_five_calls_keep_three :
  Backup.backupNames (Examples.keeping 3)
  (Backup.createBackups (Examples.keeping 3) Examples.userData
     (map (fun h => let t := Examples.t0 + h * msPerHour in (t, t, t))
          [0; 1; 2; 3; 4])
     Examples.freshFS)
  = [ "app-backup_2024-01-15_12.db"; "app-backup_2024-01-15_13.db";
    "app-backup_2024-01-15_14.db" ].
Proof. vm_compute. reflexivity. Qed.

(* ================================================================== *)
(** ** Further properties of the backup module *)

Section BackupMore.

Import Backup.

Variable cfg : AppConfigT.
Variable userData : string.

Lemma dirOf_ensureBackupDir fs : dirOf (ensureBackupDir fs) = dirOf fs.
Proof.
  unfold ensureBackupDir, dirOf.
  destruct (backupDir fs) eqn:E; [now rewrite E | reflexivity].
Qed.


Lemma getLastBackupTime_eq fs :
  getLastBackupTime cfg userData fs =
  (match backupStats cfg userData (dirOf fs) with
   | [] => None
   | f :: _ => Some (s_time f)
   end, ensureBackupDir fs).
Proof.
  unfold getLastBackupTime. rewrite <- (dirOf_ensureBackupDir fs).
  unfold dirOf at 1, ensureBackupDir.
  destruct (backupDir fs) as [d|] eqn:Ed; cbn [backupDir]; [rewrite Ed|].
  - now destruct (backupStats cfg userData d).
  - reflexivity.
Qed.


(** The head of the sorted listing is a snapshot of the directory and no
    snapshot is newer. *)
Lemma backupStats_head d f rest :
  backupStats cfg userData d = f :: rest ->
  (exists e, In e d /\ matches cfg e = true /\ mtime (snd e) = s_time f) /\
  (forall e, In e d -> matches cfg e = true -> mtime (snd e) <= s_time f).
Proof.
  intros H. split.
  - assert (Hf : In f (backupStats cfg userData d)) by (rewrite H; now left).
    destruct (backupStats_In cfg userData f d Hf) as [e [He [Hm Ef]]].
    exists e. rewrite Ef. now repeat split.
  - intros e He Hm.
    pose proof (backupStats_has cfg userData e d He Hm) as Hin.
    pose proof (sortNewestFirst_sorted
                  (map (statOf userData) (filter (matches cfg) d))) as Hs.
    rewrite <- backupStats_eq, H in Hs. rewrite H in Hin.
    destruct Hin as [Ef|Hin]; [rewrite Ef; cbn; lia|].
    destruct Hs as [Hall _]. rewrite Forall_forall in Hall.
    exact (Hall _ Hin).
Qed.

Lemma dirOf_mk db d o :
  dirOf {| dbFile := db; backupDir := Some d; otherFiles := o |} = d.
Proof. reflexivity. Qed.

Lemma find_filter_name (name : string) (d : Dir) :
  find (fun e => String.eqb (fst e) name)
       (filter (fun e => negb (String.eqb (fst e) name)) d) = None.
Proof.
  induction d as [|e d IH]; [reflexivity|].
  cbn [filter]. destruct (String.eqb (fst e) name) eqn:E; cbn [negb];
    [exact IH|].
  cbn [find]. now rewrite E.
Qed.

Lemma cleanupDirWhen_id fault d :
  Z.of_nat (List.length (filter (matches cfg) d)) <= maxBackups cfg ->
  cleanupDirWhen cfg userData fault d = d.
Proof.
  intros H. rewrite cleanupDirWhen_filter. apply filter_all.
  intros e _. apply negb_true_iff.
  destruct (named (fst e) (unlinked cfg userData fault d)) eqn:E;
    [|reflexivity].
  apply In_named, in_map_iff in E as [f [_ Hf]].
  apply unlinked_doomed in Hf. unfold doomed in Hf.
  rewrite backupStats_length in Hf.
  destruct (Z.gtb_spec (Z.of_nat (List.length (filter (matches cfg) d)))
                       (MAX_BACKUPS cfg)) as [H1|H1];
    [unfold MAX_BACKUPS in H1; lia | destruct Hf].
Qed.

Lemma cleanupDir_idem d :
  0 <= maxBackups cfg ->
  cleanupDir cfg userData (cleanupDir cfg userData d)
  = cleanupDir cfg userData d.
Proof.
  intros HK. apply cleanupDir_id. now apply cleanupDir_count_le.
Qed.

End BackupMore.

(** X1.  After a [createBackup] that reports success and whose pruning ran
    to its end, the backup directory holds at most [maxBackups] snapshot
    files, whatever it held before (for a [maxBackups] that is not
    negative).  The report of success does not wait for the pruning: when
    [statSync] throws inside [cleanupOldBackups], or the first [unlinkSync],
    the call still reports success and removes nothing, so that a directory
    which held more than [maxBackups] snapshots still does. *)
Theorem createBackup_leaves_at_most_maxBackups :
  forall cfg userData now1 now2 mt fault fs,
    0 <= maxBackups cfg ->
    let r := Backup.createBackup cfg userData now1 now2 mt fault fs in
    Backup.b_success (fst r) = true ->
    (Backup.pruneCompletes fault = true ->
     Z.of_nat (Backup.backupCount cfg (snd r)) <= maxBackups cfg) /\
    (fault = Some Backup.StatThrows \/
     fault = Some (Backup.UnlinkThrows 0) ->
     (exists db name,
         Backup.dbFile fs = Some db /\
         Backup.derivedFileName cfg now1 now2 = Some name /\
         Backup.dirOf (snd r)
         = Backup.writeEntry name {| Backup.content := Backup.content db;
                                     Backup.mtime := mt |}
                             (Backup.dirOf fs)) /\
     (Backup.backupCount cfg fs <= Backup.backupCount cfg (snd r))%nat).
Proof.
  intros cfg userData now1 now2 mt fault fs HK. cbv zeta. intros Hs.
  split; [intros Hp; now apply createBackup_count_le|].
  intros Hf.
  destruct (createBackup_success_inv _ _ _ _ _ _ _ Hs) as (Hm & Hc & db & Hdb).
  destruct (Backup.derivedFileName cfg now1 now2) as [name|] eqn:En;
    [|rewrite derivedFileName_hour in En; discriminate].
  rewrite (createBackup_done _ _ _ _ _ _ _ _ _ Hdb En Hm Hc).
  cbn [snd]. unfold Backup.dirOf at 1, Backup.backupCount.
  cbn [Backup.backupDir].
  assert (Ew : Backup.cleanupDirWhen cfg userData fault
                 (Backup.writeEntry name
                    {| Backup.content := Backup.content db;
                       Backup.mtime := mt |} (Backup.dirOf fs))
               = Backup.writeEntry name
                   {| Backup.content := Backup.content db;
                      Backup.mtime := mt |} (Backup.dirOf fs)).
  { destruct Hf as [-> | ->]; cbn [Backup.cleanupDirWhen]; [reflexivity|].
    unfold Backup.cleanupDirUpTo. cbn [firstn fold_left].
    now destruct (_ >? _). }
  rewrite Ew. split; [now exists db, name|].
  change (fun e : string * Backup.File => Backup.isBackupFile cfg (fst e))
    with (Backup.matches cfg).
  fold (Backup.dirOf fs).
  transitivity (List.length (filter (Backup.matches cfg) (Backup.dirOf fs))).
  - unfold Backup.dirOf. destruct (Backup.backupDir fs); [apply le_n|].
    apply Nat.le_0_l.
  - rewrite !count_by_names.
    destruct (in_dec string_dec name (map fst (Backup.dirOf fs)))
      as [Hin|Hout].
    + rewrite writeEntry_in by exact Hin. apply le_n.
    + rewrite writeEntry_out by exact Hout.
      rewrite map_app, filter_app, length_app. apply Nat.le_add_r.
Qed.

Lemma createBackup_leaves_at_most_maxBackups_witness :
  Z.of_nat (Backup.backupCount (Examples.keeping 1)
              (snd (Backup.createBackup (Examples.keeping 1) Examples.userData
                      (Examples.t0 + 7 * msPerHour) (Examples.t0 + 7 * msPerHour)
                      30 None Examples.mixedFS)))
  <= maxBackups (Examples.keeping 1) /\
  (Backup.backupCount (Examples.keeping 1) Examples.mixedFS
   <= Backup.backupCount (Examples.keeping 1)
        (snd (Backup.createBackup (Examples.keeping 1) Examples.userData
                (Examples.t0 + 7 * msPerHour) (Examples.t0 + 7 * msPerHour)
                30 (Some Backup.StatThrows) Examples.mixedFS)))%nat.
Proof.
  split.
  - refine (proj1 (createBackup_leaves_at_most_maxBackups (Examples.keeping 1)
             Examples.userData (Examples.t0 + 7 * msPerHour)
             (Examples.t0 + 7 * msPerHour) 30 None Examples.mixedFS _ _)
             eq_refl).
    + vm_compute. discriminate.
    + vm_compute. reflexivity.
  - refine (proj2 (proj2 (createBackup_leaves_at_most_maxBackups
             (Examples.keeping 1)
             Examples.userData (Examples.t0 + 7 * msPerHour)
             (Examples.t0 + 7 * msPerHour) 30 (Some Backup.StatThrows)
             Examples.mixedFS _ _) (or_introl eq_refl))).
    + vm_compute. discriminate.
    + vm_compute. reflexivity.
Defined.

(** X2.  Retention over a run of calls.  From a backup directory without
    snapshot files, a run of successful [createBackup] calls that derive
    pairwise distinct file names and whose copies receive rising modification
    times leaves exactly the snapshots of the last [maxBackups] calls: their
    number is the smaller of [maxBackups] and the number of calls. *)
Theorem createBackups_retains_the_newest :
  forall cfg userData calls names fs db lo,
    0 <= maxBackups cfg ->
    Backup.dbFile fs = Some db ->
    Backup.uniqueNames (Backup.dirOf fs) ->
    Backup.backupCount cfg fs = 0%nat ->
    Backup.derivedNames cfg calls = map Some names ->
    NoDup names ->
    Backup.risingAfter lo (map snd calls) ->
    let fs' := Backup.createBackups cfg userData calls fs in
    Permutation (Backup.backupNames cfg fs')
                (firstn (Z.to_nat (maxBackups cfg)) (rev names)) /\
    Backup.backupCount cfg fs'
      = Nat.min (Z.to_nat (maxBackups cfg)) (List.length calls).
Proof. exact createBackups_keep_newest. Qed.

Lemma createBackups_retains_the_newest_witness :
  Backup.backupCount (Examples.keeping 3)
    (Backup.createBackups (Examples.keeping 3) Examples.userData
       (map (fun h => let t := Examples.t0 + h * msPerHour in (t, t, t))
            [0; 1; 2; 3; 4])
       Examples.freshFS)
  = Nat.min 3 5.
Proof.
  refine (proj2
    (createBackups_retains_the_newest (Examples.keeping 3) Examples.userData
       (map (fun h => let t := Examples.t0 + h * msPerHour in (t, t, t))
            [0; 1; 2; 3; 4])
       [ "app-backup_2024-01-15_10.db"; "app-backup_2024-01-15_11.db";
         "app-backup_2024-01-15_12.db"; "app-backup_2024-01-15_13.db";
         "app-backup_2024-01-15_14.db" ]
       Examples.freshFS Examples.store 0 _ eq_refl _ eq_refl _ _ _)).
  - vm_compute. discriminate.
  - constructor.
  - vm_compute. reflexivity.
  - repeat (constructor; [simpl; intuition discriminate|]). constructor.
  - vm_compute. repeat split; reflexivity.
Defined.

(** X3.  [createBackup] reports success exactly when the database file
    exists, the backup directory exists or [mkdirSync] does not throw, and
    [copyFileSync] does not throw; what throws inside the pruning does not
    change the report.  A call that fails returns no path and prunes
    nothing: the database file, the files outside the backup directory and
    every entry of the directory other than the destination of the copy are
    as before and no entry is added.  The destination is touched only by a
    copy that throws after opening it, which removes it; otherwise the only
    effect of a failed call is that the directory exists afterwards, unless
    [mkdirSync] threw.  The messages are "Database file not found" and
    "Backup failed: " followed by the error's message. *)
Theorem createBackup_failure_writes_nothing :
  forall cfg userData now1 now2 mt fault fs,
    let r := Backup.createBackup cfg userData now1 now2 mt fault fs in
    (Backup.b_success (fst r) = true <->
     Backup.dbFile fs <> None /\ Backup.mkdirError fault fs = None /\
     Backup.copyError fault = None) /\
    (Backup.b_success (fst r) = false ->
     Backup.b_filePath (fst r) = None /\
     Backup.dbFile (snd r) = Backup.dbFile fs /\
     Backup.otherFiles (snd r) = Backup.otherFiles fs /\
     (forall e, In e (Backup.dirOf (snd r)) -> In e (Backup.dirOf fs)) /\
     (forall n, Backup.derivedFileName cfg now1 now2 <> Some n ->
                Backup.lookupEntry n (Backup.dirOf (snd r))
                = Backup.lookupEntry n (Backup.dirOf fs)) /\
     ((forall err, Backup.copyError fault <> Some (err, true)) ->
      Backup.dirOf (snd r) = Backup.dirOf fs)) /\
    (forall err,
        Backup.mkdirError fault fs = Some err ->
        r = (Backup.failed ("Backup failed: " ++ err), fs)) /\
    (Backup.mkdirError fault fs = None -> Backup.dbFile fs = None ->
     r = (Backup.failed "Database file not found",
          Backup.ensureBackupDir fs)) /\
    (forall db err gone,
        Backup.mkdirError fault fs = None -> Backup.dbFile fs = Some db ->
        Backup.copyError fault = Some (err, gone) ->
        Backup.b_message (fst r) = "Backup failed: " ++ err /\
        (gone = false -> snd r = Backup.ensureBackupDir fs) /\
        (gone = true ->
         forall n, Backup.derivedFileName cfg now1 now2 = Some n ->
                   Backup.lookupEntry n (Backup.dirOf (snd r)) = None)).
Proof.
  intros cfg userData now1 now2 mt fault fs. cbv zeta.
  assert (Edb : Backup.dbFile (Backup.ensureBackupDir fs) = Backup.dbFile fs)
    by (unfold Backup.ensureBackupDir; now destruct (Backup.backupDir fs)).
  assert (Eo : Backup.otherFiles (Backup.ensureBackupDir fs)
               = Backup.otherFiles fs)
    by (unfold Backup.ensureBackupDir; now destruct (Backup.backupDir fs)).
  pose proof (dirOf_ensureBackupDir fs) as Ed.
  assert (Edir : match Backup.backupDir (Backup.ensureBackupDir fs) with
                 | Some d => d
                 | None => []
                 end = Backup.dirOf fs) by exact Ed.
  unfold Backup.createBackup, Backup.derivedFileName.
  rewrite Edb, Edir, timeStrOf_hour. cbn [option_map].
  set (name := Backup.backupFileName cfg (Backup.timestampOf now1)
                 (pad 2 (HourFromTime now2))).
  destruct (Backup.mkdirError fault fs) as [merr|] eqn:Em.
  { cbn [fst snd Backup.b_success Backup.b_filePath Backup.failed].
    split; [split; [discriminate | intros (_ & H & _); discriminate]|].
    split; [intros _; repeat split; auto|].
    split; [intros err [= <-]; reflexivity|].
    split; [discriminate|]. intros db err gone H. discriminate. }
  destruct (Backup.dbFile fs) as [db|] eqn:Hdb.
  2:{ cbn [fst snd Backup.b_success Backup.b_filePath Backup.failed].
      rewrite Edb, Eo, Ed.
      split; [split; [discriminate | intros (H & _); now elim H]|].
      split; [intros _; repeat split; auto|].
      split; [discriminate|]. split; [reflexivity|].
      intros db err gone _ H. discriminate. }
  destruct (Backup.copyError fault) as [[err gone]|] eqn:Ec.
  - cbn [fst snd Backup.b_success Backup.b_filePath Backup.failed
         Backup.b_message].
    split; [split; [discriminate | intros (_ & _ & H); discriminate]|].
    split.
    { intros _. split; [reflexivity|].
      destruct gone; cbn [Backup.dbFile Backup.otherFiles];
        rewrite ?Edb, ?Eo.
      - split; [reflexivity|]. split; [reflexivity|].
        rewrite !dirOf_mk.
        split; [|split].
        + intros e He. unfold Backup.unlinkEntry in He.
          now apply filter_In in He.
        + intros n Hn. unfold Backup.lookupEntry, Backup.unlinkEntry.
          rewrite find_filter; [reflexivity|].
          intros e He. apply String.eqb_eq in He. apply negb_true_iff.
          apply String.eqb_neq. intros E. apply Hn. congruence.
        + intros H. now elim (H err).
      - rewrite Ed. repeat split; auto. }
    split; [discriminate|]. split; [discriminate|].
    intros db' err' gone' _ _ [= <- <-]. split; [reflexivity|].
    split.
    + intros ->. reflexivity.
    + intros -> n [= <-]. rewrite dirOf_mk.
      unfold Backup.lookupEntry, Backup.unlinkEntry.
      now rewrite find_filter_name.
  - cbn [fst snd Backup.b_success Backup.b_filePath].
    split; [split; [intros _; repeat split; discriminate | reflexivity]|].
    split; [discriminate|]. split; [discriminate|].
    split; [discriminate|]. intros db' err gone _ _ H. discriminate.
Qed.

Lemma createBackup_failure_writes_nothing_witness :
  let r := Backup.createBackup AppConfig Examples.userData Examples.t0
             Examples.t0 Examples.t0
             (Some (Backup.CopyThrows "ENOSPC: no space left on device" true))
             Examples.mixedFS in
  Backup.b_message (fst r)
    = "Backup failed: ENOSPC: no space left on device" /\
  Backup.lookupEntry "app-backup_2024-01-15_10.db" (Backup.dirOf (snd r))
    = None /\
  Backup.lookupEntry "app-backup_2024-01-14_09.db" (Backup.dirOf (snd r))
    = Backup.lookupEntry "app-backup_2024-01-14_09.db"
        (Backup.dirOf Examples.mixedFS).
Proof.
  cbv zeta.
  pose proof (createBackup_failure_writes_nothing AppConfig Examples.userData
                Examples.t0 Examples.t0 Examples.t0
                (Some (Backup.CopyThrows "ENOSPC: no space left on device"
                         true))
                Examples.mixedFS) as H.
  cbv zeta in H. destruct H as (_ & Hfail & _ & _ & Hcopy).
  destruct (Hcopy Examples.store "ENOSPC: no space left on device" true
              eq_refl eq_refl eq_refl) as (Hmsg & _ & Hgone).
  split; [exact Hmsg|]. split.
  - apply (Hgone eq_refl). vm_compute. reflexivity.
  - apply Hfail; [vm_compute; reflexivity|].
    vm_compute. discriminate.
Defined.

Section BackupMoreFacts.

Import Backup.

Variable cfg : AppConfigT.
Variable userData : string.

Lemma ensureBackupDir_idem fs :
  ensureBackupDir (ensureBackupDir fs) = ensureBackupDir fs.
Proof.
  unfold ensureBackupDir at 1.
  destruct (backupDir (ensureBackupDir fs)) eqn:E; [reflexivity|].
  unfold ensureBackupDir in E. destruct (backupDir fs) eqn:E'; [|discriminate].
  congruence.
Qed.

Lemma mkdirError_ensured fault fs :
  mkdirError fault (ensureBackupDir fs) = None.
Proof.
  unfold mkdirError, ensureBackupDir.
  destruct (backupDir fs) eqn:E; cbn [backupDir]; [now rewrite E|].
  reflexivity.
Qed.

Lemma createBackup_ensured now1 now2 mt fault fs :
  mkdirError fault fs = None ->
  createBackup cfg userData now1 now2 mt fault (ensureBackupDir fs)
  = createBackup cfg userData now1 now2 mt fault fs.
Proof.
  intros Hm. unfold createBackup.
  now rewrite mkdirError_ensured, Hm, ensureBackupDir_idem.
Qed.

Lemma writeEntry_member name f d : In (name, f) (writeEntry name f d).
Proof.
  induction d as [|[n g] d IH]; cbn [writeEntry]; [now left|].
  destruct (String.eqb n name); [now left | now right].
Qed.

Lemma writeEntry_other name f d e :
  In e (writeEntry name f d) -> fst e <> name -> In e d.
Proof.
  induction d as [|[n g] d IH]; cbn [writeEntry].
  - intros [<-|[]] H. now elim H.
  - destruct (String.eqb_spec n name) as [->|Hne].
    + intros [<-|H] Hn; [now elim Hn | now right].
    + intros [<-|H] Hn; [now left | right; now apply IH].
Qed.

Lemma writeEntry_lookup_other name f d q :
  q <> name -> lookupEntry q (writeEntry name f d) = lookupEntry q d.
Proof.
  intros Hq. unfold lookupEntry.
  induction d as [|[n g] d IH]; cbn [writeEntry find fst].
  - destruct (String.eqb_spec name q); [congruence | reflexivity].
  - destruct (String.eqb_spec n name) as [->|Hne]; cbn [find fst].
    + destruct (String.eqb_spec name q); [congruence | reflexivity].
    + destruct (String.eqb_spec n q); [reflexivity | exact IH].
Qed.

(** The copy just written is not among the files pruning removes, when it
    is newer than the other snapshots and at least one snapshot is kept. *)
Lemma new_copy_not_doomed name f d :
  1 <= maxBackups cfg ->
  uniqueNames d ->
  isBackupFile cfg name = true ->
  (forall e, In e d -> fst e <> name -> matches cfg e = true ->
             mtime (snd e) < mtime f) ->
  named name (doomed cfg userData (writeEntry name f d)) = false.
Proof.
  intros HK Hu Hname Hold.
  set (w := writeEntry name f d).
  assert (Huw : uniqueNames w) by now apply writeEntry_uniqueNames.
  pose proof (backupStats_names_NoDup cfg userData w Huw) as Hnd.
  assert (Hnew : In (statOf userData (name, f)) (backupStats cfg userData w))
    by (apply backupStats_has; [apply writeEntry_member | exact Hname]).
  destruct (backupStats cfg userData w) as [|h rest] eqn:Es; [destruct Hnew|].
  destruct (backupStats_head cfg userData w h rest Es)
    as [[e (He & Hm & Et)] Hmax].
  assert (Hh : s_name h = name).
  { assert (Hin : In h (backupStats cfg userData w)) by (rewrite Es; now left).
    destruct (backupStats_In cfg userData h w Hin) as [e' (He' & Hm' & ->)].
    cbn [statOf s_name].
    destruct (string_dec (fst e') name) as [E|E]; [exact E|].
    exfalso.
    pose proof (Hold e' (writeEntry_other name f d e' He' E) E Hm') as Hlt.
    pose proof (Hmax (name, f) (writeEntry_member name f d) Hname) as Hle.
    cbn [statOf s_time snd] in Hle. lia. }
  destruct (named name (doomed cfg userData w)) eqn:En; [|reflexivity].
  exfalso. apply In_named in En. unfold doomed in En. rewrite Es in En.
  destruct (_ >? _); [|destruct En].
  rewrite slice_nonneg in En by (unfold MAX_BACKUPS; lia).
  cbn [map] in Hnd. rewrite Hh in Hnd. apply NoDup_cons_iff in Hnd as [Hnot _].
  apply Hnot.
  assert (Ek : exists j, Z.to_nat (MAX_BACKUPS cfg) = S j)
    by (exists (Z.to_nat (MAX_BACKUPS cfg - 1)); unfold MAX_BACKUPS; lia).
  destruct Ek as [j Ej]. rewrite Ej in En. cbn [skipn] in En.
  apply in_map_iff in En as [x [Ex Hx]].
  apply in_map_iff. exists x. split; [exact Ex|].
  rewrite <- (firstn_skipn j rest). apply in_or_app. now right.
Qed.

End BackupMoreFacts.

(* ================================================================== *)
(** ** Two snapshots within one hour *)

Section SameHourFacts.

Import Backup.

Variable cfg : AppConfigT.
Variable userData : string.

Lemma lookupEntry_In n f d : lookupEntry n d = Some f -> In n (map fst d).
Proof.
  unfold lookupEntry.
  destruct (find (fun e => String.eqb (fst e) n) d) as [e|] eqn:F;
    [|discriminate].
  intros _. apply find_some in F as [He E]. apply String.eqb_eq in E.
  rewrite <- E. now apply in_map.
Qed.

(** A copy that is newer than every other snapshot is not pruned when
    at least one snapshot is kept. *)
Lemma newest_copy_kept name f d :
  1 <= maxBackups cfg ->
  uniqueNames d ->
  isBackupFile cfg name = true ->
  (forall e, In e d -> fst e <> name -> matches cfg e = true ->
             mtime (snd e) < mtime f) ->
  lookupEntry name (cleanupDir cfg userData (writeEntry name f d)) = Some f.
Proof.
  intros HK Hu Hname Hold.
  rewrite cleanupDir_filter. unfold lookupEntry. rewrite find_filter.
  - apply (writeEntry_lookup name f).
  - intros e He. apply String.eqb_eq in He. rewrite He.
    now rewrite (new_copy_not_doomed cfg userData name f).
Qed.

End SameHourFacts.

(** C10.  Two calls of [createBackup] whose clock readings all lie in the
    same UTC date and hour derive the same path; the second call succeeds,
    and the number of snapshot files after it is the number after the first
    call.  When at least one snapshot is kept and the first copy is newer
    than every other snapshot, the first call leaves its copy under the
    derived name and the second call replaces it in place: the directory
    lists the same names in the same order, the entry of that name holds
    the bytes the database has at the second call and the second
    modification time, and every other entry is as it was. *)
Theorem createBackup_same_hour_overwrites :
  forall cfg userData a1 a2 mtA b1 b2 mtB fs db db',
    0 <= maxBackups cfg ->
    Backup.dbFile fs = Some db ->
    Backup.uniqueNames (Backup.dirOf fs) ->
    sameUtcHour a1 a2 -> sameUtcHour a1 b1 -> sameUtcHour a1 b2 ->
    let callA := Backup.createBackup cfg userData a1 a2 mtA None fs in
    let between := {| Backup.dbFile := Some db';
                      Backup.backupDir := Backup.backupDir (snd callA);
                      Backup.otherFiles := Backup.otherFiles (snd callA) |} in
    let callB := Backup.createBackup cfg userData b1 b2 mtB None between in
    Backup.b_success (fst callA) = true /\
    Backup.b_success (fst callB) = true /\
    (exists name,
        Backup.derivedFileName cfg a1 a2 = Some name /\
        Backup.derivedFileName cfg b1 b2 = Some name /\
        Backup.b_filePath (fst callA)
          = Some (Backup.pathJoin (Backup.BACKUP_DIR userData) name) /\
        Backup.b_filePath (fst callB)
          = Some (Backup.pathJoin (Backup.BACKUP_DIR userData) name) /\
        (In name (map fst (Backup.dirOf (snd callA))) ->
         map fst (Backup.dirOf (snd callB))
           = map fst (Backup.dirOf (snd callA)) /\
         Backup.lookupEntry name (Backup.dirOf (snd callB))
           = Some {| Backup.content := Backup.content db';
                     Backup.mtime := mtB |}) /\
        (1 <= maxBackups cfg ->
         (forall n f, In (n, f) (Backup.dirOf fs) ->
                      Backup.isBackupFile cfg n = true -> n <> name ->
                      Backup.mtime f < mtA) ->
         Backup.lookupEntry name (Backup.dirOf (snd callA))
           = Some {| Backup.content := Backup.content db;
                     Backup.mtime := mtA |} /\
         Backup.dirOf (snd callB)
           = Backup.writeEntry name {| Backup.content := Backup.content db';
                                       Backup.mtime := mtB |}
                               (Backup.dirOf (snd callA)) /\
         map fst (Backup.dirOf (snd callB))
           = map fst (Backup.dirOf (snd callA)) /\
         Backup.lookupEntry name (Backup.dirOf (snd callB))
           = Some {| Backup.content := Backup.content db';
                     Backup.mtime := mtB |} /\
         (forall q, q <> name ->
                    Backup.lookupEntry q (Backup.dirOf (snd callB))
                    = Backup.lookupEntry q (Backup.dirOf (snd callA))))) /\
    Backup.backupCount cfg (snd callB) = Backup.backupCount cfg (snd callA).
Proof.
  intros cfg userData a1 a2 mtA b1 b2 mtB fs db db' HK Hdb Hu HA HB1 HB2.
  destruct (Backup.derivedFileName cfg a1 a2) as [name|] eqn:En;
    [|rewrite derivedFileName_hour in En; discriminate].
  assert (En' : Backup.derivedFileName cfg b1 b2 = Some name)
    by (rewrite <- En; symmetry; now apply derivedFileName_same_hour).
  cbv zeta.
  rewrite (createBackup_ok cfg userData a1 a2 mtA fs db name Hdb En).
  cbn [fst snd Backup.backupDir Backup.otherFiles].
  rewrite (createBackup_ok cfg userData b1 b2 mtB
             {| Backup.dbFile := Some db'; Backup.backupDir := _;
                Backup.otherFiles := _ |} db' name eq_refl En').
  unfold Backup.dirOf, Backup.backupCount.
  cbn [fst snd Backup.b_success Backup.b_filePath Backup.backupDir].
  set (fA := {| Backup.content := Backup.content db; Backup.mtime := mtA |}).
  set (fB := {| Backup.content := Backup.content db'; Backup.mtime := mtB |}).
  set (d0 := match Backup.backupDir fs with Some d => d | None => [] end).
  assert (Hu0 : Backup.uniqueNames d0) by exact Hu.
  set (wA := Backup.writeEntry name fA d0).
  set (dA := Backup.cleanupDir cfg userData wA).
  set (wB := Backup.writeEntry name fB dA).
  assert (HuA : Backup.uniqueNames wA) by now apply writeEntry_uniqueNames.
  assert (HudA : Backup.uniqueNames dA) by now apply cleanupDir_uniqueNames.
  assert (HuB : Backup.uniqueNames wB) by now apply writeEntry_uniqueNames.
  pose proof (cleanupDir_count cfg userData wA HuA HK) as cA.
  pose proof (cleanupDir_count cfg userData wB HuB HK) as cB.
  pose proof (cleanupDir_count_le cfg userData wA HK) as leA.
  fold dA in cA, leA.
  assert (Hin : In name (map fst dA) ->
                Backup.cleanupDir cfg userData wB = wB /\
                map fst wB = map fst dA).
  { intros Hin. split; [|now apply writeEntry_in].
    apply cleanupDir_id. rewrite count_by_names.
    unfold wB. rewrite writeEntry_in by exact Hin.
    rewrite <- count_by_names. exact leA. }
  split; [reflexivity|]. split; [reflexivity|]. split.
  - exists name.
    split; [reflexivity|]. split; [exact En'|].
    split; [reflexivity|]. split; [reflexivity|]. split.
    + intros H. destruct (Hin H) as [-> E].
      split; [exact E | apply writeEntry_lookup].
    + intros HK1 Hnew.
      assert (HkA : Backup.lookupEntry name dA = Some fA).
      { apply newest_copy_kept; try assumption.
        - exact (derivedFileName_matches cfg a1 a2 name En).
        - intros [n g] Hi Hne Hm. cbn [fst snd] in *.
          exact (Hnew n g Hi Hm Hne). }
      destruct (Hin (lookupEntry_In _ _ _ HkA)) as [-> E].
      split; [exact HkA|]. split; [reflexivity|]. split; [exact E|].
      split; [apply writeEntry_lookup|].
      intros q Hq. now apply writeEntry_lookup_other.
  - change (fun e : string * Backup.File => Backup.isBackupFile cfg (fst e))
      with (Backup.matches cfg).
    destruct (in_dec string_dec name (map fst dA)) as [Hi|Ho].
    + destruct (Hin Hi) as [-> E]. now rewrite !count_by_names, E.
    + rewrite cB, cA.
      assert (Hbig : (Z.to_nat (maxBackups cfg)
                      < List.length (filter (Backup.matches cfg) wA))%nat).
      { apply Nat.nle_gt. intros Hle. apply Ho.
        unfold dA. rewrite cleanupDir_id.
        - apply writeEntry_has.
        - lia. }
      assert (EB : List.length (filter (Backup.matches cfg) wB)
                   = S (List.length (filter (Backup.matches cfg) dA))).
      { unfold wB. rewrite writeEntry_out by exact Ho.
        rewrite filter_app, length_app. cbn [filter]. unfold Backup.matches at 2.
        cbn [fst]. rewrite (derivedFileName_matches cfg a1 a2 name En).
        cbn. lia. }
      rewrite EB, cA. unfold Backup.MAX_BACKUPS. lia.
Qed.

Lemma createBackup_same_hour_overwrites_witness :
  let callA := Backup.createBackup (Examples.keeping 1) Examples.userData
                 Examples.t0 Examples.t0 Examples.t0 None Examples.mixedFS in
  let between := {| Backup.dbFile := Some Examples.laterStore;
                    Backup.backupDir := Backup.backupDir (snd callA);
                    Backup.otherFiles := Backup.otherFiles (snd callA) |} in
  let callB := Backup.createBackup (Examples.keeping 1) Examples.userData
                 (Examples.t0 + 1000) (Examples.t0 + 1000)
                 (Examples.t0 + 1000) None between in
  Backup.lookupEntry "app-backup_2024-01-15_10.db" (Backup.dirOf (snd callA))
  = Some {| Backup.content := "SQLite format 3";
            Backup.mtime := Examples.t0 |} /\
  Backup.lookupEntry "app-backup_2024-01-15_10.db" (Backup.dirOf (snd callB))
  = Some {| Backup.content := "SQLite format 3, one row more";
            Backup.mtime := Examples.t0 + 1000 |} /\
  map fst (Backup.dirOf (snd callB)) = map fst (Backup.dirOf (snd callA)) /\
  Backup.backupCount (Examples.keeping 1) (snd callB) = 1%nat.
Proof.
  cbv zeta.
  pose proof (createBackup_same_hour_overwrites (Examples.keeping 1)
                Examples.userData Examples.t0 Examples.t0 Examples.t0
                (Examples.t0 + 1000) (Examples.t0 + 1000) (Examples.t0 + 1000)
                Examples.mixedFS Examples.store Examples.laterStore) as H.
  cbv zeta in H.
  destruct H as (_ & _ & (name & En & _ & _ & _ & _ & Hover) & Hcount).
  - vm_compute. discriminate.
  - reflexivity.
  - apply distinct_NoDup. vm_compute. reflexivity.
  - vm_compute. repeat split; reflexivity.
  - vm_compute. repeat split; reflexivity.
  - vm_compute. repeat split; reflexivity.
  - assert (Ename : Some name = Some "app-backup_2024-01-15_10.db")
      by (rewrite <- En; vm_compute; reflexivity).
    injection Ename as ->.
    destruct Hover as (HA & _ & Hnames & HB & _).
    + vm_compute. discriminate.
    + intros n f Hin _ _.
      assert (Hall : Forall (fun e => Backup.mtime (snd e) < Examples.t0)
                            (Backup.dirOf Examples.mixedFS))
        by (repeat constructor).
      rewrite Forall_forall in Hall. exact (Hall (n, f) Hin).
    + split; [exact HA|]. split; [exact HB|]. split; [exact Hnames|].
      rewrite Hcount. vm_compute. reflexivity.
Defined.

(** X4.  The path a successful [createBackup] returns names a file that
    exists afterwards and holds the database's bytes, provided at least one
    snapshot is kept ([maxBackups >= 1]) and the copy is newer than every
    other snapshot of the directory. *)
Theorem createBackup_returns_an_existing_file :
  forall cfg userData now1 now2 mt fs db,
    1 <= maxBackups cfg ->
    Backup.dbFile fs = Some db ->
    Backup.uniqueNames (Backup.dirOf fs) ->
    (forall n f, In (n, f) (Backup.dirOf fs) ->
                 Backup.isBackupFile cfg n = true ->
                 Backup.derivedFileName cfg now1 now2 <> Some n ->
                 Backup.mtime f < mt) ->
    let r := Backup.createBackup cfg userData now1 now2 mt None fs in
    exists name,
      Backup.b_success (fst r) = true /\
      Backup.b_filePath (fst r)
        = Some (Backup.pathJoin (Backup.BACKUP_DIR userData) name) /\
      Backup.lookupEntry name (Backup.dirOf (snd r))
        = Some {| Backup.content := Backup.content db; Backup.mtime := mt |}.
Proof.
  intros cfg userData now1 now2 mt fs db HK Hdb Hu Hold. cbv zeta.
  destruct (Backup.derivedFileName cfg now1 now2) as [name|] eqn:En;
    [|rewrite derivedFileName_hour in En; discriminate].
  exists name.
  rewrite (createBackup_ok cfg userData now1 now2 mt fs db name Hdb En).
  cbn [fst snd Backup.b_success Backup.b_filePath].
  split; [reflexivity|]. split; [reflexivity|].
  unfold Backup.dirOf at 1. cbn [Backup.backupDir].
  set (f := {| Backup.content := Backup.content db; Backup.mtime := mt |}).
  rewrite cleanupDir_filter. unfold Backup.lookupEntry.
  rewrite find_filter.
  - apply (writeEntry_lookup name f).
  - intros e He. apply String.eqb_eq in He. rewrite He.
    rewrite (new_copy_not_doomed cfg userData name f); try assumption.
    + reflexivity.
    + exact (derivedFileName_matches cfg now1 now2 name En).
    + intros [n g] Hin Hne Hm. cbn [fst snd] in *.
      apply (Hold n g Hin Hm). congruence.
Qed.

Lemma createBackup_returns_an_existing_file_witness :
  exists name,
    Backup.b_success
      (fst (Backup.createBackup AppConfig Examples.userData Examples.t0
              Examples.t0 30 None Examples.mixedFS)) = true /\
    Backup.b_filePath
      (fst (Backup.createBackup AppConfig Examples.userData Examples.t0
              Examples.t0 30 None Examples.mixedFS))
      = Some (Backup.pathJoin (Backup.BACKUP_DIR Examples.userData) name) /\
    Backup.lookupEntry name
      (Backup.dirOf
         (snd (Backup.createBackup AppConfig Examples.userData Examples.t0
                 Examples.t0 30 None Examples.mixedFS)))
      = Some {| Backup.content := Backup.content Examples.store;
                Backup.mtime := 30 |}.
Proof.
  apply (createBackup_returns_an_existing_file AppConfig Examples.userData
           Examples.t0 Examples.t0 30 Examples.mixedFS Examples.store).
  - vm_compute. discriminate.
  - reflexivity.
  - unfold Backup.uniqueNames. cbn.
    repeat (constructor; [simpl; intuition discriminate|]). constructor.
  - intros n f Hin Hm Hne. cbn in Hin.
    destruct Hin as [E|[E|[E|[E|[]]]]]; injection E as <- <-;
      try (vm_compute in Hm; discriminate Hm).
    + vm_compute. reflexivity.
    + exfalso. apply Hne. vm_compute. reflexivity.
Defined.




(** X7.  The startup check does what [createBackup] does when the backup
    directory holds no snapshot file, and when every snapshot file in it is
    older than the startup threshold. *)
Theorem checkAndCreateBackupOnStartup_creates_when_stale :
  forall cfg userData dateNow now1 now2 mt fault fs,
    (forall n f, In (n, f) (Backup.dirOf fs) ->
                 Backup.isBackupFile cfg n = true ->
                 Backup.BACKUP_THRESHOLD cfg < dateNow - Backup.mtime f) ->
    Backup.checkAndCreateBackupOnStartup cfg userData dateNow now1 now2 mt
      fault fs
    = Backup.createBackup cfg userData now1 now2 mt fault fs.
Proof.
  intros cfg userData dateNow now1 now2 mt fault fs Hstale.
  unfold Backup.checkAndCreateBackupOnStartup.
  destruct (Backup.mkdirError fault fs) as [err|] eqn:Hmk; [reflexivity|].
  rewrite getLastBackupTime_eq.
  destruct (Backup.backupStats cfg userData (Backup.dirOf fs))
    as [|h rest] eqn:Es.
  - now apply createBackup_ensured.
  - destruct (backupStats_head cfg userData _ h rest Es)
      as [[[n f] (He & Hm & Et)] _].
    pose proof (Hstale n f He Hm) as Hlt. cbn [snd] in Et. rewrite Et in Hlt.
    destruct (Backup.s_time h =? 0); [now apply createBackup_ensured|].
    destruct (Z.gtb_spec (dateNow - Backup.s_time h)
                         (Backup.BACKUP_THRESHOLD cfg));
      [now apply createBackup_ensured | lia].
Qed.

Lemma checkAndCreateBackupOnStartup_creates_when_stale_witness :
  Backup.checkAndCreateBackupOnStartup AppConfig Examples.userData
    Examples.t0 Examples.t0 Examples.t0 Examples.t0 None Examples.freshFS
  = Backup.createBackup AppConfig Examples.userData Examples.t0 Examples.t0
      Examples.t0 None Examples.freshFS.
Proof.
  apply (checkAndCreateBackupOnStartup_creates_when_stale AppConfig
           Examples.userData Examples.t0 Examples.t0 Examples.t0 Examples.t0
           None Examples.freshFS).
  intros n f Hin. destruct Hin.
Defined.


(** X9.  Pruning a second time removes nothing more: [cleanupOldBackups]
    applied after a pruning that ran to its end gives what that pruning
    gave, whether or not something throws the second time (for a
    [maxBackups] that is not negative). *)
Theorem cleanupOldBackups_twice :
  forall cfg userData fault fs,
    0 <= maxBackups cfg ->
    Backup.cleanupOldBackups cfg userData fault
      (Backup.cleanupOldBackups cfg userData None fs)
    = Backup.cleanupOldBackups cfg userData None fs.
Proof.
  intros cfg userData fault fs HK. unfold Backup.cleanupOldBackups.
  destruct (Backup.backupDir fs) as [d|] eqn:Ed.
  - cbn [Backup.backupDir Backup.dbFile Backup.otherFiles
         Backup.cleanupDirWhen].
    rewrite cleanupDirWhen_id; [reflexivity|].
    now apply cleanupDir_count_le.
  - now rewrite Ed.
Qed.

Lemma cleanupOldBackups_twice_witness :
  Backup.cleanupOldBackups (Examples.keeping 1) Examples.userData None
    (Backup.cleanupOldBackups (Examples.keeping 1) Examples.userData None
       Examples.mixedFS)
  = Backup.cleanupOldBackups (Examples.keeping 1) Examples.userData None
      Examples.mixedFS.
Proof.
  apply (cleanupOldBackups_twice (Examples.keeping 1) Examples.userData
           None Examples.mixedFS).
  vm_compute. discriminate.
Defined.

Section StableSort.

Import Backup.

Lemma sortNewestFirst_same_time t l :
  Forall (fun s => s_time s = t) l -> sortNewestFirst l = l.
Proof.
  induction l as [|x l IH]; intros H; [reflexivity|].
  apply Forall_cons_iff in H as [Hx Hl].
  cbn [sortNewestFirst]. rewrite (IH Hl). apply insertByTime_front.
  eapply Forall_impl; [|exact Hl]. cbn beta. intros y Hy. lia.
Qed.

End StableSort.

(** X10.  The listing [cleanupOldBackups] sorts is newest first, holds each
    snapshot file of the directory once, and keeps snapshot files of equal
    modification time in the order the directory lists them (the sort is
    stable), so that among such files pruning removes the later-listed
    ones. *)
Theorem backupStats_sorted_and_stable :
  forall cfg userData d t,
    Backup.newestFirst (Backup.backupStats cfg userData d) /\
    Permutation (Backup.backupStats cfg userData d)
                (map (Backup.statOf userData)
                     (filter (Backup.matches cfg) d)) /\
    filter (fun s => Backup.s_time s =? t) (Backup.backupStats cfg userData d)
    = map (Backup.statOf userData)
          (filter (fun e => Backup.matches cfg e
                            && (Backup.mtime (snd e) =? t)) d).
Proof.
  intros cfg userData d t. rewrite backupStats_eq.
  split; [apply sortNewestFirst_sorted|].
  split; [apply sortNewestFirst_perm|].
  rewrite <- sortNewestFirst_filter.
  rewrite (sortNewestFirst_same_time t).
  - rewrite filter_map_swap, filter_filter. reflexivity.
  - apply Forall_forall. intros s Hs. apply filter_In in Hs as [_ Hs].
    now apply Z.eqb_eq in Hs.
Qed.

Section ManualBackupFacts.

Import Backup.


End ManualBackupFacts.



Section TimerFacts.

Import Backup.

Lemma noTimers_ok : timersOk noTimers.
Proof. repeat split; cbn; constructor. Qed.

Lemma setInterval_fresh task tm :
  Forall (fun t => (fst t < nextHandle tm)%nat) (activeIntervals tm) ->
  NoDup (map fst (activeIntervals tm)) ->
  Forall (fun t => (fst t < S (nextHandle tm))%nat)
         (activeIntervals tm ++ [(nextHandle tm, task)]) /\
  NoDup (map fst (activeIntervals tm ++ [(nextHandle tm, task)])).
Proof.
  intros Hlt Hnd. split.
  - apply Forall_app. split.
    + eapply Forall_impl; [|exact Hlt]. cbn beta. intros; lia.
    + constructor; [cbn; lia | constructor].
  - rewrite map_app. apply NoDup_app; [exact Hnd | | ].
    + cbn. constructor; [intros [] | constructor].
    + intros a Ha [<-|[]]. apply in_map_iff in Ha as [t [Et Ht]].
      rewrite Forall_forall in Hlt. specialize (Hlt t Ht).
      cbn [fst] in Et. cbn beta in Hlt. lia.
Qed.

Lemma clearInterval_own h tm :
  timersOk tm -> periodicBackupTimer tm = Some h ->
  Forall (fun t => (fst t < nextHandle tm)%nat)
         (activeIntervals (clearInterval h tm)) /\
  NoDup (map fst (activeIntervals (clearInterval h tm))) /\
  filter isPeriodicTick (activeIntervals (clearInterval h tm)) = [] /\
  filter (fun t => negb (isPeriodicTick t))
         (activeIntervals (clearInterval h tm))
  = filter (fun t => negb (isPeriodicTick t)) (activeIntervals tm).
Proof.
  intros (Hlt & Hnd & Hp) Hh. rewrite Hh in Hp.
  unfold clearInterval. cbn [activeIntervals].
  split; [|split; [|split]].
  - apply Forall_forall. intros t Ht. apply filter_In in Ht as [Ht _].
    rewrite Forall_forall in Hlt. now apply Hlt.
  - now apply NoDup_map_filter.
  - rewrite filter_filter.
    rewrite (filter_ext _ (fun t => isPeriodicTick t
                                    && negb (Nat.eqb (fst t) h)))
      by (intros; apply andb_comm).
    rewrite <- filter_filter, Hp. cbn. now rewrite Nat.eqb_refl.
  - rewrite filter_filter. apply filter_ext_in. intros t Ht.
    destruct (Nat.eqb_spec (fst t) h) as [E|E]; [|reflexivity].
    cbn [negb andb].
    destruct (isPeriodicTick t) eqn:Ep; [reflexivity|]. exfalso.
    assert (Hin : In (h, PeriodicBackupTick) (activeIntervals tm)).
    { assert (H : In (h, PeriodicBackupTick)
                     (filter isPeriodicTick (activeIntervals tm)))
        by (rewrite Hp; now left).
      now apply filter_In in H. }
    assert (t = (h, PeriodicBackupTick)).
    { clear Hp Hlt. induction (activeIntervals tm) as [|x l IH];
        [destruct Ht|].
      cbn [map] in Hnd. apply NoDup_cons_iff in Hnd as [Hx Hnd].
      destruct Ht as [->|Ht], Hin as [Hin|Hin].
      - exact Hin.
      - exfalso. apply Hx. rewrite E.
        change h with (fst (h, PeriodicBackupTick)). now apply in_map.
      - exfalso. apply Hx. rewrite Hin. cbn [fst]. rewrite <- E.
        now apply in_map.
      - now apply IH. }
    subst t. discriminate.
Qed.

Lemma startPeriodicBackup_eq tm :
  startPeriodicBackup tm =
  let tm1 := match periodicBackupTimer tm with
             | Some h => clearInterval h tm
             | None => tm
             end in
  {| periodicBackupTimer := Some (nextHandle tm1);
     activeIntervals :=
       activeIntervals tm1 ++ [(nextHandle tm1, PeriodicBackupTick)];
     nextHandle := S (nextHandle tm1) |}.
Proof. reflexivity. Qed.

Lemma startPeriodicBackup_ok tm :
  timersOk tm ->
  timersOk (startPeriodicBackup tm) /\
  filter (fun t => negb (isPeriodicTick t))
         (activeIntervals (startPeriodicBackup tm))
  = filter (fun t => negb (isPeriodicTick t)) (activeIntervals tm).
Proof.
  intros Hok. rewrite startPeriodicBackup_eq. cbv zeta.
  destruct (periodicBackupTimer tm) as [h|] eqn:Eh.
  - destruct (clearInterval_own h tm Hok Eh) as (Hlt & Hnd & Hp & Ho).
    destruct (setInterval_fresh PeriodicBackupTick (clearInterval h tm))
      as [Hlt' Hnd']; [exact Hlt | exact Hnd |].
    unfold timersOk.
    cbn [periodicBackupTimer activeIntervals nextHandle].
    split; [split; [exact Hlt' | split; [exact Hnd'|]]|].
    + rewrite filter_app, Hp. reflexivity.
    + rewrite filter_app, Ho. cbn. now rewrite app_nil_r.
  - destruct Hok as (Hlt & Hnd & Hp). rewrite Eh in Hp.
    destruct (setInterval_fresh PeriodicBackupTick tm Hlt Hnd)
      as [Hlt' Hnd'].
    unfold timersOk.
    cbn [periodicBackupTimer activeIntervals nextHandle].
    split; [split; [exact Hlt' | split; [exact Hnd'|]]|].
    + rewrite filter_app, Hp. reflexivity.
    + rewrite filter_app. cbn. now rewrite app_nil_r.
Qed.

Lemma stopPeriodicBackup_ok tm :
  timersOk tm ->
  timersOk (stopPeriodicBackup tm) /\
  periodicBackupTimer (stopPeriodicBackup tm) = None /\
  filter (fun t => negb (isPeriodicTick t))
         (activeIntervals (stopPeriodicBackup tm))
  = filter (fun t => negb (isPeriodicTick t)) (activeIntervals tm).
Proof.
  intros Hok. unfold stopPeriodicBackup.
  destruct (periodicBackupTimer tm) as [h|] eqn:Eh.
  - destruct (clearInterval_own h tm Hok Eh) as (Hlt & Hnd & Hp & Ho).
    unfold timersOk.
    cbn [periodicBackupTimer activeIntervals nextHandle clearInterval] in *.
    split; [split; [exact Hlt | split; [exact Hnd | exact Hp]]|].
    split; [reflexivity | exact Ho].
  - split; [exact Hok | split; [exact Eh | reflexivity]].
Qed.

Lemma setOther_ok label tm :
  timersOk tm -> timersOk (snd (setInterval (OtherTick label) tm)).
Proof.
  intros (Hlt & Hnd & Hp).
  destruct (setInterval_fresh (OtherTick label) tm Hlt Hnd) as [Hlt' Hnd'].
  unfold timersOk.
  cbn [setInterval snd periodicBackupTimer activeIntervals nextHandle].
  split; [exact Hlt' | split; [exact Hnd'|]].
  rewrite filter_app, Hp. cbn. now rewrite app_nil_r.
Qed.

Lemma runTimers_ok steps tm : timersOk tm -> timersOk (runTimers steps tm).
Proof.
  revert tm. induction steps as [|st steps IH]; intros tm H; [exact H|].
  cbn [runTimers fold_left]. apply IH. destruct st; cbn [timerStep].
  - now apply startPeriodicBackup_ok.
  - now apply stopPeriodicBackup_ok.
  - now apply setOther_ok.
Qed.

End TimerFacts.

(** X12.  Whatever sequence of [startPeriodicBackup], [stopPeriodicBackup]
    and intervals set elsewhere has run since the module was loaded, at most
    one periodic backup timer is active: exactly one, the one recorded in
    [periodicBackupTimer], after a start, and none after a stop.  Neither
    function clears a timer that is not the module's own. *)
Theorem at_most_one_periodic_backup_timer :
  forall steps,
    let tm := Backup.runTimers steps Backup.noTimers in
    let periodic t := filter Backup.isPeriodicTick (Backup.activeIntervals t) in
    let others t :=
      filter (fun x => negb (Backup.isPeriodicTick x))
             (Backup.activeIntervals t) in
    (List.length (periodic tm) <= 1)%nat /\
    periodic tm = match Backup.periodicBackupTimer tm with
                  | Some h => [(h, Backup.PeriodicBackupTick)]
                  | None => []
                  end /\
    List.length (periodic (Backup.startPeriodicBackup tm)) = 1%nat /\
    periodic (Backup.stopPeriodicBackup tm) = [] /\
    others (Backup.startPeriodicBackup tm) = others tm /\
    others (Backup.stopPeriodicBackup tm) = others tm.
Proof.
  intros steps. cbv zeta.
  pose proof (runTimers_ok steps Backup.noTimers noTimers_ok) as Hok.
  set (tm := Backup.runTimers steps Backup.noTimers) in *.
  destruct (startPeriodicBackup_ok tm Hok) as [(_ & _ & Hs) Hso].
  destruct (stopPeriodicBackup_ok tm Hok) as [(_ & _ & Ht) [Hn Hto]].
  destruct Hok as (_ & _ & Hp).
  split; [rewrite Hp; destruct (Backup.periodicBackupTimer tm); cbn; lia|].
  split; [exact Hp|].
  split.
  - rewrite Hs. unfold Backup.startPeriodicBackup.
    now destruct (Backup.periodicBackupTimer tm).
  - split; [now rewrite Ht, Hn|]. now split.
Qed.

(* ================================================================== *)
(** ** Further properties of the authentication module *)

Section AuthMoreFacts.

Import Auth.

Lemma wf_single_user db usr :
  db_wf db -> selectUser1 db = Some usr ->
  auth_user db = [usr] /\ u_id usr = 1.
Proof.
  intros (Hlen & Hids & _) Hsel. unfold selectUser1 in Hsel.
  destruct (auth_user db) as [|u l]; [discriminate|].
  destruct l; [|cbn in Hlen; lia].
  apply Forall_inv in Hids. cbn [find] in Hsel. rewrite Hids in Hsel.
  cbn in Hsel. injection Hsel as <-. now split.
Qed.

Lemma deleteSessionsOfUser1_empties db :
  db_wf db -> auth_sessions (deleteSessionsOfUser1 db) = [].
Proof.
  intros (_ & Hids & _ & Hfk). unfold deleteSessionsOfUser1.
  cbn [auth_sessions]. apply filter_none. intros s Hs.
  rewrite Forall_forall in Hfk. apply Hfk in Hs.
  apply existsb_exists in Hs as [u [Hu Eu]].
  rewrite Forall_forall in Hids. apply Hids in Hu.
  apply Z.eqb_eq in Eu. rewrite <- Eu, Hu. reflexivity.
Qed.

Lemma trimStart_spaces s : allChars isSpace s = true -> trimStart s = "".
Proof.
  induction s as [|c s IH]; [reflexivity|]. cbn [allChars trimStart].
  intros H. apply andb_true_iff in H as [-> H]. now apply IH.
Qed.

Lemma trim_spaces s : allChars isSpace s = true -> trim (toLowerCase s) = "".
Proof.
  intros H. rewrite <- toLowerCase_trim. unfold trim.
  now rewrite trimStart_spaces.
Qed.

(** Setting the date [n] days ahead moves the local time by [n] times 24
    hours. *)
Lemma local_days_ahead n l :
  MakeDate (Day l + n) (TimeWithinDay l) = l + n * msPerDay.
Proof.
  unfold MakeDate, Day, TimeWithinDay.
  pose proof (Z.div_mod l msPerDay) as H.
  assert (Hd : msPerDay <> 0) by (unfold msPerDay; lia).
  specialize (H Hd). lia.
Qed.

Lemma setDateAfter_eq B n t :
  setDateAfter B n t
  = t + n * msPerDay
    + (localTZA B t true - localTZA B (LocalTime B t + n * msPerDay) false).
Proof.
  unfold setDateAfter, UTC. rewrite local_days_ahead.
  unfold LocalTime. lia.
Qed.

Lemma login_accepted B cfg now uuid data db usr :
  db_wf db -> selectUser1 db = Some usr ->
  bcryptCompare B (loginPassword data) (u_password_hash usr) = true ->
  jsToLowerCase B (u_username usr)
    = jsTrim B (jsToLowerCase B (loginUsername data)) ->
  login B cfg now uuid data db =
  if rememberMe data && rememberMeEnabled cfg
  then ({| l_success := true; l_message := "Login successful";
           sessionToken := Some uuid; user := Some (identityOf usr) |},
        {| auth_user := [loggedInRow now usr];
           auth_sessions :=
             [{| s_id := uuid; s_user_id := 1;
                 s_created_at := sqlDatetime now;
                 s_expires_at :=
                   setDateAfter B (sessionExpiryDays cfg) now |}] |})
  else ({| l_success := true; l_message := "Login successful";
           sessionToken := None; user := Some (identityOf usr) |},
        {| auth_user := [loggedInRow now usr];
           auth_sessions := auth_sessions db |}).
Proof.
  intros Hwf Hsel Hpw Hname.
  destruct (wf_single_user db usr Hwf Hsel) as [Eu Eid].
  unfold login, loginAfterCompare. rewrite Hsel, Hpw, Hname, String.eqb_refl.
  cbn [negb].
  assert (Eupd : updateLastLogin now db
                 = {| auth_user := [loggedInRow now usr];
                      auth_sessions := auth_sessions db |}).
  { unfold updateLastLogin. rewrite Eu. cbn [map]. rewrite Eid.
    cbn [Z.eqb Pos.eqb]. unfold loggedInRow. now rewrite Eid. }
  destruct (rememberMe data && rememberMeEnabled cfg); [|now rewrite Eupd].
  assert (Hwf' : db_wf (updateLastLogin now db))
    by now apply updateLastLogin_wf.
  pose proof (deleteSessionsOfUser1_empties _ Hwf') as Hempty.
  unfold insertSession. rewrite Hempty.
  cbn [existsb deleteSessionsOfUser1 auth_user s_user_id].
  rewrite Eupd. cbn [auth_user existsb loggedInRow u_id].
  rewrite Eid. cbn [Z.eqb Pos.eqb orb negb app].
  unfold identityOf. now rewrite Eid.
Qed.

Lemma login_failures_message B cfg now uuid data db usr :
  selectUser1 db = Some usr ->
  (bcryptCompare B (loginPassword data) (u_password_hash usr) = false ->
   login B cfg now uuid data db = (loginFailure "Invalid password", db)) /\
  (bcryptCompare B (loginPassword data) (u_password_hash usr) = true ->
   jsToLowerCase B (u_username usr)
     <> jsTrim B (jsToLowerCase B (loginUsername data)) ->
   login B cfg now uuid data db = (loginFailure "Invalid username", db)).
Proof.
  intros Hu. unfold login, loginAfterCompare. rewrite Hu. split.
  - intros ->. reflexivity.
  - intros -> Hne. apply String.eqb_neq in Hne. rewrite Hne. reflexivity.
Qed.

Lemma login_success_inv B cfg now uuid data db usr :
  selectUser1 db = Some usr ->
  l_success (fst (login B cfg now uuid data db)) = true ->
  bcryptCompare B (loginPassword data) (u_password_hash usr) = true /\
  jsToLowerCase B (u_username usr)
    = jsTrim B (jsToLowerCase B (loginUsername data)).
Proof.
  intros Hsel Hok.
  destruct (login_failures_message B cfg now uuid data db usr Hsel)
    as [H1 H2].
  destruct (bcryptCompare B (loginPassword data) (u_password_hash usr))
    eqn:Hpw.
  - destruct (string_dec (jsToLowerCase B (u_username usr))
                (jsTrim B (jsToLowerCase B (loginUsername data))))
      as [Hn|Hn]; [now split|].
    rewrite (H2 eq_refl Hn) in Hok. discriminate.
  - rewrite (H1 eq_refl) in Hok. discriminate.
Qed.

End AuthMoreFacts.

(** X13.  On a database that satisfies the schema, [createUser] succeeds
    exactly when no user exists, the user name as typed has at least three
    characters and the password at least six.  A rejected call changes
    nothing; an accepted one leaves exactly one user row, so that setup is
    complete.  The user name is checked before the password. *)
Theorem createUser_accepts_exactly_when :
  forall B now salt data db,
    Auth.db_wf db ->
    let r := Auth.createUser B now salt data db in
    (success (fst r) = true <->
     Auth.isSetupComplete db = false /\
     (3 <= Auth.jsLength B (Auth.setupUsername data))%nat /\
     (6 <= Auth.jsLength B (Auth.setupPassword data))%nat) /\
    (success (fst r) = false -> snd r = db) /\
    (success (fst r) = true ->
     Auth.isSetupComplete (snd r) = true /\
     List.length (Auth.auth_user (snd r)) = 1%nat) /\
    (Auth.isSetupComplete db = false ->
     (Auth.jsLength B (Auth.setupUsername data) < 3)%nat ->
     message (fst r) = "Username must be at least 3 characters") /\
    (Auth.isSetupComplete db = false ->
     (3 <= Auth.jsLength B (Auth.setupUsername data))%nat ->
     (Auth.jsLength B (Auth.setupPassword data) < 6)%nat ->
     message (fst r) = "Password must be at least 6 characters").
Proof.
  intros B now salt data db Hwf. cbv zeta.
  unfold Auth.createUser, Auth.createUserChecks.
  destruct (Auth.isSetupComplete db) eqn:Hset.
  - cbn [fst snd success message].
    repeat split; try discriminate; try reflexivity.
    intros [H _]. discriminate.
  - destruct (Nat.ltb_spec (Auth.jsLength B (Auth.setupUsername data)) 3)
      as [Hu|Hu].
    { cbn [fst snd success message].
      repeat split; try discriminate; try reflexivity; try lia. }
    destruct (Nat.ltb_spec (Auth.jsLength B (Auth.setupPassword data)) 6)
      as [Hp|Hp].
    { cbn [fst snd success message].
      repeat split; try discriminate; try reflexivity; try lia. }
    assert (Hnone : Auth.selectUser1 db = None)
      by (unfold Auth.isSetupComplete in Hset;
          now destruct (Auth.selectUser1 db)).
    destruct (wf_no_user db Hwf Hnone) as [Eu Es].
    unfold Auth.createUserInsert, Auth.insertUser. rewrite Eu.
    cbn [Auth.u_id Z.eqb Pos.eqb negb existsb fst snd success message
         Auth.auth_user app List.length].
    repeat split; try discriminate; try reflexivity; try lia.
Qed.

Lemma createUser_accepts_exactly_when_witness :
  success (fst (Auth.createUser Auth.exampleRuntime Examples.t0 "c2FsdA"
                  Examples.aliceSetup Auth.emptyDB)) = true.
Proof.
  apply (proj1 (createUser_accepts_exactly_when Auth.exampleRuntime Examples.t0
                  "c2FsdA" Examples.aliceSetup Auth.emptyDB emptyDB_wf)).
  split; [reflexivity|]. split; cbn; lia.
Defined.

(** X14.  [createUser] checks the length of the user name before it trims
    it: a user name of three or more white-space characters is accepted (with
    a password of six or more characters, when no user exists) and the
    account is stored under the empty user name.  The strings are strings
    of code units below 256, with the white space among them. *)
Theorem createUser_checks_length_before_trimming :
  forall B now salt data db,
    Auth.Latin1Strings B ->
    Auth.db_wf db ->
    Auth.isSetupComplete db = false ->
    allChars isSpace (Auth.setupUsername data) = true ->
    (3 <= String.length (Auth.setupUsername data))%nat ->
    (6 <= String.length (Auth.setupPassword data))%nat ->
    let r := Auth.createUser B now salt data db in
    success (fst r) = true /\
    map Auth.u_username (Auth.auth_user (snd r)) = [""].
Proof.
  intros B now salt data db HL Hwf Hset Hsp Hu Hp. cbv zeta.
  assert (Hnone : Auth.selectUser1 db = None)
    by (unfold Auth.isSetupComplete in Hset;
        now destruct (Auth.selectUser1 db)).
  destruct (wf_no_user db Hwf Hnone) as [Eu Es].
  unfold Auth.createUser, Auth.createUserChecks. rewrite Hset.
  rewrite (proj1 (HL (Auth.setupUsername data))),
    (proj1 (HL (Auth.setupPassword data))).
  destruct (Nat.ltb_spec (String.length (Auth.setupUsername data)) 3); [lia|].
  destruct (Nat.ltb_spec (String.length (Auth.setupPassword data)) 6); [lia|].
  unfold Auth.createUserInsert, Auth.insertUser.
  rewrite (proj1 (proj2 (HL (Auth.setupUsername data)))),
    (proj2 (proj2 (HL (toLowerCase (Auth.setupUsername data))))).
  rewrite Eu, (trim_spaces _ Hsp).
  cbn [Auth.u_id Z.eqb Pos.eqb negb existsb fst snd success
       Auth.auth_user app map Auth.u_username].
  now split.
Qed.

Lemma createUser_checks_length_before_trimming_witness :
  map Auth.u_username
    (Auth.auth_user
       (snd (Auth.createUser Auth.exampleRuntime Examples.t0 "c2FsdA"
               {| Auth.setupUsername := "   ";
                  Auth.setupPassword := "secret1" |} Auth.emptyDB)))
  = [""].
Proof.
  refine (proj2
    (createUser_checks_length_before_trimming Auth.exampleRuntime Examples.t0
       "c2FsdA"
       {| Auth.setupUsername := "   "; Auth.setupPassword := "secret1" |}
       Auth.emptyDB (runtimeIn_Latin1Strings _) emptyDB_wf eq_refl eq_refl
       _ _)); cbn; lia.
Defined.

(** X15.  On a database that satisfies the schema, [login] succeeds exactly
    when a user exists, the password verifies against the stored hash and the
    lower-cased stored user name equals the lower-cased, trimmed name that
    was typed.  A failed login changes nothing in the database and returns
    neither a token nor a user. *)
Theorem login_succeeds_exactly_when :
  forall B cfg now uuid data db,
    Auth.db_wf db ->
    let r := Auth.login B cfg now uuid data db in
    (Auth.l_success (fst r) = true <->
     exists usr,
       Auth.selectUser1 db = Some usr /\
       Auth.bcryptCompare B (Auth.loginPassword data)
                          (Auth.u_password_hash usr) = true /\
       Auth.jsToLowerCase B (Auth.u_username usr)
         = Auth.jsTrim B (Auth.jsToLowerCase B (Auth.loginUsername data))) /\
    (Auth.l_success (fst r) = false ->
     snd r = db /\ Auth.sessionToken (fst r) = None /\
     Auth.user (fst r) = None) /\
    (Auth.selectUser1 db = None ->
     Auth.l_message (fst r)
       = "No account exists. Please set up your account first.").
Proof.
  intros B cfg now uuid data db Hwf. cbv zeta.
  destruct (Auth.selectUser1 db) as [usr|] eqn:Hsel.
  - destruct (Auth.bcryptCompare B (Auth.loginPassword data)
                                 (Auth.u_password_hash usr)) eqn:Hpw.
    + destruct (string_dec (Auth.jsToLowerCase B (Auth.u_username usr))
                  (Auth.jsTrim B (Auth.jsToLowerCase B (Auth.loginUsername data)))) as [Hn|Hn].
      * rewrite (login_accepted B cfg now uuid data db usr Hwf Hsel Hpw Hn).
        destruct (Auth.rememberMe data && rememberMeEnabled cfg);
          cbn [fst snd Auth.l_success];
          (split; [split; [intros _; now exists usr | reflexivity]|]);
          (split; [discriminate | discriminate]).
      * destruct (login_failures_message B cfg now uuid data db usr Hsel)
          as [_ H2]. rewrite (H2 Hpw Hn). cbn [fst snd Auth.l_success
          Auth.sessionToken Auth.user].
        split; [split; [discriminate|]|].
        -- intros [u' (Hu' & _ & Hn')]. congruence.
        -- split; [now intros _ | discriminate].
    + destruct (login_failures_message B cfg now uuid data db usr Hsel)
        as [H1 _]. rewrite (H1 Hpw). cbn [fst snd Auth.l_success
        Auth.sessionToken Auth.user].
      split; [split; [discriminate|]|].
      * intros [u' (Hu' & Hpw' & _)]. congruence.
      * split; [now intros _ | discriminate].
  - unfold Auth.login. rewrite Hsel.
    cbn [fst snd Auth.l_success Auth.sessionToken Auth.user Auth.l_message
         Auth.loginFailure].
    split; [split; [discriminate|]|].
    + intros [u' (Hu' & _)]. discriminate.
    + split; [now intros _ | reflexivity].
Qed.

Lemma login_succeeds_exactly_when_witness :
  Auth.l_success
    (fst (Auth.login Auth.exampleRuntime AppConfig (Examples.t0 + 5000)
            "token-1"
            {| Auth.loginUsername := " Alice"; Auth.loginPassword := "secret1";
               Auth.rememberMe := false |} Examples.provisionedDB)) = true.
Proof.
  apply (proj1 (login_succeeds_exactly_when Auth.exampleRuntime AppConfig
                  (Examples.t0 + 5000) "token-1"
                  {| Auth.loginUsername := " Alice";
                     Auth.loginPassword := "secret1";
                     Auth.rememberMe := false |} Examples.provisionedDB
                  (createUser_wf Auth.exampleRuntime Examples.t0 "c2FsdA"
                     Examples.aliceSetup Auth.emptyDB emptyDB_wf))).
  eexists. split; [reflexivity|]. split; reflexivity.
Defined.

(** X16.  An accepted login stamps [last_login] of the user row with the
    time of the login and changes nothing else in the row, while the identity
    it returns carries the [last_login] from before.  With "remember me"
    requested and enabled it replaces all sessions by one new session whose
    id is the returned token and whose expiry is the login time with the
    date set [sessionExpiryDays] days ahead in local time: that many times
    24 hours after the login, corrected by the change of the zone's offset
    in between.  Otherwise it returns no token and leaves the sessions
    alone. *)
Theorem login_stamps_and_issues_one_session :
  forall B cfg now uuid data db usr,
    Auth.db_wf db ->
    Auth.selectUser1 db = Some usr ->
    Auth.l_success (fst (Auth.login B cfg now uuid data db)) = true ->
    let r := Auth.login B cfg now uuid data db in
    let days := sessionExpiryDays cfg in
    Auth.user (fst r) = Some (Auth.identityOf usr) /\
    Auth.auth_user (snd r) = [Auth.loggedInRow now usr] /\
    (Auth.rememberMe data && rememberMeEnabled cfg = true ->
     Auth.sessionToken (fst r) = Some uuid /\
     Auth.auth_sessions (snd r)
       = [{| Auth.s_id := uuid; Auth.s_user_id := 1;
             Auth.s_created_at := sqlDatetime now;
             Auth.s_expires_at := Auth.setDateAfter B days now |}] /\
     Auth.setDateAfter B days now
       = now + days * msPerDay
         + (Auth.localTZA B now true
            - Auth.localTZA B (Auth.LocalTime B now + days * msPerDay)
                            false)) /\
    (Auth.rememberMe data && rememberMeEnabled cfg = false ->
     Auth.sessionToken (fst r) = None /\
     Auth.auth_sessions (snd r) = Auth.auth_sessions db).
Proof.
  intros B cfg now uuid data db usr Hwf Hsel Hok. cbv zeta.
  destruct (login_success_inv B cfg now uuid data db usr Hsel Hok)
    as [Hpw Hn].
  rewrite (login_accepted B cfg now uuid data db usr Hwf Hsel Hpw Hn).
  destruct (Auth.rememberMe data && rememberMeEnabled cfg);
    cbn [fst snd Auth.user Auth.sessionToken Auth.auth_user
         Auth.auth_sessions].
  - split; [reflexivity|]. split; [reflexivity|].
    split; [|discriminate]. intros _.
    split; [reflexivity|]. split; [reflexivity|]. apply setDateAfter_eq.
  - split; [reflexivity|]. split; [reflexivity|].
    split; [discriminate|]. intros _. now split.
Qed.

Lemma login_stamps_and_issues_one_session_witness :
  Auth.auth_sessions
    (snd (Auth.login Examples.newYorkRuntime AppConfig Examples.march1
            "token-1"
            {| Auth.loginUsername := "ALICE "; Auth.loginPassword := "secret1";
               Auth.rememberMe := true |} Examples.provisionedDB))
  = [{| Auth.s_id := "token-1"; Auth.s_user_id := 1;
        Auth.s_created_at := "2024-03-01 12:00:00";
        Auth.s_expires_at := Examples.march1 + 30 * msPerDay - msPerHour |}].
Proof.
  refine (proj1 (proj2 (proj1 (proj2 (proj2
    (login_stamps_and_issues_one_session Examples.newYorkRuntime AppConfig
       Examples.march1 "token-1"
       {| Auth.loginUsername := "ALICE "; Auth.loginPassword := "secret1";
          Auth.rememberMe := true |} Examples.provisionedDB
       {| Auth.u_id := 1; Auth.u_username := "alice";
          Auth.u_password_hash := "secret1$2a$12$c2FsdA";
          Auth.u_created_at := "2024-01-15 10:30:45";
          Auth.u_last_login := None |}
       (createUser_wf Auth.exampleRuntime Examples.t0 "c2FsdA"
          Examples.aliceSetup Auth.emptyDB emptyDB_wf)
       eq_refl eq_refl))) eq_refl))).
Defined.

(** X17.  The token of a remember-me login validates from the login on up
    to and including its expiry, which is the login time with the date set
    [sessionExpiryDays] days ahead in local time, each time returning the
    user's identity and changing nothing; the first validation after the
    expiry is refused and leaves the session table empty.  When the zone's
    offset is the same at both ends the expiry is [sessionExpiryDays] times
    24 hours after the login. *)
Theorem remembered_session_validates_until_expiry :
  forall B cfg now uuid data db usr t,
    Auth.db_wf db ->
    Auth.selectUser1 db = Some usr ->
    Auth.l_success (fst (Auth.login B cfg now uuid data db)) = true ->
    Auth.rememberMe data && rememberMeEnabled cfg = true ->
    let db' := snd (Auth.login B cfg now uuid data db) in
    let expiry := Auth.setDateAfter B (sessionExpiryDays cfg) now in
    (t <= expiry ->
     Auth.validateSession t uuid db'
     = ({| Auth.valid := true;
           Auth.sessionUser :=
             Some (Auth.identityOf (Auth.loggedInRow now usr)) |}, db')) /\
    (expiry < t ->
     fst (Auth.validateSession t uuid db')
       = {| Auth.valid := false; Auth.sessionUser := None |} /\
     Auth.auth_sessions (snd (Auth.validateSession t uuid db')) = []) /\
    (Auth.localTZA B now true
     = Auth.localTZA B (Auth.LocalTime B now
                        + sessionExpiryDays cfg * msPerDay) false ->
     expiry = now + sessionExpiryDays cfg * msPerDay).
Proof.
  intros B cfg now uuid data db usr t Hwf Hsel Hok Hrem. cbv zeta.
  destruct (wf_single_user db usr Hwf Hsel) as [_ Eid].
  destruct (login_success_inv B cfg now uuid data db usr Hsel Hok)
    as [Hpw Hn].
  rewrite (login_accepted B cfg now uuid data db usr Hwf Hsel Hpw Hn), Hrem.
  cbn [snd]. unfold Auth.validateSession, Auth.selectSession.
  cbn [Auth.auth_sessions Auth.auth_user flat_map Auth.s_id Auth.s_user_id
       filter Auth.loggedInRow Auth.u_id].
  rewrite String.eqb_refl, Eid.
  cbn [Z.eqb Pos.eqb map app hd_error Auth.s_expires_at].
  split; [|split]; intros Ht.
  - destruct (Z.ltb_spec (Auth.setDateAfter B (sessionExpiryDays cfg) now) t);
      [lia|]. unfold Auth.identityOf, Auth.loggedInRow. cbn. now rewrite Eid.
  - destruct (Z.ltb_spec (Auth.setDateAfter B (sessionExpiryDays cfg) now) t);
      [|lia]. cbn [fst snd Auth.deleteSession Auth.auth_sessions filter
                   Auth.s_id].
    now rewrite String.eqb_refl.
  - rewrite setDateAfter_eq. lia.
Qed.

Lemma remembered_session_validates_until_expiry_witness :
  let db' := snd (Auth.login Examples.newYorkRuntime AppConfig Examples.march1
                    "token-1"
                    {| Auth.loginUsername := "ALICE ";
                       Auth.loginPassword := "secret1";
                       Auth.rememberMe := true |} Examples.provisionedDB) in
  Auth.valid (fst (Auth.validateSession
                     (Examples.march1 + 30 * msPerDay - msPerHour)
                     "token-1" db')) = true /\
  Auth.valid (fst (Auth.validateSession
                     (Examples.march1 + 30 * msPerDay - msPerHour / 2)
                     "token-1" db')) = false.
Proof.
  cbv zeta.
  pose proof (fun t => remembered_session_validates_until_expiry
       Examples.newYorkRuntime AppConfig
       Examples.march1 "token-1"
       {| Auth.loginUsername := "ALICE "; Auth.loginPassword := "secret1";
          Auth.rememberMe := true |} Examples.provisionedDB
       {| Auth.u_id := 1; Auth.u_username := "alice";
          Auth.u_password_hash := "secret1$2a$12$c2FsdA";
          Auth.u_created_at := "2024-01-15 10:30:45";
          Auth.u_last_login := None |}
       t
       (createUser_wf Auth.exampleRuntime Examples.t0 "c2FsdA"
          Examples.aliceSetup Auth.emptyDB emptyDB_wf)
       eq_refl eq_refl eq_refl) as H.
  cbv zeta in H. split.
  - rewrite (proj1 (H _)); [reflexivity|]. vm_compute. discriminate.
  - assert (Hlt : Auth.setDateAfter Examples.newYorkRuntime
                    (sessionExpiryDays AppConfig) Examples.march1
                  < Examples.march1 + 30 * msPerDay - msPerHour / 2)
      by (vm_compute; reflexivity).
    now rewrite (proj1 (proj1 (proj2 (H _)) Hlt)).
Defined.

Section AuthSessionFacts.

Import Auth.

Lemma selectSession_deleteSession_other t t' db :
  t' <> t ->
  selectSession t' (deleteSession t db) = selectSession t' db.
Proof.
  intros Hne. unfold selectSession, deleteSession.
  cbn [auth_sessions auth_user]. f_equal.
  induction (auth_sessions db) as [|x l IH]; [reflexivity|].
  cbn [filter flat_map].
  destruct (String.eqb_spec (s_id x) t) as [E|E]; cbn [negb flat_map].
  - rewrite IH. destruct (String.eqb_spec (s_id x) t'); [congruence|].
    reflexivity.
  - now rewrite IH.
Qed.

Lemma filter_idem {X : Type} (p : X -> bool) l :
  filter p (filter p l) = filter p l.
Proof.
  rewrite filter_filter. apply filter_ext. intros x. now destruct (p x).
Qed.

Lemma compare_cons_same c x y :
  String.compare (String c x) (String c y) = String.compare x y.
Proof.
  cbn [String.compare]. unfold Ascii.compare. now rewrite N.compare_refl.
Qed.

Lemma compare_app_prefix p x y :
  String.compare (p ++ x) (p ++ y) = String.compare x y.
Proof.
  induction p as [|c p IH]; [reflexivity|].
  cbn [append]. now rewrite compare_cons_same.
Qed.

(** On the UTC day of its expiry the stored text of [expires_at] is not
    below [datetime('now')]: after the common date, 'T' stands against
    the space. *)
Lemma iso_not_below_datetime_same_day e now :
  0 <= YearFromTime e <= 9999 ->
  YearFromTime e = YearFromTime now ->
  MonthFromTime e = MonthFromTime now ->
  DateFromTime e = DateFromTime now ->
  String.ltb (toISOString e) (sqlDatetime now) = false.
Proof.
  intros Hy Ey Em Ed. unfold String.ltb, toISOString, sqlDatetime, isoDate.
  unfold isoYear.
  destruct (Z.leb_spec 0 (YearFromTime e)); [|lia].
  destruct (Z.leb_spec (YearFromTime e) 9999); [|lia]. cbn [andb].
  rewrite Ey, Em, Ed. rewrite !append_assoc.
  repeat match goal with
  | |- context [String.compare ("-" ++ ?x) ("-" ++ ?y)] =>
      change (String.compare ("-" ++ x) ("-" ++ y))
        with (String.compare (String "-" x) (String "-" y));
      rewrite compare_cons_same
  | |- context [String.compare (pad ?w ?n ++ ?x) (pad ?w ?n ++ ?y)] =>
      rewrite (compare_app_prefix (pad w n))
  end.
  reflexivity.
Qed.

Lemma sessions_le_one_filter p db :
  (List.length (auth_sessions db) <= 1)%nat ->
  (List.length (filter p (auth_sessions db)) <= 1)%nat.
Proof.
  intros H. pose proof (filter_length_le p (auth_sessions db)). lia.
Qed.

Lemma loginAfterCompare_sessions B cfg now uuid data usr ok db :
  db_wf db ->
  (List.length (auth_sessions db) <= 1)%nat ->
  (List.length
     (auth_sessions (snd (loginAfterCompare B cfg now uuid data usr ok db)))
   <= 1)%nat.
Proof.
  intros Hwf Hle. unfold loginAfterCompare.
  destruct ok; cbn [negb]; [|exact Hle].
  destruct (String.eqb _ _); cbn [negb]; [|exact Hle].
  destruct (rememberMe data && rememberMeEnabled cfg); [|exact Hle].
  pose proof (deleteSessionsOfUser1_empties _ (updateLastLogin_wf now db Hwf))
    as He.
  unfold insertSession. rewrite He. cbn [existsb].
  destruct (existsb _ _); cbn [negb snd auth_sessions].
  - cbn. lia.
  - rewrite He. cbn. lia.
Qed.

Lemma step_sessions B cfg db st :
  db_wf db ->
  (List.length (auth_sessions db) <= 1)%nat ->
  (List.length (auth_sessions (step B cfg db st)) <= 1)%nat.
Proof.
  intros Hwf Hle. destruct st; cbn [step].
  - unfold createUser. destruct (createUserChecks B data db); [exact Hle|].
    unfold createUserInsert.
    destruct (insertUser _ db) as [err|db'] eqn:E; cbn [snd]; [exact Hle|].
    unfold insertUser in E.
    repeat match type of E with
           | (if ?c then _ else _) = _ => destruct c; [discriminate|]
           end.
    injection E as <-. exact Hle.
  - unfold createUserInsert.
    destruct (insertUser _ db) as [err|db'] eqn:E; cbn [snd]; [exact Hle|].
    unfold insertUser in E.
    repeat match type of E with
           | (if ?c then _ else _) = _ => destruct c; [discriminate|]
           end.
    injection E as <-. exact Hle.
  - unfold login. destruct (selectUser1 db); [|exact Hle].
    now apply loginAfterCompare_sessions.
  - now apply loginAfterCompare_sessions.
  - unfold logout. cbn [snd].
    destruct token as [[|c t]|]; try exact Hle.
    now apply sessions_le_one_filter.
  - unfold validateSession.
    destruct (selectSession token db) as [[s u]|]; [|exact Hle].
    destruct (s_expires_at s <? now); [|exact Hle].
    now apply sessions_le_one_filter.
  - unfold changePassword. destruct (selectUser1 db); [|exact Hle].
    destruct (bcryptCompare B _ _); cbn [negb]; [|exact Hle].
    destruct (jsLength B (newPassword data) <? 6)%nat; [exact Hle|].
    unfold changePasswordApply. cbn [snd].
    now apply sessions_le_one_filter.
  - unfold changePasswordApply. cbn [snd].
    now apply sessions_le_one_filter.
  - now apply sessions_le_one_filter.
Qed.

Lemma run_sessions B cfg steps db :
  db_wf db ->
  (List.length (auth_sessions db) <= 1)%nat ->
  (List.length (auth_sessions (run B cfg steps db)) <= 1)%nat.
Proof.
  revert db. induction steps as [|st steps IH]; intros db Hwf Hle;
    [exact Hle|].
  cbn [run fold_left]. apply IH; [now apply step_wf|].
  now apply step_sessions.
Qed.

End AuthSessionFacts.

(** X18.  [logout] always reports success and never touches the user row.
    With a token it deletes the rows of that token and no others: the token
    no longer validates, every other token validates as before, and a second
    logout with the same token changes nothing.  Without a token (or with
    the empty one) it changes nothing. *)
Theorem logout_revokes_only_its_token :
  forall token db,
    let r := Auth.logout token db in
    fst r = {| success := true; message := "Logged out successfully" |} /\
    Auth.auth_user (snd r) = Auth.auth_user db /\
    (forall c t now,
        token = Some (String c t) ->
        Auth.validateSession now (String c t) (snd r)
        = ({| Auth.valid := false; Auth.sessionUser := None |}, snd r)) /\
    (forall c t other now,
        token = Some (String c t) -> other <> String c t ->
        fst (Auth.validateSession now other (snd r))
        = fst (Auth.validateSession now other db)) /\
    (token = None \/ token = Some "" -> snd r = db) /\
    snd (Auth.logout token (snd r)) = snd r.
Proof.
  intros token db. cbv zeta. unfold Auth.logout. cbn [fst snd].
  split; [reflexivity|].
  destruct token as [[|c t]|].
  - repeat split; try reflexivity; intros; discriminate.
  - split; [reflexivity|]. split; [|split; [|split]].
    + intros c' t' now [= <- <-]. unfold Auth.validateSession.
      rewrite selectSession_absent; [reflexivity|].
      intros s. apply deleteSession_gone.
    + intros c' t' other now [= <- <-] Hne. unfold Auth.validateSession.
      rewrite (selectSession_deleteSession_other _ _ db Hne).
      destruct (Auth.selectSession other db) as [[s u]|]; [|reflexivity].
      now destruct (Auth.s_expires_at s <? now).
    + intros [H|H]; discriminate.
    + unfold Auth.deleteSession. cbn [Auth.auth_sessions Auth.auth_user].
      now rewrite filter_idem.
  - repeat split; try reflexivity; intros; discriminate.
Qed.

Lemma logout_revokes_only_its_token_witness :
  Auth.validateSession (Examples.t0 + 6000) "token-1"
    (snd (Auth.logout (Some "token-1") Examples.rememberedDB))
  = ({| Auth.valid := false; Auth.sessionUser := None |},
     snd (Auth.logout (Some "token-1") Examples.rememberedDB)).
Proof.
  exact (proj1 (proj2 (proj2
    (logout_revokes_only_its_token (Some "token-1") Examples.rememberedDB)))
    "t"%char "oken-1" (Examples.t0 + 6000) eq_refl).
Defined.

(** X19.  [validateSession] never changes the user table.  When it answers
    valid it has changed nothing, and the identity it returns is that of a
    stored user row joined to a stored session of that token which has not
    expired.  For a token without a session row it answers invalid and
    changes nothing; an invalid answer never carries a user. *)
Theorem validateSession_answers_from_stored_rows :
  forall now token db,
    let r := Auth.validateSession now token db in
    Auth.auth_user (snd r) = Auth.auth_user db /\
    (Auth.valid (fst r) = true ->
     snd r = db /\
     exists s u,
       In s (Auth.auth_sessions db) /\ Auth.s_id s = token /\
       now <= Auth.s_expires_at s /\
       In u (Auth.auth_user db) /\ Auth.u_id u = Auth.s_user_id s /\
       Auth.sessionUser (fst r) = Some (Auth.identityOf u)) /\
    (Auth.valid (fst r) = false -> Auth.sessionUser (fst r) = None) /\
    ((forall s, In s (Auth.auth_sessions db) -> Auth.s_id s <> token) ->
     r = ({| Auth.valid := false; Auth.sessionUser := None |}, db)).
Proof.
  intros now token db. cbv zeta. unfold Auth.validateSession.
  destruct (Auth.selectSession token db) as [[s u]|] eqn:Hsel.
  - apply selectSession_sound in Hsel as (Hs & Hid & Hu & Huid).
    destruct (Z.ltb_spec (Auth.s_expires_at s) now) as [Hlt|Hge];
      cbn [fst snd Auth.valid Auth.sessionUser Auth.deleteSession
           Auth.auth_user].
    + split; [reflexivity|]. split; [discriminate|].
      split; [reflexivity|]. intros Hnone. now apply Hnone in Hs.
    + split; [reflexivity|]. split.
      * intros _. split; [reflexivity|]. exists s, u. now repeat split.
      * split; [discriminate|]. intros Hnone. now apply Hnone in Hs.
  - cbn [fst snd Auth.valid Auth.sessionUser].
    split; [reflexivity|]. split; [discriminate|]. now split.
Qed.

Lemma validateSession_answers_from_stored_rows_witness :
  Auth.validateSession (Examples.t0 + 6000) "no-such-token"
    Examples.rememberedDB
  = ({| Auth.valid := false; Auth.sessionUser := None |},
     Examples.rememberedDB).
Proof.
  apply (proj2 (proj2 (proj2
    (validateSession_answers_from_stored_rows (Examples.t0 + 6000)
       "no-such-token" Examples.rememberedDB)))).
  intros s [<-|[]]. cbn. discriminate.
Defined.

(** X20.  The periodic sweep compares the stored ISO text of [expires_at]
    with the text of [datetime('now')].  A session is therefore never swept
    on the UTC day of its expiry, however long ago on that day it expired
    (for years 0 to 9999): after the common date the 'T' of the ISO text
    stands against the space of the SQL text.  The sweep only removes
    session rows and never touches the user table. *)
Theorem cleanupExpiredSessions_spares_the_day_of_expiry :
  forall now db s,
    In s (Auth.auth_sessions db) ->
    0 <= YearFromTime (Auth.s_expires_at s) <= 9999 ->
    YearFromTime (Auth.s_expires_at s) = YearFromTime now ->
    MonthFromTime (Auth.s_expires_at s) = MonthFromTime now ->
    DateFromTime (Auth.s_expires_at s) = DateFromTime now ->
    In s (Auth.auth_sessions (Auth.cleanupExpiredSessions now db)) /\
    Auth.auth_user (Auth.cleanupExpiredSessions now db) = Auth.auth_user db /\
    (forall s', In s' (Auth.auth_sessions
                         (Auth.cleanupExpiredSessions now db)) ->
                In s' (Auth.auth_sessions db)).
Proof.
  intros now db s Hs Hy Ey Em Ed.
  unfold Auth.cleanupExpiredSessions, Auth.deleteExpiredSessions.
  cbn [Auth.auth_sessions Auth.auth_user].
  split; [|split; [reflexivity|]].
  - apply filter_In. split; [exact Hs|].
    now rewrite iso_not_below_datetime_same_day.
  - intros s' Hs'. now apply filter_In in Hs'.
Qed.

Lemma cleanupExpiredSessions_spares_the_day_of_expiry_witness :
  Examples.expiry < Examples.expiry + 12 * msPerHour /\
  In {| Auth.s_id := "token-1"; Auth.s_user_id := 1;
        Auth.s_created_at := "2024-01-15 10:30:50";
        Auth.s_expires_at := Examples.expiry |}
     (Auth.auth_sessions
        (Auth.cleanupExpiredSessions (Examples.expiry + 12 * msPerHour)
           Examples.rememberedDB)).
Proof.
  split; [vm_compute; reflexivity|].
  refine (proj1
    (cleanupExpiredSessions_spares_the_day_of_expiry
       (Examples.expiry + 12 * msPerHour) Examples.rememberedDB
       {| Auth.s_id := "token-1"; Auth.s_user_id := 1;
          Auth.s_created_at := "2024-01-15 10:30:50";
          Auth.s_expires_at := Examples.expiry |}
       (or_introl eq_refl) _ _ _ _)).
  - vm_compute. split; discriminate.
  - vm_compute. reflexivity.
  - vm_compute. reflexivity.
  - vm_compute. reflexivity.
Defined.

(** X21.  [changePassword] succeeds exactly when a user exists, the current
    password verifies against the stored hash and the new password has at
    least six characters.  A refused call changes nothing.  The current
    password is checked first: a wrong current password is reported as
    "Current password is incorrect" also when the new password is too
    short. *)
Theorem changePassword_succeeds_exactly_when :
  forall B salt data db,
    let r := Auth.changePassword B salt data db in
    (success (fst r) = true <->
     exists usr,
       Auth.selectUser1 db = Some usr /\
       Auth.bcryptCompare B (Auth.currentPassword data)
                          (Auth.u_password_hash usr) = true /\
       (6 <= Auth.jsLength B (Auth.newPassword data))%nat) /\
    (success (fst r) = false -> snd r = db) /\
    (Auth.selectUser1 db = None -> message (fst r) = "No account exists") /\
    (forall usr,
        Auth.selectUser1 db = Some usr ->
        Auth.bcryptCompare B (Auth.currentPassword data)
                           (Auth.u_password_hash usr) = false ->
        message (fst r) = "Current password is incorrect") /\
    (forall usr,
        Auth.selectUser1 db = Some usr ->
        Auth.bcryptCompare B (Auth.currentPassword data)
                           (Auth.u_password_hash usr) = true ->
        (Auth.jsLength B (Auth.newPassword data) < 6)%nat ->
        message (fst r) = "New password must be at least 6 characters").
Proof.
  intros B salt data db. cbv zeta. unfold Auth.changePassword.
  destruct (Auth.selectUser1 db) as [usr|].
  - destruct (Auth.bcryptCompare B (Auth.currentPassword data)
                                 (Auth.u_password_hash usr)) eqn:Hpw;
      cbn [negb].
    + destruct (Nat.ltb_spec (Auth.jsLength B (Auth.newPassword data)) 6)
        as [Hl|Hl]; cbn [fst snd success message Auth.changePasswordApply].
      * split; [split; [discriminate|]|].
        -- intros [u (_ & _ & H)]. lia.
        -- split; [reflexivity|]. split; [discriminate|].
           split; [intros u [= <-] H; congruence | reflexivity].
      * split; [split; [intros _; now exists usr | reflexivity]|].
        split; [discriminate|]. split; [discriminate|].
        split; [intros u [= <-] H; congruence | intros; lia].
    + cbn [fst snd success message].
      split; [split; [discriminate|]|].
      * intros [u (E & H & _)]. congruence.
      * split; [reflexivity|]. split; [discriminate|].
        split; [reflexivity | intros u [= <-] H; congruence].
  - cbn [fst snd success message].
    split; [split; [discriminate|]|].
    + intros [u (E & _)]. discriminate.
    + split; [reflexivity|]. split; [reflexivity|].
      split; intros; discriminate.
Qed.

Lemma changePassword_succeeds_exactly_when_witness :
  message (fst (Auth.changePassword Auth.exampleRuntime "bmV3"
                  {| Auth.currentPassword := "wrong";
                     Auth.newPassword := "abc" |} Examples.provisionedDB))
  = "Current password is incorrect".
Proof.
  exact (proj1 (proj2 (proj2 (proj2
    (changePassword_succeeds_exactly_when Auth.exampleRuntime "bmV3"
       {| Auth.currentPassword := "wrong"; Auth.newPassword := "abc" |}
       Examples.provisionedDB))))
    {| Auth.u_id := 1; Auth.u_username := "alice";
       Auth.u_password_hash := "secret1$2a$12$c2FsdA";
       Auth.u_created_at := "2024-01-15 10:30:45";
       Auth.u_last_login := None |} eq_refl eq_refl).
Defined.

(** X22.  After a successful [changePassword] the user row differs from the
    one before in its password hash only, and a login with the new password
    (and the user's name) succeeds and returns the same identity as
    before the change. *)
Theorem login_with_the_new_password :
  forall B cfg salt data db usr now uuid ldata,
    Auth.db_wf db ->
    Auth.selectUser1 db = Some usr ->
    success (fst (Auth.changePassword B salt data db)) = true ->
    Auth.bcryptCompare B (Auth.newPassword data)
      (Auth.bcryptHash B (Auth.newPassword data) Auth.SALT_ROUNDS salt)
      = true ->
    Auth.loginPassword ldata = Auth.newPassword data ->
    Auth.jsToLowerCase B (Auth.u_username usr)
      = Auth.jsTrim B (Auth.jsToLowerCase B (Auth.loginUsername ldata)) ->
    let db' := snd (Auth.changePassword B salt data db) in
    Auth.auth_user db'
      = [{| Auth.u_id := Auth.u_id usr;
            Auth.u_username := Auth.u_username usr;
            Auth.u_password_hash :=
              Auth.bcryptHash B (Auth.newPassword data) Auth.SALT_ROUNDS salt;
            Auth.u_created_at := Auth.u_created_at usr;
            Auth.u_last_login := Auth.u_last_login usr |}] /\
    Auth.l_success (fst (Auth.login B cfg now uuid ldata db')) = true /\
    Auth.user (fst (Auth.login B cfg now uuid ldata db'))
      = Some (Auth.identityOf usr).
Proof.
  intros B cfg salt data db usr now uuid ldata Hwf Hsel Hok Hb Hpw Hn.
  cbv zeta.
  pose proof (changePassword_wf B salt data db Hwf) as Hwf'.
  destruct (wf_single_user db usr Hwf Hsel) as [Eu Eid].
  assert (E : snd (Auth.changePassword B salt data db)
              = Auth.deleteSessionsOfUser1
                  (Auth.updatePasswordHash
                     (Auth.bcryptHash B (Auth.newPassword data)
                                      Auth.SALT_ROUNDS salt) db)).
  { revert Hok. unfold Auth.changePassword. rewrite Hsel.
    destruct (Auth.bcryptCompare B (Auth.currentPassword data)
                                 (Auth.u_password_hash usr));
      cbn [negb fst success]; [|discriminate].
    destruct (Auth.jsLength B (Auth.newPassword data) <? 6)%nat;
      cbn [fst success]; [discriminate | reflexivity]. }
  rewrite E in *.
  set (row := {| Auth.u_id := Auth.u_id usr;
                 Auth.u_username := Auth.u_username usr;
                 Auth.u_password_hash :=
                   Auth.bcryptHash B (Auth.newPassword data)
                                   Auth.SALT_ROUNDS salt;
                 Auth.u_created_at := Auth.u_created_at usr;
                 Auth.u_last_login := Auth.u_last_login usr |}).
  assert (Eusers : Auth.auth_user
                     (Auth.deleteSessionsOfUser1
                        (Auth.updatePasswordHash
                           (Auth.bcryptHash B (Auth.newPassword data)
                                            Auth.SALT_ROUNDS salt) db))
                   = [row]).
  { cbn [Auth.deleteSessionsOfUser1 Auth.updatePasswordHash Auth.auth_user].
    rewrite Eu. cbn [map].
    destruct (Z.eqb_spec (Auth.u_id usr) 1); [reflexivity | contradiction]. }
  split; [exact Eusers|].
  assert (Hsel' : Auth.selectUser1
                    (Auth.deleteSessionsOfUser1
                       (Auth.updatePasswordHash
                          (Auth.bcryptHash B (Auth.newPassword data)
                                           Auth.SALT_ROUNDS salt) db))
                  = Some row).
  { unfold Auth.selectUser1. rewrite Eusers. cbn [find Auth.u_id].
    subst row. cbn [Auth.u_id].
    destruct (Z.eqb_spec (Auth.u_id usr) 1); [reflexivity | contradiction]. }
  rewrite (login_accepted B cfg now uuid ldata _ row Hwf' Hsel').
  - destruct (Auth.rememberMe ldata && rememberMeEnabled cfg);
      cbn [fst Auth.l_success Auth.user]; split; reflexivity.
  - cbn [row Auth.u_password_hash]. now rewrite Hpw.
  - exact Hn.
Qed.

Lemma login_with_the_new_password_witness :
  Auth.l_success
    (fst (Auth.login Auth.exampleRuntime AppConfig (Examples.t0 + 9000)
            "token-2"
            {| Auth.loginUsername := "alice";
               Auth.loginPassword := "newpass1"; Auth.rememberMe := true |}
            (snd (Auth.changePassword Auth.exampleRuntime "bmV3"
                    {| Auth.currentPassword := "secret1";
                       Auth.newPassword := "newpass1" |}
                    Examples.provisionedDB)))) = true.
Proof.
  exact (proj1 (proj2
    (login_with_the_new_password Auth.exampleRuntime AppConfig "bmV3"
       {| Auth.currentPassword := "secret1"; Auth.newPassword := "newpass1" |}
       Examples.provisionedDB
       {| Auth.u_id := 1; Auth.u_username := "alice";
          Auth.u_password_hash := "secret1$2a$12$c2FsdA";
          Auth.u_created_at := "2024-01-15 10:30:45";
          Auth.u_last_login := None |}
       (Examples.t0 + 9000) "token-2"
       {| Auth.loginUsername := "alice"; Auth.loginPassword := "newpass1";
          Auth.rememberMe := true |}
       (createUser_wf Auth.exampleRuntime Examples.t0 "c2FsdA"
          Examples.aliceSetup Auth.emptyDB emptyDB_wf)
       eq_refl eq_refl eq_refl eq_refl eq_refl))).
Defined.

(** X23.  Whatever operations have run since the tables were created,
    interleaved at their awaits or not, the session table holds at most one
    row; a row it holds belongs to user 1, a user row exists with it, and the
    schema's constraints hold. *)
Theorem at_most_one_session_row :
  forall B cfg steps,
    let db := Auth.run B cfg steps (Auth.initDatabase None) in
    (List.length (Auth.auth_sessions db) <= 1)%nat /\
    (forall s, In s (Auth.auth_sessions db) ->
               Auth.s_user_id s = 1 /\ Auth.isSetupComplete db = true) /\
    Auth.db_wf db.
Proof.
  intros B cfg steps. cbv zeta. cbn [Auth.initDatabase].
  pose proof (run_wf B cfg steps Auth.emptyDB emptyDB_wf) as Hwf.
  split; [apply run_sessions; [exact emptyDB_wf | cbn; lia]|].
  split; [|exact Hwf].
  intros s Hs. destruct Hwf as (_ & Hids & _ & Hfk).
  rewrite Forall_forall in Hfk. apply Hfk in Hs.
  apply existsb_exists in Hs as [u [Hu Eu]].
  rewrite Forall_forall in Hids. pose proof (Hids u Hu) as Hid.
  apply Z.eqb_eq in Eu. split; [congruence|].
  unfold Auth.isSetupComplete, Auth.selectUser1.
  destruct (find _ _) eqn:Ef; [reflexivity|]. exfalso.
  apply (find_none _ _ Ef) in Hu. rewrite Hid in Hu. discriminate.
Qed.

(* ================================================================== *)
(** ** The items module *)

Section ItemsFacts.

Import Items.

Lemma map_id_update (f : ItemRow -> ItemRow) l :
  (forall r, i_id (f r) = i_id r) -> map i_id (map f l) = map i_id l.
Proof.
  intros H. rewrite map_map. apply map_ext. exact H.
Qed.

Lemma categoryExists_same st st' c :
  categories st' = categories st ->
  categoryExists st' c = categoryExists st c.
Proof. unfold categoryExists. now intros ->. Qed.

Lemma rowViolation_none st r :
  rowViolation st r = None <->
  statusOk (i_status r) = true /\ categoryExists st (i_category_id r) = true.
Proof.
  unfold rowViolation.
  destruct (statusOk (i_status r)); cbn [negb];
    [|split; [discriminate | intros [H _]; discriminate]].
  destruct (categoryExists st (i_category_id r)); cbn [negb];
    [now split | split; [discriminate | intros [_ H]; discriminate]].
Qed.

Lemma insertItem_inr r st st' :
  insertItem r st = inr st' ->
  st' = {| items := items st ++ [r]; categories := categories st |} /\
  statusOk (i_status r) = true /\
  ~ In (i_id r) (map i_id (items st)) /\
  categoryExists st (i_category_id r) = true.
Proof.
  unfold insertItem.
  destruct (statusOk (i_status r)); cbn [negb]; [|discriminate].
  destruct (existsb _ (items st)) eqn:Ex; [discriminate|].
  destruct (categoryExists st (i_category_id r)); cbn [negb]; [|discriminate].
  intros [= <-]. repeat split.
  intros Hin. apply in_map_iff in Hin as [x [Ex' Hx]].
  assert (existsb (fun x0 => (i_id x0 =? i_id r)%string) (items st) = true)
    by (apply existsb_exists; exists x; split;
        [exact Hx | now apply String.eqb_eq]).
  congruence.
Qed.

Lemma insertItem_ok r st :
  statusOk (i_status r) = true ->
  ~ In (i_id r) (map i_id (items st)) ->
  categoryExists st (i_category_id r) = true ->
  insertItem r st
  = inr {| items := items st ++ [r]; categories := categories st |}.
Proof.
  intros Hs Hid Hc. unfold insertItem. rewrite Hs, Hc. cbn [negb].
  destruct (existsb _ (items st)) eqn:Ex; [|reflexivity].
  exfalso. apply Hid. apply existsb_exists in Ex as [x [Hx E]].
  apply String.eqb_eq in E. rewrite <- E. now apply in_map.
Qed.

Lemma storeOk_items_app st r :
  storeOk st ->
  statusOk (i_status r) = true ->
  ~ In (i_id r) (map i_id (items st)) ->
  categoryExists st (i_category_id r) = true ->
  storeOk {| items := items st ++ [r]; categories := categories st |}.
Proof.
  intros (H1 & H2 & H3 & H4) Hs Hid Hc.
  repeat split; cbn [items categories]; try assumption.
  - rewrite map_app. apply NoDup_app; [exact H1 | | ].
    + cbn. constructor; [intros [] | constructor].
    + intros a Ha [<-|[]]. contradiction.
  - apply Forall_app. split.
    + eapply Forall_impl; [|exact H4]. cbn beta. intros x [Hx1 Hx2].
      split; [exact Hx1|]. now rewrite (categoryExists_same st).
    + constructor; [|constructor]. split; [exact Hs|].
      now rewrite (categoryExists_same st).
Qed.

Lemma find_by_id_app_new id r l :
  ~ In (i_id r) (map i_id l) ->
  find (fun x => String.eqb (i_id x) id) (l ++ [r])
  = if String.eqb (i_id r) id then Some r
    else find (fun x => String.eqb (i_id x) id) l.
Proof.
  intros Hnew. induction l as [|x l IH]; cbn [app find].
  - now destruct (String.eqb (i_id r) id).
  - destruct (String.eqb_spec (i_id x) id) as [E|E].
    + destruct (String.eqb_spec (i_id r) id) as [E'|E']; [|reflexivity].
      exfalso. apply Hnew. left. congruence.
    + apply IH. intros H. apply Hnew. now right.
Qed.

Lemma getItemById_same_tables id st st' :
  categories st' = categories st ->
  find (fun x => String.eqb (i_id x) id) (items st')
  = find (fun x => String.eqb (i_id x) id) (items st) ->
  getItemById id st' = getItemById id st.
Proof. unfold getItemById. now intros -> ->. Qed.

End ItemsFacts.

(** X24.  On a store that satisfies the schema, [createItem] succeeds
    exactly when the new id is not in use, the status (by default "active")
    is "active" or "inactive" and the category, if one is given, exists.
    A successful call returns the stored item: the name as given, a missing
    or empty description and category as null, a missing quantity as 0, and
    [getItemById] finds it under its id while every other id reads as
    before.  A failing call stores nothing. *)
Theorem createItem_stores_what_getItemById_reads :
  forall now uuid data st,
    Items.storeOk st ->
    let r := Items.createItem now uuid data st in
    let newRow :=
      {| Items.i_id := uuid;
         Items.i_name := Items.new_name data;
         Items.i_description := Items.orNull (Items.new_description data);
         Items.i_category_id := Items.orNull (Items.new_category_id data);
         Items.i_quantity := Items.orZero (Items.new_quantity data);
         Items.i_status := Items.orDefault (Items.new_status data) "active";
         Items.i_created_at := sqlDatetime now;
         Items.i_updated_at := sqlDatetime now |} in
    (Items.ir_success (fst r) = true <->
     ~ In uuid (map Items.i_id (Items.items st)) /\
     Items.statusOk (Items.orDefault (Items.new_status data) "active") = true /\
     Items.categoryExists st (Items.orNull (Items.new_category_id data))
       = true) /\
    (Items.ir_success (fst r) = false ->
     snd r = st /\ Items.ir_item (fst r) = None) /\
    (Items.ir_success (fst r) = true ->
     Items.storeOk (snd r) /\
     Items.ir_item (fst r) = Items.getItemById uuid (snd r) /\
     (exists cname, Items.ir_item (fst r)
                    = Some {| Items.row := newRow;
                              Items.category_name := cname |}) /\
     (forall id, id <> uuid ->
                 Items.getItemById id (snd r) = Items.getItemById id st)).
Proof.
  intros now uuid data st Hok. cbv zeta. unfold Items.createItem.
  set (newRow := {| Items.i_id := uuid;
                    Items.i_name := Items.new_name data;
                    Items.i_description :=
                      Items.orNull (Items.new_description data);
                    Items.i_category_id :=
                      Items.orNull (Items.new_category_id data);
                    Items.i_quantity := Items.orZero (Items.new_quantity data);
                    Items.i_status :=
                      Items.orDefault (Items.new_status data) "active";
                    Items.i_created_at := sqlDatetime now;
                    Items.i_updated_at := sqlDatetime now |}).
  destruct (Items.insertItem newRow st) as [err|st'] eqn:E.
  - cbn [fst snd Items.ir_success Items.ir_item].
    split; [split; [discriminate|]|].
    + intros (Hid & Hs & Hc).
      rewrite (insertItem_ok newRow st Hs Hid Hc) in E. discriminate.
    + split; [now split | discriminate].
  - destruct (insertItem_inr newRow st st' E) as (-> & Hs & Hid & Hc).
    cbn [fst snd Items.ir_success Items.ir_item].
    split; [split; [intros _; now repeat split | reflexivity]|].
    split; [discriminate|]. intros _.
    split; [now apply storeOk_items_app|]. split; [reflexivity|].
    split.
    + unfold Items.getItemById. cbn [Items.items].
      rewrite (find_by_id_app_new uuid newRow (Items.items st) Hid).
      cbn [Items.i_id newRow]. rewrite String.eqb_refl. eexists. reflexivity.
    + intros id Hne. apply getItemById_same_tables; [reflexivity|].
      cbn [Items.items].
      rewrite (find_by_id_app_new id newRow (Items.items st) Hid).
      cbn [Items.i_id newRow].
      destruct (String.eqb_spec uuid id); [congruence | reflexivity].
Qed.

Section StoreOkFacts.

Import Items.

Lemma storeOkb_sound st : storeOkb st = true -> storeOk st.
Proof.
  unfold storeOkb, storeOk. intros H.
  apply andb_true_iff in H as [H H4]. apply andb_true_iff in H as [H H3].
  apply andb_true_iff in H as [H1 H2].
  split; [now apply distinct_NoDup|]. split; [now apply distinct_NoDup|].
  split; [now apply distinct_NoDup|].
  apply Forall_forall. intros r Hr.
  rewrite forallb_forall in H4. apply andb_true_iff. exact (H4 r Hr).
Qed.

End StoreOkFacts.

Lemma createItem_stores_what_getItemById_reads_witness :
  Items.getItemById "item-1" Examples.stockedShop
  = Some {| Items.row :=
              {| Items.i_id := "item-1"; Items.i_name := "Desk lamp";
                 Items.i_description := None;
                 Items.i_category_id := Some "cat-2";
                 Items.i_quantity := 0; Items.i_status := "active";
                 Items.i_created_at := "2024-01-15 10:30:46";
                 Items.i_updated_at := "2024-01-15 10:30:46" |};
            Items.category_name := Some "Electronics" |}.
Proof.
  assert (Hok : Items.storeOk Examples.shop).
  { apply storeOkb_sound. vm_compute. reflexivity. }
  pose proof (proj1 (proj2 (proj2 (proj2
    (createItem_stores_what_getItemById_reads (Examples.t0 + 1000) "item-1"
       Examples.lampData Examples.shop Hok)) eq_refl))) as H.
  unfold Examples.stockedShop. rewrite <- H. vm_compute. reflexivity.
Defined.

Section ItemsMoreFacts.

Import Items.

Lemma filter_by_id_unique l r :
  NoDup (map i_id l) -> In r l ->
  filter (fun x => String.eqb (i_id x) (i_id r)) l = [r].
Proof.
  induction l as [|x l IH]; intros Hnd Hin; [destruct Hin|].
  cbn [map] in Hnd. apply NoDup_cons_iff in Hnd as [Hx Hnd].
  cbn [filter]. destruct Hin as [->|Hin].
  - rewrite String.eqb_refl. f_equal. apply filter_none.
    intros y Hy. apply String.eqb_neq. intros E. apply Hx.
    rewrite <- E. now apply in_map.
  - destruct (String.eqb_spec (i_id x) (i_id r)) as [E|E].
    + exfalso. apply Hx. rewrite E. now apply in_map.
    + now apply IH.
Qed.

Lemma filter_by_id_absent l id :
  ~ In id (map i_id l) -> filter (fun x => String.eqb (i_id x) id) l = [].
Proof.
  intros H. apply filter_none. intros x Hx. apply String.eqb_neq.
  intros E. apply H. rewrite <- E. now apply in_map.
Qed.

Lemma find_update_hit id (f : ItemRow -> ItemRow) l r :
  (forall x, i_id (f x) = i_id x) ->
  NoDup (map i_id l) -> In r l -> i_id r = id ->
  find (fun x => String.eqb (i_id x) id)
       (map (fun x => if String.eqb (i_id x) id then f x else x) l)
  = Some (f r).
Proof.
  intros Hf. induction l as [|x l IH]; intros Hnd Hin Hid; [destruct Hin|].
  cbn [map] in Hnd. apply NoDup_cons_iff in Hnd as [Hx Hnd].
  cbn [map find]. destruct (String.eqb_spec (i_id x) id) as [E|E].
  - rewrite Hf, E, String.eqb_refl. destruct Hin as [->|Hin]; [reflexivity|].
    exfalso. apply Hx. rewrite E, <- Hid. now apply in_map.
  - destruct (String.eqb_spec (i_id x) id); [contradiction|].
    destruct Hin as [->|Hin]; [contradiction|]. now apply IH.
Qed.

Lemma find_update_other id id' (f : ItemRow -> ItemRow) l :
  (forall x, i_id (f x) = i_id x) -> id' <> id ->
  find (fun x => String.eqb (i_id x) id')
       (map (fun x => if String.eqb (i_id x) id then f x else x) l)
  = find (fun x => String.eqb (i_id x) id') l.
Proof.
  intros Hf Hne. induction l as [|x l IH]; [reflexivity|].
  cbn [map find]. destruct (String.eqb_spec (i_id x) id) as [E|E].
  - rewrite Hf. destruct (String.eqb_spec (i_id x) id'); [congruence|].
    exact IH.
  - destruct (String.eqb (i_id x) id'); [reflexivity | exact IH].
Qed.

(** The outcome of [updateItem] when some field is given and the id names
    the stored row [old]. *)
Lemma updateItem_hit now data st old :
  storeOk st -> hasUpdates data = true ->
  In old (items st) -> i_id old = upd_id data ->
  updateItem now data st =
  match rowViolation st (updatedRow now data old) with
  | Some err =>
      ({| ir_success := false;
          ir_message := "Failed to update item: " ++ err;
          ir_item := None |}, st)
  | None =>
      let st' := {| items := map (fun r =>
                                    if String.eqb (i_id r) (upd_id data)
                                    then updatedRow now data r else r)
                                 (items st);
                    categories := categories st |} in
      ({| ir_success := true; ir_message := "Item updated successfully";
          ir_item := getItemById (upd_id data) st' |}, st')
  end.
Proof.
  intros (Hnd & _) Hup Hin Hid. unfold updateItem. rewrite Hup. cbn [negb].
  rewrite <- Hid, (filter_by_id_unique (items st) old Hnd Hin).
  cbn [find].
  destruct (rowViolation st (updatedRow now data old)) eqn:E.
  - now rewrite E.
  - reflexivity.
Qed.

Lemma updateItem_storeOk now data st :
  storeOk st -> storeOk (snd (updateItem now data st)).
Proof.
  intros Hok.
  destruct (hasUpdates data) eqn:Hup;
    [|unfold updateItem; rewrite Hup; exact Hok].
  destruct (in_dec string_dec (upd_id data) (map i_id (items st)))
    as [Hin|Hout].
  - apply in_map_iff in Hin as [old [Hid Hin]].
    rewrite (updateItem_hit now data st old Hok Hup Hin Hid).
    destruct (rowViolation st (updatedRow now data old)) eqn:Ev;
      [exact Hok|].
    apply rowViolation_none in Ev as [Hs Hc].
    destruct Hok as (H1 & H2 & H3 & H4). cbn [snd].
    repeat split; cbn [items categories]; try assumption.
    + rewrite map_id_update; [exact H1|].
      intros x. now destruct (String.eqb (i_id x) (upd_id data)).
    + apply Forall_forall. intros x Hx.
      apply in_map_iff in Hx as [y [<- Hy]].
      rewrite Forall_forall in H4.
      destruct (String.eqb_spec (i_id y) (upd_id data)) as [E|E].
      * assert (y = old) as ->.
        { pose proof (filter_by_id_unique (items st) old H1 Hin) as Hf.
          assert (Hy' : In y (filter (fun x => String.eqb (i_id x) (i_id old))
                                     (items st)))
            by (apply filter_In; split; [exact Hy|];
                apply String.eqb_eq; congruence).
          rewrite Hf in Hy'. destruct Hy' as [<-|[]]. reflexivity. }
        split; [exact Hs | exact Hc].
      * exact (H4 y Hy).
  - unfold updateItem. rewrite Hup. cbn [negb].
    rewrite (filter_by_id_absent (items st) (upd_id data) Hout).
    exact Hok.
Qed.

End ItemsMoreFacts.

(** X25.  [updateItem] refuses a call that names no field ("No fields to
    update") and a call for an id that is not stored ("Item not found"),
    changing nothing.  For a stored item it writes the fields that are given
    and no others: the id and the creation time stay, the update time is set,
    an empty category id clears the category, an empty description is stored
    as the empty text.  The new row is what [getItemById] then reads, every
    other item reads as before; if the new status is not "active" or
    "inactive", or the new category does not exist, nothing is changed. *)
Theorem updateItem_writes_only_the_given_fields :
  forall now data st,
    let r := Items.updateItem now data st in
    (Items.hasUpdates data = false ->
     r = ({| Items.ir_success := false;
             Items.ir_message := "No fields to update";
             Items.ir_item := None |}, st)) /\
    (Items.hasUpdates data = true ->
     ~ In (Items.upd_id data) (map Items.i_id (Items.items st)) ->
     r = ({| Items.ir_success := false; Items.ir_message := "Item not found";
             Items.ir_item := None |}, st)) /\
    (forall old,
        Items.storeOk st -> Items.hasUpdates data = true ->
        In old (Items.items st) -> Items.i_id old = Items.upd_id data ->
        let new := Items.updatedRow now data old in
        (Items.i_id new = Items.i_id old /\
         Items.i_created_at new = Items.i_created_at old /\
         Items.i_updated_at new = sqlDatetime now /\
         (Items.upd_name data = None -> Items.i_name new = Items.i_name old) /\
         (Items.upd_description data = None ->
          Items.i_description new = Items.i_description old) /\
         (Items.upd_description data = Some "" ->
          Items.i_description new = Some "") /\
         (Items.upd_category_id data = None ->
          Items.i_category_id new = Items.i_category_id old) /\
         (Items.upd_category_id data = Some "" ->
          Items.i_category_id new = None) /\
         (Items.upd_quantity data = None ->
          Items.i_quantity new = Items.i_quantity old) /\
         (Items.upd_status data = None ->
          Items.i_status new = Items.i_status old)) /\
        (Items.statusOk (Items.i_status new) = true ->
         Items.categoryExists st (Items.i_category_id new) = true ->
         Items.ir_success (fst r) = true /\
         Items.storeOk (snd r) /\
         (exists cname,
             Items.ir_item (fst r)
             = Some {| Items.row := new; Items.category_name := cname |} /\
             Items.getItemById (Items.upd_id data) (snd r)
             = Items.ir_item (fst r)) /\
         (forall id, id <> Items.upd_id data ->
                     Items.getItemById id (snd r) = Items.getItemById id st) /\
         List.length (Items.items (snd r)) = List.length (Items.items st)) /\
        (Items.statusOk (Items.i_status new) = false \/
         Items.categoryExists st (Items.i_category_id new) = false ->
         Items.ir_success (fst r) = false /\ snd r = st)).
Proof.
  intros now data st. cbv zeta. split; [|split].
  - intros Hup. unfold Items.updateItem. now rewrite Hup.
  - intros Hup Hout. unfold Items.updateItem. rewrite Hup. cbn [negb].
    now rewrite (filter_by_id_absent (Items.items st) _ Hout).
  - intros old Hok Hup Hin Hid.
    rewrite (updateItem_hit now data st old Hok Hup Hin Hid).
    split; [|split].
    + unfold Items.updatedRow.
      cbn [Items.i_id Items.i_created_at Items.i_updated_at Items.i_name
           Items.i_description Items.i_category_id Items.i_quantity
           Items.i_status].
      repeat split; try reflexivity; intros ->; reflexivity.
    + intros Hs Hc.
      assert (Ev : Items.rowViolation st (Items.updatedRow now data old)
                   = None) by (apply rowViolation_none; now split).
      rewrite Ev. cbv zeta.
      cbn [fst snd Items.ir_success Items.ir_item Items.items].
      split; [reflexivity|]. split.
      * pose proof (updateItem_storeOk now data st Hok) as H.
        rewrite (updateItem_hit now data st old Hok Hup Hin Hid), Ev in H.
        exact H.
      * split; [|split].
        -- unfold Items.getItemById. cbn [Items.items Items.categories].
           destruct Hok as (Hnd & _).
           rewrite (find_update_hit (Items.upd_id data)
                      (Items.updatedRow now data) (Items.items st) old);
             try assumption; [|reflexivity].
           eexists. split; reflexivity.
        -- intros id Hne. apply getItemById_same_tables; [reflexivity|].
           cbn [Items.items]. now apply find_update_other.
        -- now rewrite length_map.
    + intros Hbad.
      destruct (Items.rowViolation st (Items.updatedRow now data old)) eqn:Ev.
      * now split.
      * apply rowViolation_none in Ev as [Hs Hc].
        destruct Hbad as [H|H]; congruence.
Qed.

Lemma updateItem_writes_only_the_given_fields_witness :
  Items.ir_success
    (fst (Items.updateItem (Examples.t0 + 2000)
            {| Items.upd_id := "item-1"; Items.upd_name := None;
               Items.upd_description := None;
               Items.upd_category_id := Some "";
               Items.upd_quantity := Some 4; Items.upd_status := None |}
            Examples.stockedShop)) = true.
Proof.
  assert (Hok : Items.storeOk Examples.stockedShop).
  { apply storeOkb_sound. vm_compute. reflexivity. }
  refine (proj1 (proj1 (proj2
    (proj2 (proj2
      (updateItem_writes_only_the_given_fields (Examples.t0 + 2000)
         {| Items.upd_id := "item-1"; Items.upd_name := None;
            Items.upd_description := None;
            Items.upd_category_id := Some "";
            Items.upd_quantity := Some 4; Items.upd_status := None |}
         Examples.stockedShop))
      {| Items.i_id := "item-1"; Items.i_name := "Desk lamp";
         Items.i_description := None; Items.i_category_id := Some "cat-2";
         Items.i_quantity := 0; Items.i_status := "active";
         Items.i_created_at := "2024-01-15 10:30:46";
         Items.i_updated_at := "2024-01-15 10:30:46" |}
      Hok eq_refl (or_introl eq_refl) eq_refl)) eq_refl eq_refl)).
Defined.

Section ItemsCallFacts.

Import Items.

Lemma existsb_eqb_In {X : Type} (f : X -> string) v l :
  existsb (fun k => String.eqb (f k) v) l = true <-> In v (map f l).
Proof.
  rewrite existsb_exists, in_map_iff. split; intros [k [H1 H2]]; exists k.
  - split; [now apply String.eqb_eq | exact H1].
  - split; [exact H2 | now apply String.eqb_eq].
Qed.

Lemma existsb_eqb_out {X : Type} (f : X -> string) v l :
  existsb (fun k => String.eqb (f k) v) l = false <-> ~ In v (map f l).
Proof.
  rewrite <- existsb_eqb_In. now destruct (existsb _ l).
Qed.

Lemma find_by_id_unique l r :
  NoDup (map i_id l) -> In r l ->
  find (fun x => String.eqb (i_id x) (i_id r)) l = Some r.
Proof.
  induction l as [|x l IH]; intros Hnd Hin; [destruct Hin|].
  cbn [map] in Hnd. apply NoDup_cons_iff in Hnd as [Hx Hnd].
  cbn [find]. destruct Hin as [->|Hin].
  - now rewrite String.eqb_refl.
  - destruct (String.eqb_spec (i_id x) (i_id r)) as [E|E].
    + exfalso. apply Hx. rewrite E. now apply in_map.
    + now apply IH.
Qed.

Lemma find_filter_other {X : Type} (f : X -> string) id id' l :
  id' <> id ->
  find (fun x => String.eqb (f x) id')
       (filter (fun x => negb (String.eqb (f x) id)) l)
  = find (fun x => String.eqb (f x) id') l.
Proof.
  intros Hne. induction l as [|x l IH]; [reflexivity|].
  cbn [filter find]. destruct (String.eqb_spec (f x) id) as [E|E]; cbn [negb].
  - destruct (String.eqb_spec (f x) id'); [congruence | exact IH].
  - cbn [find]. now rewrite IH.
Qed.

Lemma find_filter_self {X : Type} (f : X -> string) id l :
  find (fun x => String.eqb (f x) id)
       (filter (fun x => negb (String.eqb (f x) id)) l) = None.
Proof.
  induction l as [|x l IH]; [reflexivity|].
  cbn [filter]. destruct (String.eqb (f x) id) eqn:E; cbn [negb];
    [exact IH|].
  cbn [find]. now rewrite E.
Qed.

Lemma find_app_none {X : Type} (p : X -> bool) l1 l2 :
  find p l1 = None -> find p (l1 ++ l2) = find p l2.
Proof.
  induction l1 as [|x l1 IH]; [reflexivity|].
  cbn [app find]. destruct (p x); [discriminate | exact IH].
Qed.

Lemma filter_nil_iff {X : Type} (p : X -> bool) l :
  filter p l = [] <-> forall x, In x l -> p x = false.
Proof.
  split.
  - intros H x Hx. destruct (p x) eqn:E; [|reflexivity].
    assert (Hin : In x (filter p l)) by (apply filter_In; now split).
    rewrite H in Hin. destruct Hin.
  - apply filter_none.
Qed.

Lemma createItem_storeOk now uuid data st :
  storeOk st -> storeOk (snd (createItem now uuid data st)).
Proof.
  intros Hok. unfold createItem.
  destruct (insertItem _ st) as [err|st'] eqn:E; [exact Hok|].
  apply insertItem_inr in E as (-> & Hs & Hid & Hc). cbn [snd].
  now apply storeOk_items_app.
Qed.

Lemma deleteItem_storeOk id st :
  storeOk st -> storeOk (snd (deleteItem id st)).
Proof.
  intros Hok. unfold deleteItem.
  destruct (filter _ (items st)); [exact Hok|]. cbn [snd].
  destruct Hok as (H1 & H2 & H3 & H4).
  split; [|split; [|split]]; cbn [items categories]; try assumption.
  - now apply NoDup_map_filter.
  - apply Forall_forall. intros x Hx. apply filter_In in Hx as [Hx _].
    rewrite Forall_forall in H4. exact (H4 x Hx).
Qed.

Lemma categoryExists_add st c k :
  categoryExists st c = true ->
  categoryExists {| items := items st;
                    categories := (categories st ++ [k])%list |} c = true.
Proof.
  destruct c as [cid|]; [|reflexivity]. cbn [categoryExists categories].
  rewrite existsb_app. now intros ->.
Qed.

Lemma insertCategory_inr c st st' :
  insertCategory c st = inr st' ->
  st' = {| items := items st; categories := (categories st ++ [c])%list |} /\
  ~ In (c_id c) (map c_id (categories st)) /\
  ~ In (c_name c) (map c_name (categories st)).
Proof.
  unfold insertCategory.
  destruct (existsb (fun k => String.eqb (c_id k) (c_id c)) (categories st))
    eqn:E1; [discriminate|].
  destruct (existsb (fun k => String.eqb (c_name k) (c_name c))
                    (categories st)) eqn:E2; [discriminate|].
  intros [= <-]. split; [reflexivity|].
  split; now apply existsb_eqb_out.
Qed.

Lemma insertCategory_inl c st err :
  insertCategory c st = inl err ->
  includes err "UNIQUE" = true /\
  (In (c_id c) (map c_id (categories st)) \/
   In (c_name c) (map c_name (categories st))).
Proof.
  unfold insertCategory.
  destruct (existsb (fun k => String.eqb (c_id k) (c_id c)) (categories st))
    eqn:E1.
  - intros [= <-]. split; [vm_compute; reflexivity|].
    left. now apply existsb_eqb_In.
  - destruct (existsb (fun k => String.eqb (c_name k) (c_name c))
                      (categories st)) eqn:E2; [|discriminate].
    intros [= <-]. split; [vm_compute; reflexivity|].
    right. now apply existsb_eqb_In.
Qed.

Lemma storeOk_categories_app st c :
  storeOk st ->
  ~ In (c_id c) (map c_id (categories st)) ->
  ~ In (c_name c) (map c_name (categories st)) ->
  storeOk {| items := items st; categories := (categories st ++ [c])%list |}.
Proof.
  intros (H1 & H2 & H3 & H4) Hid Hname.
  split; [|split; [|split]]; cbn [items categories].
  - exact H1.
  - rewrite map_app. apply NoDup_app; [exact H2 | | ].
    + cbn. constructor; [intros [] | constructor].
    + intros a Ha [<-|[]]. contradiction.
  - rewrite map_app. apply NoDup_app; [exact H3 | | ].
    + cbn. constructor; [intros [] | constructor].
    + intros a Ha [<-|[]]. contradiction.
  - eapply Forall_impl; [|exact H4]. cbn beta. intros x [Hx1 Hx2].
    split; [exact Hx1|]. now apply categoryExists_add.
Qed.

Lemma createCategory_storeOk now uuid name st :
  storeOk st -> storeOk (snd (createCategory now uuid name st)).
Proof.
  intros Hok. unfold createCategory.
  destruct (insertCategory _ st) as [err|st'] eqn:E; [exact Hok|].
  apply insertCategory_inr in E as (-> & Hid & Hname). cbn [snd].
  now apply storeOk_categories_app.
Qed.

(** A category no item uses can be dropped. *)
Lemma storeOk_categories_filter st id :
  storeOk st ->
  filter (fun r => match i_category_id r with
                   | Some c => String.eqb c id
                   | None => false
                   end) (items st) = [] ->
  storeOk {| items := items st;
             categories := filter (fun k => negb (String.eqb (c_id k) id))
                                  (categories st) |}.
Proof.
  intros (H1 & H2 & H3 & H4) Hnone.
  split; [|split; [|split]]; cbn [items categories].
  - exact H1.
  - now apply NoDup_map_filter.
  - now apply NoDup_map_filter.
  - apply Forall_forall. intros x Hx. rewrite Forall_forall in H4.
    destruct (H4 x Hx) as [Hs Hc]. split; [exact Hs|].
    pose proof (proj1 (filter_nil_iff _ _) Hnone x Hx) as Hx'.
    cbn beta in Hx'.
    destruct (i_category_id x) as [cid|]; [|reflexivity].
    cbn [categoryExists categories] in Hc |- *.
    apply existsb_exists in Hc as [k [Hk Ek]].
    apply existsb_exists. exists k. split; [|exact Ek].
    apply filter_In. split; [exact Hk|].
    apply String.eqb_eq in Ek. rewrite Ek, Hx'. reflexivity.
Qed.

Lemma length_zero_nil {X : Type} (l : list X) :
  List.length l = 0%nat -> l = [].
Proof. now destruct l. Qed.

Lemma deleteCategory_storeOk id st :
  storeOk st -> storeOk (snd (deleteCategory id st)).
Proof.
  intros Hok. unfold deleteCategory.
  destruct (Nat.ltb_spec 0 (List.length (filter (fun r =>
                match i_category_id r with
                | Some c => String.eqb c id
                | None => false
                end) (items st)))) as [Hpos|Hz]; [exact Hok|].
  destruct (filter (fun k => String.eqb (c_id k) id) (categories st));
    [exact Hok|].
  cbn [snd]. apply storeOk_categories_filter; [exact Hok|].
  apply length_zero_nil. lia.
Qed.

Lemma initDatabase_storeOk now st :
  storeOk st -> storeOk (initDatabase now (Some st)).
Proof.
  intros Hok. unfold initDatabase.
  destruct (categories st) as [|k ks] eqn:Ec; [|exact Hok].
  destruct Hok as (H1 & H2 & H3 & H4).
  split; [|split; [|split]]; cbn [items categories].
  - exact H1.
  - apply distinct_NoDup. reflexivity.
  - apply distinct_NoDup. reflexivity.
  - eapply Forall_impl; [|exact H4]. cbn beta. intros x [Hx1 Hx2].
    split; [exact Hx1|].
    destruct (i_category_id x) as [cid|]; [|reflexivity].
    cbn [categoryExists] in Hx2. rewrite Ec in Hx2. discriminate.
Qed.

Lemma initDatabase_fresh_storeOk now : storeOk (initDatabase now None).
Proof.
  change (initDatabase now None)
    with (initDatabase now (Some {| items := []; categories := [] |})).
  apply initDatabase_storeOk.
  split; [|split; [|split]]; constructor.
Qed.

Lemma call_storeOk st c : storeOk st -> storeOk (call st c).
Proof.
  intros Hok. destruct c; cbn [call].
  - now apply createItem_storeOk.
  - now apply updateItem_storeOk.
  - now apply deleteItem_storeOk.
  - now apply createCategory_storeOk.
  - now apply deleteCategory_storeOk.
  - now apply initDatabase_storeOk.
Qed.

Lemma runCalls_storeOk calls :
  forall st, storeOk st -> storeOk (runCalls calls st).
Proof.
  unfold runCalls. induction calls as [|c calls IH]; intros st Hok;
    [exact Hok|].
  cbn [fold_left]. apply IH. now apply call_storeOk.
Qed.

Lemma statusOk_cases s :
  statusOk s = true ->
  (String.eqb s "active" = true /\ String.eqb s "inactive" = false) \/
  (String.eqb s "active" = false /\ String.eqb s "inactive" = true).
Proof.
  unfold statusOk.
  destruct (String.eqb_spec s "active") as [->|Ha].
  - intros _. left. split; reflexivity.
  - cbn [orb]. intros ->. right. split; reflexivity.
Qed.

Lemma status_counts (P : ItemRow -> Prop) l :
  Forall (fun r => statusOk (i_status r) = true /\ P r) l ->
  List.length l
  = (List.length (filter (fun r => String.eqb (i_status r) "active") l)
     + List.length (filter (fun r => String.eqb (i_status r) "inactive") l))
      %nat.
Proof.
  induction 1 as [|x l [Hx _] _ IH]; [reflexivity|].
  cbn [filter].
  destruct (statusOk_cases _ Hx) as [[-> ->]|[-> ->]];
    cbn [List.length]; lia.
Qed.

Lemma getItemById_joined st it :
  storeOk st -> In it (items st) ->
  exists cname,
    getItemById (i_id it) st = Some {| row := it; category_name := cname |} /\
    (cname = None <-> i_category_id it = None).
Proof.
  intros (H1 & _ & _ & H4) Hin. unfold getItemById.
  rewrite (find_by_id_unique _ _ H1 Hin).
  rewrite Forall_forall in H4. destruct (H4 it Hin) as [_ Hc].
  destruct (i_category_id it) as [cid|].
  - cbn [categoryExists] in Hc.
    destruct (find (fun k => String.eqb (c_id k) cid) (categories st))
      as [k|] eqn:F.
    + eexists. split; [reflexivity|]. cbn. split; discriminate.
    + exfalso. apply existsb_exists in Hc as [k [Hk Ek]].
      pose proof (find_none _ _ F k Hk) as Hn. cbn beta in Hn. congruence.
  - exists None. split; [reflexivity|]. now split.
Qed.

End ItemsCallFacts.

(** X26.  [deleteItem] succeeds exactly when an item of that id is stored.
    A refused call says "Item not found" and changes nothing.  After a
    successful call the id is no longer found, a second [deleteItem] of it is
    refused, every other item reads as before and the categories are
    untouched; on a store that satisfies the schema exactly one row is
    removed. *)
Theorem deleteItem_removes_exactly_that_item :
  forall id st,
    let r := Items.deleteItem id st in
    (success (fst r) = true <-> In id (map Items.i_id (Items.items st))) /\
    (success (fst r) = false ->
     r = ({| success := false; message := "Item not found" |}, st)) /\
    (success (fst r) = true ->
     Items.getItemById id (snd r) = None /\
     Items.deleteItem id (snd r)
     = ({| success := false; message := "Item not found" |}, snd r) /\
     (forall id', id' <> id ->
                  Items.getItemById id' (snd r) = Items.getItemById id' st) /\
     Items.categories (snd r) = Items.categories st /\
     (Items.storeOk st ->
      Items.storeOk (snd r) /\
      S (List.length (Items.items (snd r))) = List.length (Items.items st))).
Proof.
  intros id st. cbv zeta.
  assert (Hiff : filter (fun r => String.eqb (Items.i_id r) id)
                        (Items.items st) = []
                 <-> ~ In id (map Items.i_id (Items.items st))).
  { rewrite filter_nil_iff, <- existsb_eqb_out.
    split.
    - intros H. destruct (existsb _ (Items.items st)) eqn:E; [|reflexivity].
      apply existsb_exists in E as [x [Hx E]]. rewrite (H x Hx) in E.
      discriminate.
    - intros H x Hx. destruct (String.eqb (Items.i_id x) id) eqn:E;
        [|reflexivity].
      assert (existsb (fun k => String.eqb (Items.i_id k) id)
                      (Items.items st) = true)
        by (apply existsb_exists; now exists x).
      congruence. }
  pose proof (deleteItem_storeOk id st) as Hpres.
  unfold Items.deleteItem in *.
  destruct (filter (fun r => String.eqb (Items.i_id r) id) (Items.items st))
    as [|hit hits] eqn:Ef; cbn [fst snd success] in *.
  - split; [|split].
    + split; [discriminate|]. intros Hin. exfalso.
      now apply (proj1 Hiff).
    + reflexivity.
    + discriminate.
  - split; [|split].
    + split; [|reflexivity]. intros _.
      destruct (in_dec string_dec id (map Items.i_id (Items.items st)))
        as [Hin|Hout]; [exact Hin|].
      apply (proj2 Hiff) in Hout. discriminate.
    + discriminate.
    + intros _. split; [|split; [|split; [|split]]].
      * unfold Items.getItemById. cbn [Items.items].
        now rewrite find_filter_self.
      * cbn [Items.items]. rewrite filter_filter.
        rewrite filter_none; [reflexivity|].
        intros x _. now destruct (String.eqb (Items.i_id x) id).
      * intros id' Hne. apply getItemById_same_tables; [reflexivity|].
        cbn [Items.items]. now apply find_filter_other.
      * reflexivity.
      * intros Hok. split; [now apply Hpres|]. cbn [Items.items].
        destruct Hok as (H1 & _).
        assert (Hh : In hit (Items.items st) /\
                     String.eqb (Items.i_id hit) id = true).
        { apply (proj1 (filter_In
                           (fun r => String.eqb (Items.i_id r) id) hit
                           (Items.items st))).
          rewrite Ef. now left. }
        destruct Hh as [Hh Eh]. apply String.eqb_eq in Eh. subst id.
        pose proof (filter_length
                      (fun r => String.eqb (Items.i_id r) (Items.i_id hit))
                      (Items.items st)) as Hl.
        rewrite (filter_by_id_unique _ _ H1 Hh) in Hl.
        cbn [List.length] in Hl. lia.
Qed.

Lemma deleteItem_removes_exactly_that_item_witness :
  Items.getItemById "item-1"
    (snd (Items.deleteItem "item-1" Examples.stockedShop)) = None.
Proof.
  exact (proj1 (proj2 (proj2
    (deleteItem_removes_exactly_that_item "item-1" Examples.stockedShop))
    eq_refl)).
Defined.

(** X27.  [createCategory] stores the trimmed name under the new id and
    returns that row.  It succeeds exactly when neither the id nor the
    trimmed name is in use; otherwise it answers "Category already exists"
    and changes nothing.  After a success, any further call whose name trims
    to the same text is refused, the items are untouched and the schema's
    constraints still hold. *)
Theorem createCategory_rejects_duplicate_names :
  forall now uuid name st,
    let r := Items.createCategory now uuid name st in
    let new := {| Items.c_id := uuid; Items.c_name := trim name;
                  Items.c_created_at := sqlDatetime now |} in
    (Items.cr_success (fst r) = true <->
     ~ In uuid (map Items.c_id (Items.categories st)) /\
     ~ In (trim name) (map Items.c_name (Items.categories st))) /\
    (Items.cr_success (fst r) = false ->
     r = ({| Items.cr_success := false;
             Items.cr_message := "Category already exists";
             Items.cr_category := None |}, st)) /\
    (Items.cr_success (fst r) = true ->
     Items.cr_category (fst r) = Some new /\
     Items.categories (snd r) = (Items.categories st ++ [new])%list /\
     Items.items (snd r) = Items.items st /\
     (Items.storeOk st -> Items.storeOk (snd r)) /\
     (forall now' uuid' name',
         trim name' = trim name ->
         Items.createCategory now' uuid' name' (snd r)
         = ({| Items.cr_success := false;
               Items.cr_message := "Category already exists";
               Items.cr_category := None |}, snd r))).
Proof.
  intros now uuid name st. cbv zeta.
  pose proof (createCategory_storeOk now uuid name st) as Hpres.
  unfold Items.createCategory in *.
  destruct (Items.insertCategory _ st) as [err|st'] eqn:E;
    cbn [fst snd Items.cr_success] in *.
  - apply insertCategory_inl in E as [Hu Hdup].
    cbn [Items.c_id Items.c_name] in Hdup. rewrite Hu.
    split; [|split].
    + split; [discriminate|]. intros [H1 H2]. destruct Hdup; contradiction.
    + reflexivity.
    + discriminate.
  - apply insertCategory_inr in E as (-> & Hid & Hname).
    cbn [Items.c_id Items.c_name] in Hid, Hname.
    split; [|split].
    + split; [now split | reflexivity].
    + discriminate.
    + intros _. cbn [Items.cr_category Items.categories Items.items].
      split; [|split; [|split; [|split]]].
      * destruct (find (fun k => String.eqb (Items.c_id k) uuid)
                       (Items.categories st)) as [k|] eqn:F.
        -- exfalso. apply find_some in F as [Hk Ek].
           apply String.eqb_eq in Ek. apply Hid. rewrite <- Ek.
           now apply in_map.
        -- rewrite (find_app_none _ _ _ F).
           cbn [find Items.c_id]. now rewrite String.eqb_refl.
      * reflexivity.
      * reflexivity.
      * exact Hpres.
      * intros now' uuid' name' Etrim.
        destruct (Items.insertCategory
                    {| Items.c_id := uuid'; Items.c_name := trim name';
                       Items.c_created_at := sqlDatetime now' |}
                    {| Items.items := Items.items st;
                       Items.categories :=
                         (Items.categories st ++
                          [{| Items.c_id := uuid; Items.c_name := trim name;
                              Items.c_created_at := sqlDatetime now |}])%list
                    |}) as [err|st''] eqn:E2.
        -- apply insertCategory_inl in E2 as [Hu _]. now rewrite Hu.
        -- exfalso. apply insertCategory_inr in E2 as (_ & _ & Hn).
           apply Hn. cbn [Items.c_name Items.categories].
           rewrite map_app, Etrim. apply in_or_app. right. now left.
Qed.

Lemma createCategory_rejects_duplicate_names_witness :
  Items.createCategory (Examples.t0 + 9000) "cat-5" "  Tools"
    (snd (Items.createCategory Examples.t0 "cat-4" "Tools " Examples.shop))
  = ({| Items.cr_success := false;
        Items.cr_message := "Category already exists";
        Items.cr_category := None |},
     snd (Items.createCategory Examples.t0 "cat-4" "Tools " Examples.shop)).
Proof.
  refine (proj2 (proj2 (proj2 (proj2 (proj2 (proj2
    (createCategory_rejects_duplicate_names Examples.t0 "cat-4" "Tools "
       Examples.shop)) _))))
    (Examples.t0 + 9000) "cat-5" "  Tools" _);
    vm_compute; reflexivity.
Defined.

(** X28.  [deleteCategory] refuses a category that some item uses, with a
    message that carries the number of those items, and refuses an id that
    names no category ("Category not found"); both leave the store as it
    was.  Otherwise it removes the category of that id and no other, leaves
    every item and what [getItemById] reads of it unchanged, and keeps the
    schema's constraints. *)
Theorem deleteCategory_refuses_a_category_in_use :
  forall id st,
    let n := List.length
               (filter (fun r => match Items.i_category_id r with
                                 | Some c => String.eqb c id
                                 | None => false
                                 end) (Items.items st)) in
    let r := Items.deleteCategory id st in
    ((exists it, In it (Items.items st) /\ Items.i_category_id it = Some id) ->
     r = ({| success := false;
             message := "Cannot delete category. " ++ Items.countText n ++
                        " items are using this category." |}, st)) /\
    ((forall it, In it (Items.items st) ->
                 Items.i_category_id it <> Some id) ->
     (~ In id (map Items.c_id (Items.categories st)) ->
      r = ({| success := false; message := "Category not found" |}, st)) /\
     (In id (map Items.c_id (Items.categories st)) ->
      success (fst r) = true /\
      Items.items (snd r) = Items.items st /\
      (forall k, In k (Items.categories (snd r)) <->
                 In k (Items.categories st) /\ Items.c_id k <> id) /\
      (forall id', Items.getItemById id' (snd r) = Items.getItemById id' st) /\
      (Items.storeOk st -> Items.storeOk (snd r)))).
Proof.
  intros id st. cbv zeta.
  pose proof (deleteCategory_storeOk id st) as Hpres.
  unfold Items.deleteCategory in *.
  set (uses := filter (fun r => match Items.i_category_id r with
                                | Some c => String.eqb c id
                                | None => false
                                end) (Items.items st)) in *.
  split.
  - intros [it [Hin Hc]].
    assert (Hu : In it uses).
    { apply filter_In. split; [exact Hin|]. rewrite Hc.
      apply String.eqb_refl. }
    destruct (Nat.ltb_spec 0 (List.length uses)) as [_|Hz]; [reflexivity|].
    destruct uses; [destruct Hu | cbn [List.length] in Hz; lia].
  - intros Hnone.
    assert (Hu : uses = []).
    { apply filter_nil_iff. intros x Hx. specialize (Hnone x Hx).
      destruct (Items.i_category_id x) as [c|]; [|reflexivity].
      apply String.eqb_neq. congruence. }
    rewrite Hu in *. cbn [List.length Nat.ltb Nat.leb] in *.
    split.
    + intros Hout.
      rewrite (proj2 (filter_nil_iff _ _)); [reflexivity|].
      intros x Hx. apply String.eqb_neq. intros E. apply Hout.
      rewrite <- E. now apply in_map.
    + intros Hin.
      destruct (filter (fun k => String.eqb (Items.c_id k) id)
                       (Items.categories st)) as [|k ks] eqn:Ef.
      * exfalso. apply in_map_iff in Hin as [k [Ek Hk]].
        pose proof (proj1 (filter_nil_iff _ _) Ef k Hk) as Hn.
        cbn beta in Hn. apply String.eqb_neq in Hn. contradiction.
      * cbn [fst snd success Items.items Items.categories] in *.
        split; [reflexivity|]. split; [reflexivity|].
        split; [|split; [|exact Hpres]].
        -- intros c. rewrite filter_In. split; intros [H1 H2];
             (split; [exact H1|]).
           ++ apply negb_true_iff in H2. now apply String.eqb_neq.
           ++ apply negb_true_iff. now apply String.eqb_neq.
        -- intros id'. unfold Items.getItemById.
           cbn [Items.items Items.categories].
           destruct (find (fun r => String.eqb (Items.i_id r) id')
                          (Items.items st)) as [it|] eqn:F; [|reflexivity].
           apply find_some in F as [Hit _].
           specialize (Hnone it Hit).
           destruct (Items.i_category_id it) as [cid|]; [|reflexivity].
           rewrite find_filter_other; [reflexivity | congruence].
Qed.

Lemma deleteCategory_refuses_a_category_in_use_witness :
  Items.deleteCategory "cat-2" Examples.stockedShop
  = ({| success := false;
        message := "Cannot delete category. 1 items are using this category."
     |}, Examples.stockedShop).
Proof.
  refine (proj1 (deleteCategory_refuses_a_category_in_use "cat-2"
                   Examples.stockedShop) _).
  eexists. split; [left; reflexivity | reflexivity].
Defined.

(** X29.  Whatever sequence of item and category calls and restarts is run
    on a store that satisfies the schema, the result satisfies it again:
    ids and category names are unique, every status is "active" or
    "inactive" and no item refers to a missing category.  So every stored
    item is read back by [getItemById] with a category name exactly when it
    has a category, and the dashboard's total is the sum of its active and
    inactive counts. *)
Theorem store_constraints_hold_after_any_calls :
  forall calls st0,
    Items.storeOk st0 ->
    let st := Items.runCalls calls st0 in
    Items.storeOk st /\
    (forall it, In it (Items.items st) ->
       exists cname,
         Items.getItemById (Items.i_id it) st
         = Some {| Items.row := it; Items.category_name := cname |} /\
         (cname = None <-> Items.i_category_id it = None)) /\
    Items.totalItems (Items.getDashboardStats st)
    = (Items.activeItems (Items.getDashboardStats st)
       + Items.inactiveItems (Items.getDashboardStats st))%nat.
Proof.
  intros calls st0 Hok0. cbv zeta.
  pose proof (runCalls_storeOk calls st0 Hok0) as Hok.
  split; [exact Hok|]. split.
  - intros it Hin. now apply getItemById_joined.
  - cbn [Items.getDashboardStats Items.totalItems Items.activeItems
         Items.inactiveItems].
    destruct Hok as (_ & _ & _ & H4).
    exact (status_counts _ _ H4).
Qed.

Lemma store_constraints_hold_after_any_calls_witness :
  Items.storeOk
    (Items.runCalls
       [ Items.CreateItem (Examples.t0 + 1000) "item-1" Examples.lampData;
         Items.DeleteCategory "cat-2";
         Items.UpdateItem (Examples.t0 + 2000)
           {| Items.upd_id := "item-1"; Items.upd_name := None;
              Items.upd_description := None;
              Items.upd_category_id := None;
              Items.upd_quantity := None;
              Items.upd_status := Some "archived" |};
         Items.DeleteItem "item-1";
         Items.DeleteCategory "cat-2";
         Items.Restart (Examples.t0 + 3000) ]
       (Items.initDatabase Examples.t0 None)).
Proof.
  exact (proj1 (store_constraints_hold_after_any_calls _ _
                  (initDatabase_fresh_storeOk Examples.t0))).
Defined.

Section DbFacts.

Import Db.

Lemma use_single h u :
  (db h = None /\ openConnections h = []) \/
  (exists c, db h = Some c /\ openConnections h = [c]) ->
  (db (use h u) = None /\ openConnections (use h u) = []) \/
  (exists c, db (use h u) = Some c /\ openConnections (use h u) = [c]).
Proof.
  intros [[Hd Ho]|[c [Hd Ho]]]; destruct u; cbn [use];
    unfold getDatabase, closeDatabase; rewrite Hd;
    cbn [snd db openConnections].
  - right. exists (nextConnection h). rewrite Ho. now split.
  - left. now split.
  - right. exists c. now split.
  - left. split; [reflexivity|]. rewrite Ho. cbn [filter].
    now rewrite Nat.eqb_refl.
Qed.

Lemma runUses_single us :
  forall h,
    (db h = None /\ openConnections h = []) \/
    (exists c, db h = Some c /\ openConnections h = [c]) ->
    (db (runUses us h) = None /\ openConnections (runUses us h) = []) \/
    (exists c, db (runUses us h) = Some c /\
               openConnections (runUses us h) = [c]).
Proof.
  unfold runUses. induction us as [|u us IH]; intros h H; [exact H|].
  cbn [fold_left]. apply IH. now apply use_single.
Qed.

End DbFacts.

(** X30.  The database module keeps at most one connection: after any
    sequence of [getDatabase] and [closeDatabase] calls the open connections
    are exactly the one held in [db], if any.  [getDatabase] then returns a
    connection that a second [getDatabase] returns again without opening
    another, and [closeDatabase] leaves none open. *)
Theorem getDatabase_keeps_one_connection :
  forall us,
    let h := Db.runUses us Db.unloaded in
    Db.openConnections h
    = match Db.db h with Some c => [c] | None => [] end /\
    Db.openConnections (snd (Db.getDatabase h)) = [fst (Db.getDatabase h)] /\
    Db.getDatabase (snd (Db.getDatabase h))
    = (fst (Db.getDatabase h), snd (Db.getDatabase h)) /\
    Db.openConnections (Db.closeDatabase h) = [] /\
    Db.db (Db.closeDatabase h) = None.
Proof.
  intros us. cbv zeta.
  pose proof (runUses_single us Db.unloaded
                (or_introl (conj eq_refl eq_refl))) as H.
  set (h := Db.runUses us Db.unloaded) in *.
  split; [|split; [|split; [|split]]].
  - destruct H as [[-> ->]|[c [-> ->]]]; reflexivity.
  - unfold Db.getDatabase.
    destruct H as [[Hd Ho]|[c [Hd Ho]]]; rewrite Hd;
      cbn [fst snd Db.openConnections]; rewrite Ho; reflexivity.
  - unfold Db.getDatabase.
    destruct (Db.db h) eqn:E; cbn [fst snd Db.db]; [now rewrite E|].
    reflexivity.
  - unfold Db.closeDatabase.
    destruct H as [[Hd Ho]|[c [Hd Ho]]]; rewrite Hd;
      cbn [Db.openConnections]; rewrite Ho; [reflexivity|].
    cbn [filter]. now rewrite Nat.eqb_refl.
  - unfold Db.closeDatabase.
    destruct H as [[Hd Ho]|[c [Hd Ho]]]; rewrite Hd; [exact Hd|reflexivity].
Qed.
